(** * Image sourcing core of the presentation backend

    A shallow embedding of
    - [services/adaptive_image_service.py] (classifier, fan-out aggregator,
      top-level entry point),
    - [models/image_prompt.py] (theme composition),
    - [services/image_generation_service.py] (generation entry point,
      workflow prompt injection, ComfyUI job poller),
    followed by the properties established about them.

    Conventions.
    - Python [str] values are [string]s (UTF-8 bytes).  All needles the code
      searches for are ASCII, so byte-wise search agrees with code-point
      search.
    - Values decoded from JSON are [json] trees; a JSON object is an
      association list in insertion order (Python dicts keep it).
    - A Python call that may raise returns an [outcome].
    - Awaited collaborators (language model, search adapters, generation
      backends, the file system) are events of a small free monad [prog];
      the clock and the HTTP exchange of the poller are threaded explicitly. *)

From Stdlib Require Import ZArith Lia List String Ascii Bool Permutation.
From stdpp Require Import base option list gmap strings.
Import ListNotations.
Set Warnings "-register-all".
Local Open Scope string_scope.
Local Open Scope list_scope.
Local Open Scope Z_scope.

(** ** Python runtime values *)

Module Py.

(** Values produced by [json.loads] / [response.json()].  Numbers are kept
    integral: the modelled code only tests them for truthiness. *)
Inductive json : Type :=
| JNull
| JBool (b : bool)
| JNum (n : Z)
| JStr (s : string)
| JArr (items : list json)
| JObj (fields : list (string * json)).

(** Exceptions, one constructor per [raise] site of the modelled code plus the
    dynamic-typing failures of the interpreter.  The specification's error
    taxonomy maps onto them as: ConfigurationError = [PromptNodeNotFound],
    TimeoutError = [WorkflowTimedOut], ExecutionError = [WorkflowError]. *)
Inductive error : Type :=
| PromptNodeNotFound           (* ValueError("Could not find a node with title 'Input Prompt' ...") *)
| WorkflowTimedOut (timeout : Z) (* Exception(f"ComfyUI workflow timed out after {timeout} seconds") *)
| WorkflowError (err : json)   (* Exception(f"ComfyUI workflow error: {status['error']}") *)
| ImageNotFound                (* Exception(f"Image not found at {image_path}") *)
| PyTypeError
| PyAttributeError
| PyKeyError (key : string)
| External (msg : string).     (* anything raised by an awaited collaborator *)

Inductive outcome (A : Type) : Type :=
| Ok (a : A)
| Raise (e : error).
Arguments Ok {A} a.
Arguments Raise {A} e.

Definition obind {A B} (o : outcome A) (f : A -> outcome B) : outcome B :=
  match o with
  | Ok a => f a
  | Raise e => Raise e
  end.

#[export] Instance outcome_ret : MRet outcome := @Ok.
#[export] Instance outcome_bind : MBind outcome := fun A B f o => obind o f.

(** [try: body except Exception: handler] *)
Definition try_except {A} (body : outcome A) (handler : error -> A) : A :=
  match body with
  | Ok a => a
  | Raise e => handler e
  end.

(** *** Strings *)

Fixpoint starts_with (p s : string) : bool :=
  match p, s with
  | EmptyString, _ => true
  | String a p', String b s' => if Ascii.eqb a b then starts_with p' s' else false
  | String _ _, EmptyString => false
  end.

(** [needle in hay] on strings. *)
Fixpoint contains (needle hay : string) : bool :=
  if starts_with needle hay then true
  else match hay with
       | EmptyString => false
       | String _ hay' => contains needle hay'
       end.

(** [sep.join(parts)] *)
Definition join (sep : string) (parts : list string) : string :=
  String.concat sep parts.

(** *** Dynamic operations on decoded JSON *)

Fixpoint assoc (k : string) (fields : list (string * json)) : option json :=
  match fields with
  | [] => None
  | (k', v) :: rest => if String.eqb k k' then Some v else assoc k rest
  end.

(** [d[k] = v] for a key that may or may not be present: an existing key
    keeps its position, a new key is appended. *)
Fixpoint assoc_set (k : string) (v : json) (fields : list (string * json))
  : list (string * json) :=
  match fields with
  | [] => [(k, v)]
  | (k', v') :: rest =>
      if String.eqb k k' then (k', v) :: rest else (k', v') :: assoc_set k v rest
  end.

Definition is_str (k : string) (v : json) : bool :=
  match v with
  | JStr s => String.eqb s k
  | _ => false
  end.

(** [bool(v)] *)
Definition truthy (v : json) : bool :=
  match v with
  | JNull => false
  | JBool b => b
  | JNum n => negb (n =? 0)
  | JStr s => negb (String.eqb s "")
  | JArr items => match items with [] => false | _ => true end
  | JObj fields => match fields with [] => false | _ => true end
  end.

(** [k in v] for a string [k]: key membership on dicts, element membership
    on lists, substring on strings, [TypeError] otherwise. *)
Definition py_in (k : string) (v : json) : outcome bool :=
  match v with
  | JObj fields => Ok (match assoc k fields with Some _ => true | None => false end)
  | JArr items => Ok (existsb (is_str k) items)
  | JStr s => Ok (contains k s)
  | _ => Raise PyTypeError
  end.

(** [v[k]] for a string [k]. *)
Definition py_getitem (k : string) (v : json) : outcome json :=
  match v with
  | JObj fields =>
      match assoc k fields with
      | Some x => Ok x
      | None => Raise (PyKeyError k)
      end
  | _ => Raise PyTypeError
  end.

(** [v.get(k, default)]: only dicts have the method. *)
Definition py_get (k : string) (default : json) (v : json) : outcome json :=
  match v with
  | JObj fields => Ok (match assoc k fields with Some x => x | None => default end)
  | _ => Raise PyAttributeError
  end.

(** [v[k] = x] for a string [k]: only dicts accept it. *)
Definition py_setitem (k : string) (x : json) (v : json) : outcome json :=
  match v with
  | JObj fields => Ok (JObj (assoc_set k x fields))
  | _ => Raise PyTypeError
  end.

(** The two library functions the code relies on and that are kept abstract:
    [str.lower] (Unicode aware) and [json.loads]. *)
Class Runtime : Type := {
  str_lower : string -> string;
  json_loads : string -> outcome json
}.

(** [v.lower()]: only strings have the method. *)
Definition py_lower `{Runtime} (v : json) : outcome string :=
  match v with
  | JStr s => Ok (str_lower s)
  | _ => Raise PyAttributeError
  end.

(** A concrete runtime used to evaluate the model on examples: ASCII
    lower-casing, and a decoder that only knows a handful of documents. *)
Definition ascii_lower (c : ascii) : ascii :=
  let n := nat_of_ascii c in
  if (andb (Nat.leb 65 n) (Nat.leb n 90)) then ascii_of_nat (n + 32)%nat else c.

Fixpoint lower_ascii (s : string) : string :=
  match s with
  | EmptyString => EmptyString
  | String c s' => String (ascii_lower c) (lower_ascii s')
  end.

End Py.
Import Py.

(** ** Awaited collaborators as events *)

Module Effects.

(** Candidate as returned to callers ([ImageAlternative]). *)
Record ImageAlternative : Type := {
  url : string;
  thumbnail_url : option string;
  source : string;
  attribution : option string;
  description : option string
}.

(** [clients.unsplash_client.UnsplashImage] *)
Record UnsplashImage : Type := {
  u_id : string;
  u_url : string;
  u_thumbnail_url : string;
  u_description : option string;
  u_photographer : string;
  u_photographer_url : string;
  u_source : string;
  u_attribution : string
}.

(** [clients.wikimedia_client.WikimediaImage] *)
Record WikimediaImage : Type := {
  w_id : string;
  w_url : string;
  w_thumbnail_url : string;
  w_title : string;
  w_description : option string;
  w_source : string;
  w_attribution : string
}.

(** What [asyncio.gather] with [return_exceptions=True] hands back for the
    four search tasks, in task order: each slot holds the adapter's list or
    the exception it raised. *)
Record gather_results : Type := {
  r_unsplash : outcome (list UnsplashImage);
  r_wikimedia : outcome (list WikimediaImage);
  r_pexels : outcome (list ImageAlternative);
  r_pixabay : outcome (list ImageAlternative)
}.

(** The generation functions [get_image_gen_func] can select. *)
Inductive gen_func : Type :=
| get_image_from_pixabay
| get_image_from_pexels
| generate_image_gemini_flash
| generate_image_nanobanana_pro
| generate_image_openai_dalle3
| generate_image_openai_gpt_image_1_5
| generate_image_comfyui.

Inductive eff : Type -> Type :=
| LLMGenerate (prompt : string) : eff (outcome (option string))
    (* llm_client.generate(model, messages, max_tokens=200); the messages are
       fixed text around the prompt. *)
| Gather (query : string) (per_source : Z) : eff gather_results
    (* the four adapter tasks of AdaptiveImageService.search_multiple_sources *)
| AgentSearch (query language : string) : eff (list string)
    (* ImageGenerationService.search_multiple_sources: returns URLs, catches
       every exception itself *)
| ImageGen (f : gen_func) (prompt : string) (output_directory : option string)
    : eff (outcome (option string))
    (* self.image_gen_func(...): a path or URL, possibly None *)
| PathExists (path : string) : eff bool.

Inductive prog (A : Type) : Type :=
| Ret (a : A)
| Vis {X : Type} (e : eff X) (k : X -> prog A).
Arguments Ret {A} a.
Arguments Vis {A X} e k.

Fixpoint bind {A B} (p : prog A) (f : A -> prog B) : prog B :=
  match p with
  | Ret a => f a
  | Vis e k => Vis e (fun x => bind (k x) f)
  end.

Definition trigger {X} (e : eff X) : prog X := Vis e Ret.

#[export] Instance prog_ret : MRet prog := @Ret.
#[export] Instance prog_bind : MBind prog := fun A B f p => bind p f.

(** An environment answers every event. *)
Definition handler : Type := forall X, eff X -> X.

Inductive event : Type :=
| Ev {X : Type} (e : eff X) (answer : X).

(** Run a program against an environment, recording the events it fires. *)
Fixpoint run {A} (h : handler) (p : prog A) : list event * A :=
  match p with
  | Ret a => ([], a)
  | Vis e k =>
      let x := h _ e in
      let '(t, a) := run h (k x) in
      (Ev e x :: t, a)
  end.

(** The queries passed to [ImageGenerationService.search_multiple_sources]. *)
Definition agent_queries (t : list event) : list string :=
  flat_map (fun ev => match ev with
                      | Ev (AgentSearch q _) _ => [q]
                      | Ev _ _ => []
                      end) t.

(** The prompts passed to the selected generation function. *)
Definition gen_calls (t : list event) : list (gen_func * string) :=
  flat_map (fun ev => match ev with
                      | Ev (ImageGen f p _) _ => [(f, p)]
                      | Ev _ _ => []
                      end) t.

End Effects.
Import Effects.

(** ** [models/image_prompt.py] *)

Record ImagePrompt : Type := {
  prompt : string;
  theme_prompt : option string;
  language : string
}.

(** [if with_theme and self.theme_prompt]: [None] and the empty string are
    both falsy. *)
Definition get_image_prompt (self : ImagePrompt) (with_theme : bool) : string :=
  match theme_prompt self with
  | Some theme =>
      if with_theme && negb (String.eqb theme "")
      then (prompt self ++ ", " ++ theme)%string
      else prompt self
  | None => prompt self
  end.

(** ** [services/image_generation_service.py] *)

Module ImageGenerationService.

(** The provider switches read from the environment ([utils.image_provider]). *)
Record provider_env : Type := {
  image_generation_disabled : bool;
  pixabay_selected : bool;
  pixels_selected : bool;
  gemini_flash_selected : bool;
  nanobanana_pro_selected : bool;
  dalle3_selected : bool;
  gpt_image_1_5_selected : bool;
  comfyui_selected : bool
}.

Record service : Type := {
  env : provider_env;
  output_directory : string;
  is_image_generation_disabled : bool;
  image_gen_func : option gen_func
}.

Definition get_image_gen_func (e : provider_env) (disabled : bool) : option gen_func :=
  if disabled then None
  else if pixabay_selected e then Some get_image_from_pixabay
  else if pixels_selected e then Some get_image_from_pexels
  else if gemini_flash_selected e then Some generate_image_gemini_flash
  else if nanobanana_pro_selected e then Some generate_image_nanobanana_pro
  else if dalle3_selected e then Some generate_image_openai_dalle3
  else if gpt_image_1_5_selected e then Some generate_image_openai_gpt_image_1_5
  else if comfyui_selected e then Some generate_image_comfyui
  else None.

(** [__init__] *)
Definition init (e : provider_env) (output_directory : string) : service :=
  {| env := e;
     output_directory := output_directory;
     is_image_generation_disabled := image_generation_disabled e;
     image_gen_func := get_image_gen_func e (image_generation_disabled e) |}.

Definition is_stock_provider_selected (self : service) : bool :=
  pixels_selected (env self) || pixabay_selected (env self).

(** The [extras] dictionaries [generate_image] attaches to an asset. *)
Inductive asset_extras : Type :=
| SearchExtras (prompt : string) (candidates : list string)
    (* {"prompt": ..., "candidates": ..., "source": "search"} *)
| GeneratedExtras (prompt : string) (theme_prompt : option string).
    (* {"prompt": ..., "theme_prompt": ...} *)

Record ImageAsset : Type := {
  path : string;
  is_uploaded : bool;
  extras : asset_extras
}.

(** [str | ImageAsset] *)
Inductive gen_result : Type :=
| ResultStr (s : string)
| ResultAsset (a : ImageAsset).

Definition placeholder_path : string := "/static/images/placeholder.jpg".

(** The body of the [try] block of [generate_image]: call the selected
    function, then accept an http URL or an existing file. *)
Definition generate_with (self : service) (f : gen_func) (p : ImagePrompt)
    (image_prompt : string) : prog (outcome gen_result) :=
  r ← trigger (ImageGen f image_prompt
                 (if is_stock_provider_selected self then None
                  else Some (output_directory self)));
  match r with
  | Raise e => mret (Raise e)
  | Ok None => mret (Raise ImageNotFound)
  | Ok (Some image_path) =>
      if String.eqb image_path "" then mret (Raise ImageNotFound)
      else if starts_with "http" image_path then mret (Ok (ResultStr image_path))
      else
        found ← trigger (PathExists image_path);
        if (found : bool)
        then mret (Ok (ResultAsset
                         {| path := image_path;
                            is_uploaded := false;
                            extras := GeneratedExtras (prompt p) (theme_prompt p) |}))
        else mret (Raise ImageNotFound)
  end.

Definition generate_image (self : service) (p : ImagePrompt) : prog (outcome gen_result) :=
  if is_image_generation_disabled self then mret (Ok (ResultStr placeholder_path))
  else
    let is_stock := is_stock_provider_selected self in
    let image_prompt := get_image_prompt p (negb is_stock) in
    results ← trigger (AgentSearch image_prompt (language p));
    match results with
    | first :: _ =>
        mret (Ok (ResultAsset
                    {| path := first;
                       is_uploaded := false;
                       extras := SearchExtras (prompt p) results |}))
    | [] =>
        match image_gen_func self with
        | None => mret (Ok (ResultStr placeholder_path))
        | Some f =>
            r ← generate_with self f p image_prompt;
            (* except Exception: return the placeholder *)
            mret (Ok (try_except r (fun _ => ResultStr placeholder_path)))
        end
    end.

(** *** Prompt injection into a workflow graph *)

(** One iteration of the loop over [workflow.items()]: [Ok (Some node')] when
    the prompt was written into this node, [Ok None] when the loop moves on. *)
Definition inject_node `{Runtime} (node_data : json) (prompt : string)
  : outcome (option json) :=
  meta ← py_get "_meta" (JObj []) node_data;
  t ← py_get "title" (JStr "") meta;
  title ← py_lower t;
  if String.eqb title "input prompt" then
    has_inputs ← py_in "inputs" node_data;
    if (has_inputs : bool) then
      inputs ← py_getitem "inputs" node_data;
      has_text ← py_in "text" inputs;
      if (has_text : bool) then
        inputs' ← py_setitem "text" (JStr prompt) inputs;
        node_data' ← py_setitem "inputs" inputs' node_data;
        mret (Some node_data')
      else mret None
    else mret None
  else mret None.

Fixpoint inject_nodes `{Runtime} (nodes : list (string * json)) (prompt : string)
  : outcome (list (string * json)) :=
  match nodes with
  | [] => Raise PromptNodeNotFound
  | (node_id, node_data) :: rest =>
      r ← inject_node node_data prompt;
      match r with
      | Some node_data' => mret ((node_id, node_data') :: rest)
      | None =>
          rest' ← inject_nodes rest prompt;
          mret ((node_id, node_data) :: rest')
      end
  end.

(** [workflow.items()] exists on dicts only. *)
Definition _inject_prompt_into_workflow `{Runtime} (workflow : json) (prompt : string)
  : outcome json :=
  match workflow with
  | JObj nodes => nodes' ← inject_nodes nodes prompt; mret (JObj nodes')
  | _ => Raise PyAttributeError
  end.

(** *** Job poller *)

Record http_response : Type := {
  status : Z;               (* response.status *)
  body : option json        (* await response.json(); None when it raises *)
}.

(** What [session.get] produces: a response, or an exception of the HTTP
    client (connection error, per-request timeout). *)
Inductive get_outcome : Type :=
| Responded (response : http_response)
| ClientError (msg : string).

(** What the outside world does during one loop iteration: how much longer
    than requested the sleep lasted, how long the GET (and the decoding of
    its body) took, and what the GET produced. *)
Record poll_step : Type := {
  sleep_overshoot : Z;
  get_duration : Z;
  get_result : get_outcome
}.

(** The part of the loop body that inspects a decoded history document:
    [Ok (Some status_data)] returns it, [Ok None] falls through to the next
    iteration. *)
Definition check_history (prompt_id : string) (status_data : json)
  : outcome (option json) :=
  known ← py_in prompt_id status_data;
  if (known : bool) then
    execution_data ← py_getitem prompt_id status_data;
    has_status ← py_in "status" execution_data;
    by_status ←
      (if (has_status : bool) then
         st ← py_getitem "status" execution_data;
         completed ← py_get "completed" (JBool false) st;
         if truthy completed then mret (Some status_data)
         else
           has_error ← py_in "error" st;
           if (has_error : bool) then
             err ← py_getitem "error" st;
             Raise (WorkflowError err)
           else mret None
       else mret None);
    match by_status with
    | Some done => mret (Some done)
    | None =>
        has_outputs ← py_in "outputs" execution_data;
        if (has_outputs : bool) then
          outputs ← py_getitem "outputs" execution_data;
          if truthy outputs then mret (Some status_data) else mret None
        else mret None
    end
  else mret None.

(** Final state of the poller: the result, the clock reading when it was
    produced, and the number of GET requests issued. *)
Record poll_end : Type := {
  result : outcome json;
  ended_at : Z;
  polls : nat
}.

(** [asyncio.sleep(d)] returns at once for a non-positive delay. *)
Definition after_sleep (now d overshoot : Z) : Z := now + Z.max 0 d + overshoot.

(** The [while True] loop; [i] counts completed iterations, [now] is the
    event-loop clock.  [None] only when [fuel] runs out. *)
Fixpoint wait_loop (world : nat -> poll_step) (prompt_id : string)
    (timeout poll_interval start_time : Z) (fuel i : nat) (now : Z)
  : option poll_end :=
  match fuel with
  | O => None
  | S fuel' =>
      let elapsed := now - start_time in
      if elapsed >? timeout
      then Some {| result := Raise (WorkflowTimedOut timeout); ended_at := now; polls := i |}
      else
        let st := world i in
        let woke := after_sleep now poll_interval (sleep_overshoot st) in
        let now' := woke + get_duration st in
        let continue := wait_loop world prompt_id timeout poll_interval start_time
                          fuel' (S i) now' in
        match get_result st with
        | ClientError msg =>
            Some {| result := Raise (External msg); ended_at := now'; polls := S i |}
        | Responded response =>
            if negb (status response =? 200) then continue
            else
              match body response with
              | None => continue
              | Some status_data =>
                  match check_history prompt_id status_data with
                  | Raise e => Some {| result := Raise e; ended_at := now'; polls := S i |}
                  | Ok (Some done) => Some {| result := Ok done; ended_at := now'; polls := S i |}
                  | Ok None => continue
                  end
              end
        end
  end.

Definition _wait_for_comfyui_completion (world : nat -> poll_step) (prompt_id : string)
    (timeout poll_interval start_time : Z) (fuel : nat) : option poll_end :=
  wait_loop world prompt_id timeout poll_interval start_time fuel 0 start_time.

Definition default_timeout : Z := 300.
Definition default_poll_interval : Z := 4.

End ImageGenerationService.

(** ** [services/adaptive_image_service.py] *)

Module AdaptiveImageService.

Inductive decision : Type := generate | search.

Record AdaptiveImageResponse : Type := {
  resp_decision : decision;
  resp_reason : json;
  images : list ImageAlternative
}.

Definition physics_keywords : list string := [
  "pendulum"; "oscillation"; "wave"; "frequency"; "amplitude"; "period";
  "momentum"; "velocity"; "acceleration"; "force"; "gravity"; "friction";
  "energy"; "kinetic"; "potential"; "thermodynamics"; "heat"; "temperature";
  "pressure"; "volume"; "gas"; "molecule"; "atom"; "particle"; "electron";
  "photon"; "quantum"; "relativity"; "electromagnetic"; "magnetic"; "electric";
  "circuit"; "resistance"; "voltage"; "current"; "capacitor"; "inductor";
  "lens"; "mirror"; "optics"; "refraction"; "reflection"; "diffraction";
  "formula"; "equation"; "physics"; "mechanics"; "dynamics"; "statics";
  "sinusoidal"; "harmonic"; "spring"; "mass"; "weight"; "newton"; "joule";
  "watt"; "hertz"; "wavelength"; "spectrum"; "radiation"; "nuclear"
].

Definition chemistry_keywords : list string := [
  "molecule"; "atom"; "chemical"; "reaction"; "compound"; "element";
  "periodic"; "electron"; "proton"; "neutron"; "ion"; "bond"; "covalent";
  "ionic"; "hydrogen"; "oxygen"; "carbon"; "nitrogen"; "sulfur";
  "acid"; "base"; "ph"; "oxidation"; "reduction"; "catalyst";
  "organic"; "inorganic"; "polymer"; "protein"; "enzyme"; "dna"; "rna";
  "chemistry"; "molecular"; "crystal"; "solution"; "concentration";
  "molar"; "molarity"; "titration"; "equilibrium"
].

Definition biology_keywords : list string := [
  "cell"; "dna"; "rna"; "gene"; "chromosome"; "mitosis"; "meiosis";
  "protein"; "enzyme"; "bacteria"; "virus"; "organism"; "species";
  "evolution"; "natural selection"; "genetics"; "heredity"; "mutation";
  "photosynthesis"; "respiration"; "metabolism"; "ecosystem"; "biome";
  "anatomy"; "physiology"; "organ"; "tissue"; "neuron"; "synapse";
  "biology"; "biological"; "microscope"; "specimen"; "bacteria";
  "membrane"; "nucleus"; "cytoplasm"; "mitochondria"; "chloroplast"
].

Definition math_keywords : list string := [
  "graph"; "chart"; "diagram"; "formula"; "equation"; "statistics";
  "percentage"; "ratio"; "proportion"; "function"; "derivative"; "integral";
  "algebra"; "geometry"; "trigonometry"; "calculus"; "probability";
  "distribution"; "mean"; "median"; "deviation"; "variance"; "correlation";
  "pie chart"; "bar chart"; "histogram"; "scatter"; "plot"; "axis";
  "coordinate"; "vector"; "matrix"; "theorem"; "proof"; "calculation"
].

Definition educational_keywords : list string := [
  "diagram"; "schematic"; "illustration"; "infographic"; "model";
  "educational"; "classroom"; "blackboard"; "whiteboard"; "textbook";
  "scientific"; "technical"; "labeled"; "annotation"; "scheme";
  "structure"; "system"; "process"; "cycle"; "flow"; "mechanism"
].

Definition all_search_keywords : list string :=
  physics_keywords ++ chemistry_keywords ++ biology_keywords ++
  math_keywords ++ educational_keywords.

(** [[kw for kw in all_search_keywords if kw in prompt_lower]] *)
Definition matched_keywords (prompt_lower : string) : list string :=
  List.filter (fun kw => contains kw prompt_lower) all_search_keywords.

Definition keyword_reason (matched : list string) : string :=
  ("Scientific/educational content detected: " ++ join ", " (firstn 3 matched))%string.

(** The longest run of characters other than the closing brace, provided a
    closing brace ends it. *)
Fixpoint until_close (s : string) : option string :=
  match s with
  | EmptyString => None
  | String c rest =>
      if Ascii.eqb c "}" then Some EmptyString
      else option_map (String c) (until_close rest)
  end.

(** [re.search(r'\{[^}]+\}', response)]: the leftmost opening brace followed
    by at least one character that is not a closing brace and then a closing
    brace; the match runs up to that first closing brace. *)
Fixpoint re_search_object (s : string) : option string :=
  match s with
  | EmptyString => None
  | String c rest =>
      if Ascii.eqb c "{" then
        match until_close rest with
        | Some (String b inner) => Some (String c (String b inner ++ "}")%string)
        | _ => re_search_object rest
        end
      else re_search_object rest
  end.

(** [if decision not in ["generate", "search"]: decision = "search"] *)
Definition coerce_decision (d : json) : decision :=
  if is_str "generate" d then generate
  else if is_str "search" d then search
  else search.

(** The body of the [try] block once the model has answered: [Ok None] when
    the regular expression finds nothing and control leaves the block. *)
Definition parse_llm_response `{Runtime} (response : option string)
  : outcome (option (decision * json)) :=
  match response with
  | None => Raise PyTypeError   (* re.search on a non-string *)
  | Some text =>
      match re_search_object text with
      | Some matched =>
          parsed ← json_loads matched;
          d ← py_get "decision" (JStr "search") parsed;
          reason ← py_get "reason" (JStr "Default decision") parsed;
          mret (Some (coerce_decision d, reason))
      | None => mret None
      end
  end.

Definition default_classification : decision * json :=
  (search, JStr "Defaulting to search due to classification error").

(** The construction of the client and the choice of the model, which
    precede the [try] block, are not modelled: the language model is met only
    through the awaited [generate] call. *)
Definition decide_image_source `{Runtime} (prompt : string) : prog (decision * json) :=
  let prompt_lower := str_lower prompt in
  let matched := matched_keywords prompt_lower in
  match matched with
  | _ :: _ => mret (search, JStr (keyword_reason matched))
  | [] =>
      answer ← trigger (LLMGenerate prompt);
      match answer ≫= parse_llm_response with
      | Ok (Some classified) => mret classified
      | Ok None => mret default_classification
      | Raise _ => mret default_classification
      end
  end.

(** *** Stock adapters

    What the Pexels and Pixabay requests deliver is summarised by the fields
    the adapters read from each hit; any failure inside the [try] block (the
    request, the decoding, a missing field, a rejected candidate) is an
    exception, and the adapter answers the empty list. *)

Record pexels_photo : Type := {
  src_large : string;               (* photo["src"]["large"] *)
  src_medium : string;              (* photo["src"]["medium"] *)
  photographer : option string;     (* photo.get('photographer', 'Unknown') *)
  alt : option string               (* photo.get("alt", "") *)
}.

Record pixabay_hit : Type := {
  largeImageURL : string;
  previewURL : string;
  user : option string;             (* hit.get('user', 'Unknown') *)
  tags : option string              (* hit.get("tags", "") *)
}.

(** [if not api_key] *)
Definition missing_key (api_key : option string) : bool :=
  match api_key with
  | None => true
  | Some key => String.eqb key ""
  end.

Definition search_pexels_multiple (api_key : option string)
    (photos : outcome (list pexels_photo)) : list ImageAlternative :=
  if missing_key api_key then []
  else
    try_except
      (photos ← photos;
       mret (map (fun photo =>
                    {| url := src_large photo;
                       thumbnail_url := Some (src_medium photo);
                       source := "pexels";
                       attribution :=
                         Some ("Photo by " ++ default "Unknown" (photographer photo)
                               ++ " on Pexels")%string;
                       description := Some (default "" (alt photo)) |})
                 photos))
      (fun _ => []).

Definition search_pixabay_multiple (api_key : option string)
    (hits : outcome (list pixabay_hit)) : list ImageAlternative :=
  if missing_key api_key then []
  else
    try_except
      (hits ← hits;
       mret (map (fun hit =>
                    {| url := largeImageURL hit;
                       thumbnail_url := Some (previewURL hit);
                       source := "pixabay";
                       attribution :=
                         Some ("Photo by " ++ default "Unknown" (user hit)
                               ++ " on Pixabay")%string;
                       description := Some (default "" (tags hit)) |})
                 hits))
      (fun _ => []).

(** *** Aggregator *)

Definition from_unsplash (img : UnsplashImage) : ImageAlternative :=
  {| url := u_url img;
     thumbnail_url := Some (u_thumbnail_url img);
     source := "unsplash";
     attribution := Some (u_attribution img);
     description := u_description img |}.

Definition from_wikimedia (img : WikimediaImage) : ImageAlternative :=
  {| url := w_url img;
     thumbnail_url := Some (w_thumbnail_url img);
     source := "wikimedia";
     attribution := Some (w_attribution img);
     description := w_description img |}.

(** [if isinstance(results[k], list): ...]: an exception in a slot
    contributes nothing. *)
Definition slot {A} (r : outcome (list A)) : list A :=
  match r with
  | Ok l => l
  | Raise _ => []
  end.

Definition collect (r : gather_results) : list ImageAlternative :=
  map from_unsplash (slot (r_unsplash r)) ++
  map from_wikimedia (slot (r_wikimedia r)) ++
  slot (r_pexels r) ++
  slot (r_pixabay r).

(** [by_source[img.source].append(img)], creating the list on first use. *)
Definition group_step (by_source : gmap string (list ImageAlternative))
    (img : ImageAlternative) : gmap string (list ImageAlternative) :=
  match by_source !! source img with
  | Some l => <[source img := l ++ [img]]> by_source
  | None => <[source img := [img]]> by_source
  end.

Definition group_by_source (all_images : list ImageAlternative)
  : gmap string (list ImageAlternative) :=
  foldl group_step ∅ all_images.

(** [max(len(v) for v in by_source.values()) if by_source else 0] *)
Definition max_len (by_source : gmap string (list ImageAlternative)) : nat :=
  map_fold (fun _ v acc => Nat.max (length v) acc) 0%nat by_source.

Definition source_order : list string := ["unsplash"; "pexels"; "wikimedia"; "pixabay"].

(** [if source in by_source and i < len(by_source[source])] *)
Definition pick (by_source : gmap string (list ImageAlternative)) (i : nat)
    (src : string) : list ImageAlternative :=
  match by_source !! src with
  | Some l => match l !! i with
              | Some img => [img]
              | None => []
              end
  | None => []
  end.

Definition interleave (by_source : gmap string (list ImageAlternative))
  : list ImageAlternative :=
  flat_map (fun i => flat_map (pick by_source i) source_order)
           (seq 0 (max_len by_source)).

(** The list built before [interleaved[:10]]. *)
Definition interleaved (r : gather_results) : list ImageAlternative :=
  interleave (group_by_source (collect r)).

(** The function body after [await asyncio.gather(...)]. *)
Definition search_multiple_sources (r : gather_results) : list ImageAlternative :=
  firstn 10 (interleaved r).

(** *** Entry point *)

Definition ai_image (location prompt : string) : ImageAlternative :=
  {| url := location;
     thumbnail_url := None;
     source := "ai";
     attribution := Some "AI Generated";
     description := Some prompt |}.

Definition placeholder_image : ImageAlternative :=
  {| url := "/static/images/placeholder.jpg";
     thumbnail_url := None;
     source := "placeholder";
     attribution := Some "Placeholder";
     description := Some "Image generation failed" |}.

(** The [try ... except Exception] around the call of [generate_image]: a
    string or an asset becomes an "ai" candidate, an exception the
    placeholder candidate. *)
Definition images_of_generation (prompt : string)
    (r : outcome ImageGenerationService.gen_result) : list ImageAlternative :=
  match r with
  | Ok (ImageGenerationService.ResultStr s) => [ai_image s prompt]
  | Ok (ImageGenerationService.ResultAsset a) =>
      [ai_image (ImageGenerationService.path a) prompt]
  | Raise _ => [placeholder_image]
  end.

Definition get_adaptive_image `{Runtime} (gen : ImageGenerationService.service)
    (prompt language : string) : prog AdaptiveImageResponse :=
  '(d, reason) ← decide_image_source prompt;
  '(d, reason, found) ←
    match d with
    | search =>
        r ← trigger (Gather prompt 2);
        let found := search_multiple_sources r in
        match found with
        | [] => mret (generate,
                      JStr "Search returned no results, falling back to AI generation",
                      found)
        | _ :: _ => mret (d, reason, found)
        end
    | generate => mret (d, reason, [])
    end;
  match d with
  | generate =>
      let image_prompt :=
        {| prompt := prompt; theme_prompt := None; language := language |} in
      r ← ImageGenerationService.generate_image gen image_prompt;
      mret {| resp_decision := d; resp_reason := reason;
              images := images_of_generation prompt r |}
  | search =>
      mret {| resp_decision := d; resp_reason := reason; images := found |}
  end.

End AdaptiveImageService.

Import AdaptiveImageService.

(** ** Vocabulary of the statements *)

(** *** Classifier *)

(** A language-model answer from which no classification can be read: the
    call raised, produced no text, the text holds no brace-delimited
    fragment, or the fragment does not decode to an object. *)
Inductive unusable_answer `{Runtime} : outcome (option string) -> Prop :=
| call_raised e : unusable_answer (Raise e)
| no_text : unusable_answer (Ok None)
| no_fragment text :
    re_search_object text = None -> unusable_answer (Ok (Some text))
| undecodable text fragment e :
    re_search_object text = Some fragment ->
    json_loads fragment = Raise e ->
    unusable_answer (Ok (Some text))
| not_an_object text fragment v :
    re_search_object text = Some fragment ->
    json_loads fragment = Ok v ->
    (forall fields, v <> JObj fields) ->
    unusable_answer (Ok (Some text)).

(** The double-quote character, for building JSON text. *)
Definition dq : string := String (ascii_of_nat 34) EmptyString.

(** [{"decision":"generate","reason":"art"}] *)
Definition sample_generate_text : string :=
  ("{" ++ dq ++ "decision" ++ dq ++ ":" ++ dq ++ "generate" ++ dq ++ "," ++
   dq ++ "reason" ++ dq ++ ":" ++ dq ++ "art" ++ dq ++ "}")%string.

(** [{"decision":"maybe","reason":"unsure"}] *)
Definition sample_maybe_text : string :=
  ("{" ++ dq ++ "decision" ++ dq ++ ":" ++ dq ++ "maybe" ++ dq ++ "," ++
   dq ++ "reason" ++ dq ++ ":" ++ dq ++ "unsure" ++ dq ++ "}")%string.

(** A runtime for evaluating examples: ASCII lower-casing and a decoder that
    knows the two sample documents and rejects everything else. *)
Definition sample_loads (s : string) : outcome json :=
  if String.eqb s sample_generate_text
  then Ok (JObj [("decision", JStr "generate"); ("reason", JStr "art")])
  else if String.eqb s sample_maybe_text
  then Ok (JObj [("decision", JStr "maybe"); ("reason", JStr "unsure")])
  else Raise (External "JSONDecodeError").

Definition sample_runtime : Runtime :=
  {| str_lower := lower_ascii; json_loads := sample_loads |}.

(** An environment in which the language model answers [answer], no search
    adapter finds anything and the generation backend raises. *)
Definition barren (answer : outcome (option string)) : handler :=
  fun X e =>
    match e in eff X return X with
    | LLMGenerate _ => answer
    | Gather _ _ =>
        {| r_unsplash := Ok []; r_wikimedia := Ok [];
           r_pexels := Ok []; r_pixabay := Raise (External "timeout") |}
    | AgentSearch _ _ => []
    | ImageGen _ _ _ => Raise (External "backend unavailable")
    | PathExists _ => false
    end.

(** *** Aggregator *)

Definition has_source (s : string) (img : ImageAlternative) : bool :=
  String.eqb (source img) s.

(** Round-robin reading of a list of rows: round [i] takes the [i]-th entry
    of every row that has one, rows in order. *)
Definition round {A} (rows : list (list A)) (i : nat) : list A :=
  flat_map (fun row : list A => option_list (row !! i)) rows.

Definition rounds {A} (rows : list (list A)) (n : nat) : list A :=
  flat_map (round rows) (seq 0 n).

Inductive adapter : Type := Unsplash | Wikimedia | Pexels | Pixabay.

(** The candidates an adapter contributed: its list, converted the way the
    aggregator converts it, or nothing when the adapter raised. *)
Definition candidates (a : adapter) (r : gather_results) : list ImageAlternative :=
  match a with
  | Unsplash => map from_unsplash (slot (r_unsplash r))
  | Wikimedia => map from_wikimedia (slot (r_wikimedia r))
  | Pexels => slot (r_pexels r)
  | Pixabay => slot (r_pixabay r)
  end.


(** [search_pexels_multiple] and [search_pixabay_multiple] build every
    candidate with their own fixed [source]. *)
Definition well_tagged (r : gather_results) : Prop :=
  Forall (fun img => source img = "pexels") (slot (r_pexels r)) /\
  Forall (fun img => source img = "pixabay") (slot (r_pixabay r)).

Definition sample_unsplash (name : string) : UnsplashImage :=
  {| u_id := name; u_url := name; u_thumbnail_url := name;
     u_description := None; u_photographer := "Unknown";
     u_photographer_url := ""; u_source := "unsplash";
     u_attribution := "Photo by Unknown on Unsplash" |}.

Definition sample_stock (tag name : string) : ImageAlternative :=
  {| url := name; thumbnail_url := Some name; source := tag;
     attribution := None; description := Some "" |}.

(** Unsplash returns five candidates, Pexels one, Wikimedia raises, Pixabay
    finds nothing. *)
Definition sample_results : gather_results :=
  {| r_unsplash := Ok (map sample_unsplash ["u1"; "u2"; "u3"; "u4"; "u5"]);
     r_wikimedia := Raise (External "timeout");
     r_pexels := Ok [sample_stock "pexels" "p1"];
     r_pixabay := Ok [] |}.


(** *** Theme composition and the entry points *)

(** The queries passed to the four search adapters. *)
Definition gather_queries (t : list event) : list string :=
  flat_map (fun ev => match ev with
                      | Ev (Gather q _) _ => [q]
                      | Ev _ _ => []
                      end) t.

Definition no_provider : ImageGenerationService.provider_env :=
  {| ImageGenerationService.image_generation_disabled := false;
     ImageGenerationService.pixabay_selected := false;
     ImageGenerationService.pixels_selected := false;
     ImageGenerationService.gemini_flash_selected := false;
     ImageGenerationService.nanobanana_pro_selected := false;
     ImageGenerationService.dalle3_selected := false;
     ImageGenerationService.gpt_image_1_5_selected := false;
     ImageGenerationService.comfyui_selected := false |}.

(** DALL-E 3 is the selected generation backend. *)
Definition dalle3_env : ImageGenerationService.provider_env :=
  {| ImageGenerationService.image_generation_disabled := false;
     ImageGenerationService.pixabay_selected := false;
     ImageGenerationService.pixels_selected := false;
     ImageGenerationService.gemini_flash_selected := false;
     ImageGenerationService.nanobanana_pro_selected := false;
     ImageGenerationService.dalle3_selected := true;
     ImageGenerationService.gpt_image_1_5_selected := false;
     ImageGenerationService.comfyui_selected := false |}.

(** Pexels (a stock provider) is selected. *)
Definition pexels_env : ImageGenerationService.provider_env :=
  {| ImageGenerationService.image_generation_disabled := false;
     ImageGenerationService.pixabay_selected := false;
     ImageGenerationService.pixels_selected := true;
     ImageGenerationService.gemini_flash_selected := false;
     ImageGenerationService.nanobanana_pro_selected := false;
     ImageGenerationService.dalle3_selected := false;
     ImageGenerationService.gpt_image_1_5_selected := false;
     ImageGenerationService.comfyui_selected := false |}.

Definition themed_prompt : ImagePrompt :=
  {| prompt := "cat"; theme_prompt := Some "watercolor"; language := "English" |}.

(** Every search adapter comes back empty-handed or raises, and the selected
    generation backend raises. *)
Definition nothing_works : handler := barren (Raise (External "rate limited")).

(** *** Workflow prompt injection *)

(** A node the loop can inspect without a dynamic-typing failure: an object
    whose [_meta], when present, is an object whose [title], when present, is
    a string, and whose [inputs], when present, is an object. *)
Definition well_formed_node (node : json) : bool :=
  match node with
  | JObj fields =>
      match assoc "_meta" fields with
      | None => true
      | Some (JObj meta) =>
          match assoc "title" meta with
          | None | Some (JStr _) => true
          | Some _ => false
          end
      | Some _ => false
      end &&
      match assoc "inputs" fields with
      | None | Some (JObj _) => true
      | Some _ => false
      end
  | _ => false
  end.

(** The declared title of a node, the empty string when none is declared. *)
Definition declared_title (node : json) : string :=
  match node with
  | JObj fields =>
      match assoc "_meta" fields with
      | Some (JObj meta) =>
          match assoc "title" meta with
          | Some (JStr title) => title
          | _ => ""
          end
      | _ => ""
      end
  | _ => ""
  end.

(** The title equals "Input Prompt" up to case. *)
Definition titled_input_prompt `{Runtime} (node : json) : bool :=
  String.eqb (str_lower (declared_title node)) "input prompt".

(** The node has an [inputs] object with a [text] entry. *)
Definition has_text_input (node : json) : bool :=
  match node with
  | JObj fields =>
      match assoc "inputs" fields with
      | Some (JObj inputs) =>
          match assoc "text" inputs with Some _ => true | None => false end
      | _ => false
      end
  | _ => false
  end.

Definition injectable `{Runtime} (node : json) : bool :=
  titled_input_prompt node && has_text_input node.

(** The node with the [text] entry of its [inputs] replaced. *)
Definition write_text (prompt : string) (node : json) : json :=
  match node with
  | JObj fields =>
      match assoc "inputs" fields with
      | Some (JObj inputs) =>
          JObj (assoc_set "inputs" (JObj (assoc_set "text" (JStr prompt) inputs)) fields)
      | _ => node
      end
  | _ => node
  end.

Definition sampler_node : json :=
  JObj [("class_type", JStr "KSampler");
        ("_meta", JObj [("title", JStr "KSampler")]);
        ("inputs", JObj [("seed", JNum 7); ("steps", JNum 20)])].

Definition prompt_node (text : string) : json :=
  JObj [("class_type", JStr "CLIPTextEncode");
        ("_meta", JObj [("title", JStr "Input Prompt")]);
        ("inputs", JObj [("text", JStr text); ("clip", JArr [JStr "4"; JNum 1])])].

Definition sample_workflow : list (string * json) :=
  [("3", sampler_node); ("6", prompt_node "old prompt"); ("9", prompt_node "other")].

(** A workflow whose only node titled "Input Prompt" has no [text] input. *)
Definition untexted_workflow : list (string * json) :=
  [("6", JObj [("class_type", JStr "PrimitiveNode");
               ("_meta", JObj [("title", JStr "Input Prompt")]);
               ("inputs", JObj [("value", JStr "old prompt")])])].

(** *** Job poller *)

(** The entry a history document holds for a job. *)
Definition entry_of (prompt_id : string) (document : json) : option json :=
  match document with
  | JObj top => assoc prompt_id top
  | _ => None
  end.

(** The explicit flag: [status.completed] present and truthy. *)
Definition completed_flag (status_fields : list (string * json)) : bool :=
  match assoc "completed" status_fields with
  | Some v => truthy v
  | None => false
  end.

(** "A poll response is complete if either an explicit status flag is set or
    a non-empty outputs map is present for the job id." *)
Definition reports_completion (prompt_id : string) (document : json) : bool :=
  match entry_of prompt_id document with
  | Some (JObj entry) =>
      match assoc "status" entry with
      | Some (JObj st) => completed_flag st
      | _ => false
      end ||
      match assoc "outputs" entry with
      | Some (JObj (_ :: _)) => true
      | _ => false
      end
  | _ => false
  end.

Definition step_reports_completion (prompt_id : string) (st : ImageGenerationService.poll_step) : bool :=
  match ImageGenerationService.get_result st with
  | ImageGenerationService.Responded response =>
      match ImageGenerationService.body response with
      | Some document => reports_completion prompt_id document
      | None => false
      end
  | ImageGenerationService.ClientError _ => false
  end.

(** An entry that says neither "done" nor "failed": an object whose status,
    when present, is an object without a truthy [completed] and without an
    [error], and whose outputs, when present, are falsy. *)
Definition quiet_entry (entry : json) : bool :=
  match entry with
  | JObj fields =>
      match assoc "status" fields with
      | None => true
      | Some (JObj st) =>
          negb (completed_flag st) &&
          match assoc "error" st with None => true | Some _ => false end
      | Some _ => false
      end &&
      match assoc "outputs" fields with
      | None => true
      | Some outputs => negb (truthy outputs)
      end
  | _ => false
  end.

Definition quiet_document (prompt_id : string) (document : json) : bool :=
  match document with
  | JObj top =>
      match assoc prompt_id top with
      | None => true
      | Some entry => quiet_entry entry
      end
  | _ => false
  end.

(** An exchange after which the loop goes round again: a response that is
    not a 200, or whose body does not decode, or whose document is quiet. *)
Definition quiet_step (prompt_id : string) (st : ImageGenerationService.poll_step) : bool :=
  match ImageGenerationService.get_result st with
  | ImageGenerationService.ClientError _ => false
  | ImageGenerationService.Responded response =>
      if ImageGenerationService.status response =? 200 then
        match ImageGenerationService.body response with
        | None => true
        | Some document => quiet_document prompt_id document
        end
      else true
  end.

Definition exchange (code : Z) (document : option json) : ImageGenerationService.poll_step :=
  {| ImageGenerationService.sleep_overshoot := 0;
     ImageGenerationService.get_duration := 1;
     ImageGenerationService.get_result :=
       ImageGenerationService.Responded
         {| ImageGenerationService.status := code;
            ImageGenerationService.body := document |} |}.

(** The backend answers 502, then garbage, then "still running", for ever. *)
Definition stalled_world (i : nat) : ImageGenerationService.poll_step :=
  match (i mod 3)%nat with
  | 0%nat => exchange 502 None
  | 1%nat => exchange 200 None
  | _ => exchange 200
           (Some (JObj [("job-1", JObj [("status", JObj [("completed", JBool false)]);
                                        ("outputs", JObj [])])]))
  end.

(** The job failed: the status carries an error and no completion flag. *)
Definition failed_document : json :=
  JObj [("job-1", JObj [("status", JObj [("status_str", JStr "error");
                                         ("completed", JBool false);
                                         ("error", JStr "out of memory")])])].

Definition failed_world (i : nat) : ImageGenerationService.poll_step :=
  exchange 200 (Some failed_document).

(** Outputs are present, no completion flag is. *)
Definition outputs_only_document : json :=
  JObj [("job-1", JObj [("outputs",
                         JObj [("9", JObj [("images", JArr [JObj [("filename", JStr "a.png")]])])])])].

(** Outputs are present and the status carries an error. *)
Definition outputs_and_error_document : json :=
  JObj [("job-1", JObj [("status", JObj [("error", JStr "node 7 failed")]);
                        ("outputs",
                         JObj [("9", JObj [("images", JArr [JObj [("filename", JStr "a.png")]])])])])].

(** The entry for the job carries a non-empty outputs map. *)
Definition has_nonempty_outputs (prompt_id : string) (document : json) : bool :=
  match entry_of prompt_id document with
  | Some (JObj entry) =>
      match assoc "outputs" entry with
      | Some (JObj (_ :: _)) => true
      | _ => false
      end
  | _ => false
  end.

(** ** Proof automation *)

(** Case analysis on every value the document check inspects. *)
Ltac inspect_document :=
  repeat first
    [ discriminate
    | progress cbn [mbind outcome_bind obind mret outcome_ret]
    | match goal with
      | |- context [match ?x with _ => _ end] => destruct x
      end ].


(** ** Further vocabulary *)

Import ImageGenerationService.

(** The character occurs in the string. *)
Fixpoint has_char (c : ascii) (s : string) : bool :=
  match s with
  | EmptyString => false
  | String a rest => Ascii.eqb a c || has_char c rest
  end.

(** The generation functions that take the prompt only ([get_image_from_pexels]
    and [get_image_from_pixabay]); the others also take the output directory. *)
Definition is_stock_func (f : gen_func) : bool :=
  match f with
  | get_image_from_pixabay | get_image_from_pexels => true
  | _ => false
  end.

(** The output-directory argument of every call of a generation function. *)
Definition gen_directories (t : list event) : list (gen_func * option string) :=
  flat_map (fun ev => match ev with
                      | Ev (ImageGen f _ dir) _ => [(f, dir)]
                      | Ev _ _ => []
                      end) t.

(** The prompts the language model was asked about. *)
Definition llm_prompts (t : list event) : list string :=
  flat_map (fun ev => match ev with
                      | Ev (LLMGenerate p) _ => [p]
                      | Ev _ _ => []
                      end) t.

(** No provider switch is set. *)
Definition nothing_selected (e : provider_env) : bool :=
  negb (pixabay_selected e || pixels_selected e || gemini_flash_selected e ||
        nanobanana_pro_selected e || dalle3_selected e ||
        gpt_image_1_5_selected e || comfyui_selected e).

(** The language model answers with the sample "generate" document wrapped
    in prose; the rest of the world is barren. *)
Definition says_generate : handler :=
  barren (Ok (Some ("Here you go: " ++ sample_generate_text ++ " Hope it helps.")%string)).


(** ** [search_via_openai_agent] and its search helpers *)

Module OpenAIAgent.

(** The search helpers the agent path can fall back on.  Each of them
    catches its own exceptions and answers a list of URLs. *)
Inductive provider : Type :=
| via_brave          (* _search_brave_images(search_query, language=language) *)
| via_wikimedia      (* _search_wikimedia_images(fallback_query, count=5) *)
| via_pexels         (* _search_pexels_images(search_query_en or search_query, count=5) *)
| via_unsplash       (* _search_unsplash_images(...) *)
| via_pixabay        (* _search_pixabay_images(...) *)
| via_duckduckgo.    (* _search_duckduckgo_images(..., language=language) *)

(** A call of a helper: which one, with which query. *)
Definition call : Type := provider * json.

(** What the function did and answered: whether the agent was contacted,
    the helper calls in order, the URLs returned. *)
Record agent_run : Type := {
  posted : bool;
  calls : list call;
  urls : list string
}.

Definition silent : agent_run := {| posted := false; calls := []; urls := [] |}.
Definition nothing_found : agent_run := {| posted := true; calls := []; urls := [] |}.

(** [a or b] *)
Definition py_or (a b : json) : json := if truthy a then a else b.

Section Chain.

(** [str.strip] *)
Variable strip : string -> string.

(** The answers of the helpers. *)
Variable world : provider -> json -> list string.

(** [search_query_en if isinstance(search_query_en, str) and
    search_query_en.strip() else search_query] *)
Definition fallback_query (search_query search_query_en : json) : json :=
  match search_query_en with
  | JStr s => if String.eqb (strip s) "" then search_query else search_query_en
  | _ => search_query
  end.

(** [if not urls: urls = await helper(query)] *)
Definition or_else (p : provider) (q : json) (acc : list call * list string)
  : list call * list string :=
  match snd acc with
  | [] => (fst acc ++ [(p, q)], world p q)
  | _ :: _ => acc
  end.

(** The helpers in the order the code consults them, each with the query
    it would receive. *)
Definition plan (search_query search_query_en : json) : list call :=
  [ (via_brave, search_query);
    (via_wikimedia, fallback_query search_query search_query_en);
    (via_pexels, py_or search_query_en search_query);
    (via_unsplash, py_or search_query_en search_query);
    (via_pixabay, py_or search_query_en search_query);
    (via_duckduckgo, py_or search_query_en search_query) ].

Definition search_chain (search_query search_query_en : json)
  : list call * list string :=
  let q_en := py_or search_query_en search_query in
  let after_brave := ([(via_brave, search_query)], world via_brave search_query) in
  or_else via_duckduckgo q_en
    (or_else via_pixabay q_en
       (or_else via_unsplash q_en
          (or_else via_pexels q_en
             (or_else via_wikimedia (fallback_query search_query search_query_en)
                after_brave)))).

(** The part of the function that runs once the agent has answered with
    status 200 and a decoded document. *)
Definition act_on (data : json) : outcome agent_run :=
  action ← py_get "action" JNull data;
  search_query ← py_get "search_query" JNull data;
  search_query_en ← py_get "search_query_en" JNull data;
  if is_str "generate" action then mret nothing_found
  else if is_str "search" action then
    if truthy search_query then
      let '(made, found) := search_chain search_query search_query_en in
      mret {| posted := true; calls := made; urls := found |}
    else mret nothing_found
  else mret nothing_found.

(** [reply] is what the POST to the agent produced: an exception, or a
    status and the outcome of decoding the body. *)
Definition search_via_openai_agent (reply : outcome (Z * outcome json)) : agent_run :=
  try_except
    (r ← reply;
     let '(code, decoded) := r in
     if code =? 200 then data ← decoded; act_on data
     else mret nothing_found)
    (fun _ => nothing_found).

(** [ImageGenerationService.search_multiple_sources]: without a configured
    agent URL nothing is contacted. *)
Definition search_multiple_sources (agent_url : option string)
    (reply : outcome (Z * outcome json)) : agent_run :=
  match agent_url with
  | None => silent
  | Some url => if String.eqb url "" then silent else search_via_openai_agent reply
  end.

End Chain.

(** A world in which only Pexels and Pixabay find something. *)
Definition stock_only_world (p : provider) (q : json) : list string :=
  match p with
  | via_pexels => ["https://images.pexels.com/1.jpg"]
  | via_pixabay => ["https://pixabay.com/2.jpg"]
  | _ => []
  end.

Definition search_reply (query query_en : json) : outcome (Z * outcome json) :=
  Ok (200, Ok (JObj [("action", JStr "search");
                     ("search_query", query);
                     ("search_query_en", query_en)])).

End OpenAIAgent.

(** ** Locale selection of the Brave and DuckDuckGo helpers *)

Module Locale.

Section Normalised.

Context `{Runtime}.

(** [str.strip] *)
Variable strip : string -> string.

(** [(language or "").strip().lower()] *)
Definition normalize (language : option string) : string :=
  str_lower (strip (match language with Some l => l | None => "" end)).

Definition looks_russian (l : string) : bool :=
  contains "russian" l || contains "рус" l || starts_with "ru" l.

Definition looks_kazakh (l : string) : bool :=
  contains "kazakh" l || contains "қаз" l || contains "қазақ" l || starts_with "kk" l.

Record brave_params : Type := {
  country : string;
  search_lang : string;
  ui_lang : string
}.

Definition _brave_search_language_params (language : option string) : brave_params :=
  let language_normalized := normalize language in
  if looks_russian language_normalized
  then {| country := "RU"; search_lang := "ru"; ui_lang := "ru-RU" |}
  else if looks_kazakh language_normalized
  then {| country := "KZ"; search_lang := "kk"; ui_lang := "kk-KZ" |}
  else {| country := "US"; search_lang := "en"; ui_lang := "en-US" |}.

Definition _duckduckgo_region (language : option string) : string :=
  let language_normalized := normalize language in
  if looks_russian language_normalized then "ru-ru"
  else if looks_kazakh language_normalized then "kz-ru"
  else "us-en".

End Normalised.

(** [str.strip] for the ASCII space, enough to evaluate examples. *)
Fixpoint lstrip_spaces (s : string) : string :=
  match s with
  | String c rest => if Ascii.eqb c " " then lstrip_spaces rest else s
  | EmptyString => EmptyString
  end.

End Locale.

(** ** URL helpers of the generation service *)

Module UrlHelpers.

(** What an HTTP GET produced: an exception, or a status and the outcome of
    decoding the JSON body. *)
Definition reply : Type := outcome (Z * outcome json).

(** [for x in v]: lists yield their items, dicts their keys, strings their
    characters (bytes here; the loops below skip every string); anything
    else is not iterable. *)
Fixpoint chars (s : string) : list json :=
  match s with
  | EmptyString => []
  | String c rest => JStr (String c EmptyString) :: chars rest
  end.

Definition py_iter (v : json) : outcome (list json) :=
  match v with
  | JArr items => Ok items
  | JObj fields => Ok (map (fun kv => JStr (fst kv)) fields)
  | JStr s => Ok (chars s)
  | _ => Raise PyTypeError
  end.

(** [a or b] *)
Definition py_or (a b : json) : json := if truthy a then a else b.

(** [if isinstance(url, str) and url: urls.append(url)] *)
Definition keep_url (url : json) : list string :=
  match url with
  | JStr s => if String.eqb s "" then [] else [s]
  | _ => []
  end.

(** One iteration of the loop of [_search_pexels_images]. *)
Definition pexels_url (photo : json) : outcome (list string) :=
  match photo with
  | JObj _ =>
      src ← py_get "src" JNull photo;
      match py_or src (JObj []) with
      | JObj src_fields =>
          large ← py_get "large" JNull (JObj src_fields);
          original ← py_get "original" JNull (JObj src_fields);
          mret (keep_url (py_or large original))
      | _ => mret []
      end
  | _ => mret []
  end.

(** One iteration of the loop of [_search_pixabay_images]. *)
Definition pixabay_url (hit : json) : outcome (list string) :=
  match hit with
  | JObj _ =>
      url ← py_get "largeImageURL" JNull hit;
      mret (keep_url url)
  | _ => mret []
  end.

Fixpoint collect_urls (one : json -> outcome (list string)) (items : list json)
  : outcome (list string) :=
  match items with
  | [] => mret []
  | item :: rest =>
      here ← one item;
      later ← collect_urls one rest;
      mret (here ++ later)
  end.

(** The body shared by the two helpers: no key, no request; any status
    other than 200, any exception, the empty list. *)
Definition stock_urls (list_key : string) (one : json -> outcome (list string))
    (api_key : option string) (r : reply) : list string :=
  if missing_key api_key then []
  else
    try_except
      (got ← r;
       let '(code, decoded) := got in
       if negb (code =? 200) then mret []
       else
         data ← decoded;
         listed ← py_get list_key (JArr []) data;
         items ← py_iter (py_or listed (JArr []));
         collect_urls one items)
      (fun _ => []).

Definition _search_pexels_images : option string -> reply -> list string :=
  stock_urls "photos" pexels_url.

Definition _search_pixabay_images : option string -> reply -> list string :=
  stock_urls "hits" pixabay_url.

(** The [large] URL of a Pexels photo or, when that is missing or falsy, its
    [original] URL. *)
Definition pexels_choice (photo : json) : option json :=
  match photo with
  | JObj fields =>
      match assoc "src" fields with
      | Some (JObj src) =>
          match assoc "large" src with
          | Some large =>
              if truthy large then Some large
              else assoc "original" src
          | None => assoc "original" src
          end
      | _ => None
      end
  | _ => None
  end.

Definition sample_photos_reply : reply :=
  Ok (200, Ok (JObj [("photos",
    JArr [ JObj [("src", JObj [("large", JStr "https://p/1-large.jpg");
                               ("original", JStr "https://p/1.jpg")])];
           JStr "noise";
           JObj [("src", JObj [("large", JStr "");
                               ("original", JStr "https://p/2.jpg")])];
           JObj [("src", JNull)];
           JObj [("src", JObj [("large", JNum 3)])] ])])).

Definition sample_hits_reply : reply :=
  Ok (200%Z, Ok (JObj [("hits",
    JArr [JObj [("largeImageURL", JStr "https://x/1.jpg")];
          JObj [("largeImageURL", JStr "")];
          JStr "skipped"])])).

End UrlHelpers.

(** ** Brave image search *)

Module Brave.

Import UrlHelpers.

(** [s.endswith(suffix)] *)
Fixpoint ends_with (suffix s : string) : bool :=
  if String.eqb suffix s then true
  else match s with
       | EmptyString => false
       | String _ rest => ends_with suffix rest
       end.

Section Picking.

Context `{Runtime}.

(** [urlparse(url).path] *)
Variable url_path : string -> outcome string.

Definition image_suffixes : list string :=
  [".jpg"; ".jpeg"; ".png"; ".webp"; ".gif"; ".bmp"; ".tiff"; ".svg"].

Definition _looks_like_image_url (url : string) : bool :=
  try_except
    (parsed ← url_path url;
     let path := str_lower parsed in
     mret (existsb (fun ext => ends_with ext path) image_suffixes
           || contains "/wp-content/uploads/" path
           || contains "/images/" path))
    (fun _ => false).

(** [v = d.get(k)] followed by [if isinstance(v, str): candidates.append(v)] *)
Definition str_entry (k : string) (fields : list (string * json)) : list string :=
  match assoc k fields with
  | Some (JStr v) => [v]
  | _ => []
  end.

(** The same one level down: [d.get(outer)] must be a dict. *)
Definition nested_entry (outer inner : string) (fields : list (string * json))
  : list string :=
  match assoc outer fields with
  | Some (JObj props) => str_entry inner props
  | _ => []
  end.

Definition candidates (r : list (string * json)) : list string :=
  nested_entry "properties" "url" r
  ++ nested_entry "thumbnail" "src" r
  ++ flat_map (fun k => str_entry k r) ["image"; "src"; "url"].

Definition is_http (v : string) : bool := starts_with "http" v.

(** The two passes over the candidates. *)
Definition picked (r : list (string * json)) : option string :=
  match List.find (fun v => is_http v && _looks_like_image_url v) (candidates r) with
  | Some v => Some v
  | None => List.find is_http (candidates r)
  end.

Definition urls_of (item : json) : list string :=
  match item with
  | JObj r => match picked r with Some v => [v] | None => [] end
  | _ => []
  end.

(** [r] is what the GET produced. *)
Definition _search_brave_images (api_key : option string) (r : reply) : list string :=
  if missing_key api_key then []
  else
    try_except
      (got ← r;
       let '(code, decoded) := got in
       if code =? 200 then
         data ← decoded;
         listed ← py_get "results" JNull data;
         items ← py_iter (py_or listed (JArr []));
         mret (flat_map urls_of items)
       else mret [])
      (fun _ => []).

(** A listed result that offers at least one http(s) candidate. *)
Definition offers_http (item : json) : bool :=
  match item with
  | JObj r => existsb is_http (candidates r)
  | _ => false
  end.

End Picking.

(** [urlparse(url).path] for URLs without query or fragment: everything from
    the first slash after the authority. *)
Fixpoint from_slash (s : string) : string :=
  match s with
  | EmptyString => EmptyString
  | String c rest => if Ascii.eqb c "/" then s else from_slash rest
  end.

Definition sample_url_path (url : string) : outcome string :=
  match url with
  | String "h" (String "t" (String "t" (String "p" (String "s"
      (String ":" (String "/" (String "/" rest))))))) => Ok (from_slash rest)
  | _ => Raise PyTypeError
  end.

Definition sample_results : list json :=
  [JObj [("url", JStr "https://site.example/page");
         ("properties", JObj [("url", JStr "https://cdn.example/a.jpg")])];
   JObj [("url", JStr "https://site.example/other");
         ("thumbnail", JObj [("src", JStr "data:image/png;base64,AAAA")])];
   JObj [("url", JStr "ftp://site.example/c.png")];
   JStr "not a result"].

Definition sample_reply : reply :=
  Ok (200%Z, Ok (JObj [("results", JArr sample_results)])).

End Brave.

(** ** Downloading a ComfyUI image *)

Module ComfyDownload.

Import UrlHelpers.

(** The exceptions [_download_comfyui_image] raises itself, and those that
    reach it from the interpreter or a collaborator. *)
Inductive failure : Type :=
| PromptIdNotFound             (* Exception("Prompt ID not found in status data") *)
| NoOutputs                    (* Exception("No outputs found in ComfyUI response") *)
| DownloadFailed (status : Z)  (* Exception(f"Failed to download image: {response.status}") *)
| NoImages                     (* Exception("No images found in ComfyUI outputs") *)
| Python (e : error).

Inductive attempt : Type :=
| Done (image_path : string)
| Failed (f : failure).

Record view_response : Type := {
  view_status : Z;                       (* response.status *)
  content : outcome (list Byte.byte)     (* await response.read() *)
}.

Record world : Type := {
  (* session.get(f"{comfyui_url}/view", params=params, ...) *)
  view : list (string * json) -> outcome view_response;
  (* str(uuid.uuid4()) *)
  uuid4 : string;
  (* with open(image_path, "wb") as f: f.write(image_data) *)
  write_file : string -> list Byte.byte -> outcome unit
}.

(** What one call did: the GET requests it issued, the files it opened for
    writing with the bytes handed to [write], and how it ended. *)
Record run : Type := {
  requested : list (list (string * json));
  writes : list (string * list Byte.byte);
  ended : attempt
}.

Definition fails (requests : list (list (string * json))) (f : failure) : run :=
  {| requested := requests; writes := []; ended := Failed f |}.

(** [s.split(sep)] for a one-character separator. *)
Fixpoint split_on (sep : ascii) (s : string) : list string :=
  match s with
  | EmptyString => [EmptyString]
  | String c rest =>
      if Ascii.eqb c sep then EmptyString :: split_on sep rest
      else match split_on sep rest with
           | piece :: pieces => String c piece :: pieces
           | [] => [String c EmptyString]
           end
  end.

(** [filename.split(".")[-1] if "." in filename else "png"] *)
Definition extension (filename : json) : outcome string :=
  dotted ← py_in "." filename;
  if (dotted : bool) then
    match filename with
    | JStr s => Ok (List.last (split_on "." s) EmptyString)
    | _ => Raise PyAttributeError
    end
  else Ok "png"%string.

(** [os.path.join(a, b)] on POSIX. *)
Definition os_path_join (a b : string) : string :=
  if starts_with "/" b then b
  else if String.eqb a "" || Brave.ends_with "/" a then (a ++ b)%string
  else (a ++ "/" ++ b)%string.

Definition view_params (filename subfolder : json) : list (string * json) :=
  [("filename", filename); ("type", JStr "output")]
  ++ (if truthy subfolder then [("subfolder", subfolder)] else []).

(** The body of the inner loop: every path through it returns or raises. *)
Definition fetch (w : world) (output_directory : string) (image_info : json) : run :=
  match (filename ← py_getitem "filename" image_info;
         subfolder ← py_get "subfolder" (JStr "") image_info;
         mret (filename, subfolder)) with
  | Raise e => fails [] (Python e)
  | Ok (filename, subfolder) =>
      let params := view_params filename subfolder in
      match view w params with
      | Raise e => fails [params] (Python e)
      | Ok response =>
          if view_status response =? 200 then
            match (image_data ← content response;
                   ext ← extension filename;
                   mret (image_data, ext)) with
            | Raise e => fails [params] (Python e)
            | Ok (image_data, ext) =>
                let image_path :=
                  os_path_join output_directory (uuid4 w ++ "." ++ ext)%string in
                {| requested := [params];
                   writes := [(image_path, image_data)];
                   ended := match write_file w image_path image_data with
                            | Ok _ => Done image_path
                            | Raise e => Failed (Python e)
                            end |}
            end
          else fails [params] (DownloadFailed (view_status response))
      end
  end.

(** [for node_id, node_output in outputs.items()]; the inner loop ends the
    call on its first item, so only an empty [images] list moves on. *)
Fixpoint scan (w : world) (output_directory : string) (nodes : list (string * json))
  : run :=
  match nodes with
  | [] => fails [] NoImages
  | (node_id, node_output) :: rest =>
      match py_in "images" node_output with
      | Raise e => fails [] (Python e)
      | Ok false => scan w output_directory rest
      | Ok true =>
          match (images ← py_getitem "images" node_output; py_iter images) with
          | Raise e => fails [] (Python e)
          | Ok [] => scan w output_directory rest
          | Ok (image_info :: _) => fetch w output_directory image_info
          end
      end
  end.

Definition _download_comfyui_image (w : world) (status_data : json)
    (prompt_id output_directory : string) : run :=
  match py_in prompt_id status_data with
  | Raise e => fails [] (Python e)
  | Ok false => fails [] PromptIdNotFound
  | Ok true =>
      match (entry ← py_getitem prompt_id status_data;
             py_get "outputs" (JObj []) entry) with
      | Raise e => fails [] (Python e)
      | Ok outputs =>
          if negb (truthy outputs) then fails [] NoOutputs
          else match outputs with
               | JObj nodes => scan w output_directory nodes
               | _ => fails [] (Python PyAttributeError)
               end
      end
  end.

(** The image a call asks for: the first item of the first non-empty
    [images] list among the nodes. *)
Fixpoint first_image (nodes : list (string * json)) : option json :=
  match nodes with
  | [] => None
  | (_, JObj node) :: rest =>
      match assoc "images" node with
      | Some (JArr (image_info :: _)) => Some image_info
      | _ => first_image rest
      end
  | _ :: rest => first_image rest
  end.

Definition sample_world : world :=
  {| view := fun _ => Ok {| view_status := 200; content := Ok [] |};
     uuid4 := "0f8fad5b-d9cb-469f-a165-70867728950e";
     write_file := fun _ _ => Ok tt |}.

Definition sample_document : json :=
  JObj [("job-1",
         JObj [("outputs",
                JObj [("3", JObj [("text", JArr [JStr "done"])]);
                      ("8", JObj [("images", JArr [])]);
                      ("9", JObj [("images",
                                   JArr [JObj [("filename", JStr "ComfyUI_0001.final.png");
                                               ("subfolder", JStr "")];
                                         JObj [("filename", JStr "ComfyUI_0002.png")]])])])])].

(** A history entry that is complete by its status flag alone. *)
Definition flag_only_document : json :=
  JObj [("job-1", JObj [("status", JObj [("completed", JBool true)])])].

Definition flag_only_world (i : nat) : poll_step :=
  {| sleep_overshoot := 0; get_duration := 1;
     get_result := Responded {| status := 200; body := Some flag_only_document |} |}.

End ComfyDownload.

(** ** The single-image stock functions *)

Module StockSingle.

Import UrlHelpers.

(** [v[k]] and [v[0]]; [None] stands for whatever the lookup raises. *)
Definition item (k : string) (v : json) : option json :=
  match py_getitem k v with
  | Ok x => Some x
  | Raise _ => None
  end.

Definition item0 (v : json) : option json :=
  match v with
  | JArr (x :: _) => Some x
  | JStr (String c _) => Some (JStr (String c EmptyString))
  | _ => None
  end.

(** [data["photos"][0]["src"]["large"]]; the status of the response is not
    looked at. *)
Definition get_image_from_pexels (r : reply) : option json :=
  match r with
  | Ok (_, Ok data) =>
      photos ← item "photos" data;
      photo ← item0 photos;
      src ← item "src" photo;
      item "large" src
  | _ => None
  end.

(** [data["hits"][0]["largeImageURL"]] *)
Definition get_image_from_pixabay (r : reply) : option json :=
  match r with
  | Ok (_, Ok data) =>
      hits ← item "hits" data;
      hit ← item0 hits;
      item "largeImageURL" hit
  | _ => None
  end.

End StockSingle.

(** ** [api/v1/ppt/endpoints/images.py] *)

Module ImagesEndpoints.

(** What an endpoint body can raise: an [HTTPException], or anything else. *)
Inductive exn : Type :=
| HTTPException (status_code : Z) (detail : string)
| Failure (e : error).

Inductive answer (A : Type) : Type :=
| Returned (a : A)
| Raised (e : exn).
Arguments Returned {A} a.
Arguments Raised {A} e.

Section Endpoints.

(** [str(e)] *)
Variable str : exn -> string.

(** **** [get_image_details] *)

(** [url.split("/")[-1]] *)
Definition filename_of (url : string) : string :=
  List.last (ComfyDownload.split_on "/" url) EmptyString.

(** [scalars] runs the query [path LIKE pattern]; [first()] takes the head
    of the rows. *)
Definition get_image_details (scalars : string -> outcome (list ImageAsset))
    (url : string) : answer ImageAsset :=
  let filename := filename_of url in
  let body :=
    match scalars ("%" ++ filename)%string with
    | Raise e => Raised (Failure e)
    | Ok [] => Raised (HTTPException 404 "Image not found")
    | Ok (image :: _) => Returned image
    end in
  match body with
  | Returned image => Returned image
  | Raised (HTTPException code detail) => Raised (HTTPException code detail)
  | Raised e =>
      Raised (HTTPException 500 ("Failed to retrieve details: " ++ str e)%string)
  end.

(** **** [delete_uploaded_image_by_id] *)

Inductive action : Type :=
| GetRow                         (* await sql_session.get(ImageAsset, id) *)
| RemoveFile (path : string)     (* os.remove(image.path) *)
| DeleteRow                      (* await sql_session.delete(image) *)
| Commit.                        (* await sql_session.commit() *)

Record store : Type := {
  get_row : outcome (option ImageAsset);
  remove_file : string -> outcome unit;
  delete_row : outcome unit;
  commit : outcome unit
}.

(** The [try] block, with the actions it performed. *)
Definition delete_body (s : store) : list action * answer unit :=
  match get_row s with
  | Raise e => ([GetRow], Raised (Failure e))
  | Ok None => ([GetRow], Raised (HTTPException 404 "Image not found"))
  | Ok (Some image) =>
      match remove_file s (path image) with
      | Raise e => ([GetRow; RemoveFile (path image)], Raised (Failure e))
      | Ok _ =>
          match delete_row s with
          | Raise e => ([GetRow; RemoveFile (path image); DeleteRow], Raised (Failure e))
          | Ok _ =>
              match commit s with
              | Raise e =>
                  ([GetRow; RemoveFile (path image); DeleteRow; Commit],
                   Raised (Failure e))
              | Ok _ =>
                  ([GetRow; RemoveFile (path image); DeleteRow; Commit], Returned tt)
              end
          end
      end
  end.

(** [except Exception as e: raise HTTPException(status_code=500, ...)] *)
Definition delete_uploaded_image_by_id (s : store) : list action * answer unit :=
  let '(done, body) := delete_body s in
  (done,
   match body with
   | Returned _ => Returned tt
   | Raised e =>
       Raised (HTTPException 500 ("Failed to delete image: " ++ str e)%string)
   end).

End Endpoints.

Definition status_of {A} (a : answer A) : option Z :=
  match a with
  | Raised (HTTPException code _) => Some code
  | _ => None
  end.

Definition sample_str (e : exn) : string :=
  match e with
  | HTTPException 404 detail => ("404: " ++ detail)%string
  | _ => "error"%string
  end.

Definition sample_asset : ImageAsset :=
  {| path := "/app/images/a.png"; is_uploaded := true;
     extras := GeneratedExtras "a" None |}.

(** A table holding one asset, with [LIKE] reduced to the patterns the
    examples use. *)
Definition sample_scalars (pattern : string) : outcome (list ImageAsset) :=
  if String.eqb pattern "%a.png" then Ok [sample_asset] else Ok [].

Definition empty_store : store :=
  {| get_row := Ok None;
     remove_file := fun _ => Ok tt;
     delete_row := Ok tt;
     commit := Ok tt |}.

End ImagesEndpoints.

(** ** Properties *)

(** *** Classifier: the keyword gate *)



Lemma firstn_In {A} (n : nat) (l : list A) (x : A) :
  In x (firstn n l) -> In x l.
Proof.
  revert l. induction n as [|n IH]; intros [|a l]; simpl; try tauto.
  intros [->|Hin]; [now left | right; now apply IH].
Qed.



(** *** Classifier: the language-model path *)

(** What the classifier returns when no keyword matches, as a function of the
    model's answer. *)
Lemma decide_image_source_llm_path `{Runtime} (prompt : string) (h : handler) :
  matched_keywords (str_lower prompt) = [] ->
  run h (decide_image_source prompt) =
    ([Ev (LLMGenerate prompt) (h _ (LLMGenerate prompt))],
     match h _ (LLMGenerate prompt) ≫= parse_llm_response with
     | Ok (Some classified) => classified
     | _ => default_classification
     end).
Proof.
  intros Hnone. unfold decide_image_source. rewrite Hnone. cbn.
  destruct (h _ (LLMGenerate prompt)) as [[text|]|e]; cbn; try reflexivity.
  destruct (re_search_object text) as [fragment|]; cbn; try reflexivity.
  destruct (json_loads fragment) as [parsed|e]; cbn; try reflexivity.
  destruct parsed; cbn; reflexivity.
Qed.

Lemma unusable_answer_defaults `{Runtime} (answer : outcome (option string)) :
  unusable_answer answer ->
  match answer ≫= parse_llm_response with
  | Ok (Some classified) => classified
  | _ => default_classification
  end = default_classification.
Proof.
  intros Hbad. destruct Hbad as [e | | text Hno | text fragment e Hm Hl | text fragment v Hm Hl Hobj];
    cbn; try reflexivity.
  - rewrite Hno. reflexivity.
  - rewrite Hm. cbn. rewrite Hl. reflexivity.
  - rewrite Hm. cbn. rewrite Hl. cbn.
    destruct v; cbn; try reflexivity. exfalso. eapply Hobj. reflexivity.
Qed.

Lemma coerce_decision_not_generate (fields : list (string * json)) :
  assoc "decision" fields <> Some (JStr "generate") ->
  coerce_decision (match assoc "decision" fields with
                   | Some x => x
                   | None => JStr "search"
                   end) = search.
Proof.
  intros Hne. unfold coerce_decision.
  destruct (assoc "decision" fields) as [d|] eqn:E; [| reflexivity].
  destruct (is_str "generate" d) eqn:Eg; [| destruct (is_str "search" d); reflexivity].
  exfalso. apply Hne. destruct d; cbn in Eg; try discriminate.
  apply String.eqb_eq in Eg. now subst.
Qed.

(** C4. Whatever the prompt, an answer of the language model from which no
    object can be read (the call raised, no text, no brace-delimited fragment,
    a fragment that does not decode, or one that decodes to a non-object)
    leads to the decision [search] with a non-empty reason, which on the
    language-model path is the fixed default sentence.  And when a fragment
    does decode to an object, every decision value other than the string
    [generate] yields [search]. *)
Theorem decide_image_source_unusable_answer `{Runtime} (prompt : string) (h : handler) :
  (unusable_answer (h _ (LLMGenerate prompt)) ->
   exists reason : string,
     snd (run h (decide_image_source prompt)) = (search, JStr reason) /\
     reason <> ""%string /\
     (matched_keywords (str_lower prompt) = [] ->
      reason = "Defaulting to search due to classification error"%string)) /\
  (forall text fragment fields,
     matched_keywords (str_lower prompt) = [] ->
     h _ (LLMGenerate prompt) = Ok (Some text) ->
     re_search_object text = Some fragment ->
     json_loads fragment = Ok (JObj fields) ->
     assoc "decision" fields <> Some (JStr "generate") ->
     fst (snd (run h (decide_image_source prompt))) = search).
Proof.
  split.
  - intros Hbad.
    destruct (matched_keywords (str_lower prompt)) as [|kw rest] eqn:Ematch.
    + exists "Defaulting to search due to classification error"%string.
      rewrite (decide_image_source_llm_path prompt h Ematch). cbn [snd].
      rewrite (unusable_answer_defaults _ Hbad).
      split; [reflexivity | split; [discriminate | reflexivity]].
    + exists (keyword_reason (kw :: rest)).
      unfold decide_image_source. rewrite Ematch. cbn.
      split; [reflexivity | split; [discriminate | discriminate]].
  - intros text fragment fields Hnone Hans Hfrag Hload Hdec.
    rewrite (decide_image_source_llm_path prompt h Hnone). cbn [snd].
    rewrite Hans. cbn. rewrite Hfrag. cbn. rewrite Hload. cbn.
    now rewrite coerce_decision_not_generate.
Qed.

Lemma decide_image_source_unusable_answer_witness :
  (exists reason : string,
     snd (run (barren (Raise (External "connection reset")))
              (@decide_image_source sample_runtime "fantasy dragon castle"))
       = (search, JStr reason) /\
     reason <> ""%string /\
     (matched_keywords (@str_lower sample_runtime "fantasy dragon castle") = [] ->
      reason = "Defaulting to search due to classification error"%string)) /\
  fst (snd (run (barren (Ok (Some ("Sure: " ++ sample_maybe_text)%string)))
                (@decide_image_source sample_runtime "fantasy dragon castle")))
    = search.
Proof.
  split.
  - apply (@decide_image_source_unusable_answer sample_runtime
             "fantasy dragon castle" (barren (Raise (External "connection reset")))).
    cbn. constructor.
  - apply (proj2 (@decide_image_source_unusable_answer sample_runtime
             "fantasy dragon castle"
             (barren (Ok (Some ("Sure: " ++ sample_maybe_text)%string))))
             ("Sure: " ++ sample_maybe_text)%string sample_maybe_text
             [("decision", JStr "maybe"); ("reason", JStr "unsure")]).
    + vm_compute; reflexivity.
    + reflexivity.
    + vm_compute; reflexivity.
    + vm_compute; reflexivity.
    + vm_compute; discriminate.
Defined.

(** *** Aggregator: grouping and interleaving *)

Section Rounds.
Context {A : Type}.
Implicit Types (row : list A) (rows : list (list A)).

Lemma round_cons row rows i :
  round (row :: rows) i = option_list (row !! i) ++ round rows i.
Proof. reflexivity. Qed.

Lemma round_succ rows i : round rows (S i) = round (map (drop 1) rows) i.
Proof.
  unfold round. induction rows as [|row rows IH]; [reflexivity |].
  cbn [flat_map map]. rewrite IH. f_equal.
  destruct row; [now rewrite !lookup_nil | reflexivity].
Qed.

Lemma rounds_succ rows n :
  rounds rows (S n) = round rows 0 ++ rounds (map (drop 1) rows) n.
Proof.
  unfold rounds. cbn [seq flat_map]. f_equal.
  rewrite <- seq_shift, flat_map_concat_map, map_map, <- flat_map_concat_map.
  apply flat_map_ext. intros i. apply round_succ.
Qed.


Lemma heads_tails_perm rows :
  Permutation (round rows 0 ++ concat (map (drop 1) rows)) (concat rows).
Proof.
  induction rows as [|row rows IH]; [constructor |].
  rewrite round_cons. cbn [map concat].
  destruct row as [|x row]; cbn.
  - exact IH.
  - constructor.
    rewrite (Permutation_app_comm (round rows 0)), <- app_assoc.
    apply Permutation_app_head.
    rewrite Permutation_app_comm. exact IH.
Qed.

(** Enough rounds read every entry of every row exactly once. *)
Lemma rounds_perm rows n :
  Forall (fun row => (length row <= n)%nat) rows ->
  Permutation (rounds rows n) (concat rows).
Proof.
  revert rows. induction n as [|n IH]; intros rows Hlen.
  - cbn. induction Hlen as [|row rows Hrow _ IHrows]; [constructor |].
    destruct row; [exact IHrows | cbn in Hrow; lia].
  - rewrite rounds_succ.
    etransitivity; [| apply heads_tails_perm].
    apply Permutation_app_head. apply IH.
    apply List.Forall_map. eapply List.Forall_impl; [| exact Hlen].
    intros row Hrow. cbn beta in *. rewrite length_drop. lia.
Qed.

End Rounds.

Lemma group_step_lookup (m : gmap string (list ImageAlternative))
    (img : ImageAlternative) (s : string) :
  group_step m img !! s =
    if has_source s img then Some (default [] (m !! s) ++ [img]) else m !! s.
Proof.
  unfold group_step, has_source.
  destruct (String.eqb_spec (source img) s) as [<-|Hne].
  - destruct (m !! source img) as [l|]; now rewrite lookup_insert_eq.
  - destruct (m !! source img) as [l|]; now rewrite lookup_insert_ne.
Qed.

(** The dictionary built by the grouping loop holds, under each source that
    occurs, the images of that source in their original order. *)
Lemma group_by_source_lookup (all_images : list ImageAlternative) (s : string) :
  group_by_source all_images !! s =
    match List.filter (has_source s) all_images with
    | [] => None
    | l => Some l
    end.
Proof.
  unfold group_by_source.
  induction all_images as [|img l IH] using rev_ind; [apply lookup_empty |].
  rewrite foldl_snoc, group_step_lookup, IH, List.filter_app. cbn [List.filter].
  destruct (has_source s img).
  - destruct (List.filter (has_source s) l); reflexivity.
  - now rewrite app_nil_r.
Qed.

Lemma pick_group (all_images : list ImageAlternative) (i : nat) (s : string) :
  pick (group_by_source all_images) i s =
    option_list (List.filter (has_source s) all_images !! i).
Proof.
  unfold pick. rewrite group_by_source_lookup.
  destruct (List.filter (has_source s) all_images) as [|x l] eqn:E; [| reflexivity].
  now rewrite lookup_nil.
Qed.

Lemma max_len_bound (m : gmap string (list ImageAlternative)) (s : string)
    (l : list ImageAlternative) :
  m !! s = Some l -> (length l <= max_len m)%nat.
Proof.
  unfold max_len. revert s l.
  apply (map_fold_weak_ind
           (fun acc (m : gmap string (list ImageAlternative)) =>
              forall s l, m !! s = Some l -> (length l <= acc)%nat)).
  - intros s l Hl. now rewrite lookup_empty in Hl.
  - intros k v m' acc Hfresh IH s l Hl.
    destruct (decide (k = s)) as [->|Hne].
    + rewrite lookup_insert_eq in Hl. injection Hl as ->. lia.
    + rewrite lookup_insert_ne in Hl by assumption.
      specialize (IH s l Hl). lia.
Qed.

Lemma group_length_bound (all_images : list ImageAlternative) (s : string) :
  (length (List.filter (has_source s) all_images)
   <= max_len (group_by_source all_images))%nat.
Proof.
  destruct (List.filter (has_source s) all_images) as [|x l] eqn:E; [cbn; lia |].
  apply (max_len_bound _ s). rewrite group_by_source_lookup, E. reflexivity.
Qed.

(** The interleaving loop is a round-robin reading of the four groups in the
    fixed order unsplash, pexels, wikimedia, pixabay. *)
Lemma interleave_rounds (all_images : list ImageAlternative) :
  interleave (group_by_source all_images) =
    rounds (map (fun s => List.filter (has_source s) all_images) source_order)
           (max_len (group_by_source all_images)).
Proof.
  unfold interleave, rounds. apply flat_map_ext. intros i.
  unfold round. rewrite (flat_map_concat_map _ (map _ _)), map_map,
    <- flat_map_concat_map.
  apply flat_map_ext. intros s. apply pick_group.
Qed.

Lemma filter_tagged (t s : string) (l : list ImageAlternative) :
  Forall (fun img => source img = t) l ->
  List.filter (has_source s) l = if String.eqb t s then l else [].
Proof.
  intros Htag. induction Htag as [|img l Himg _ IH]; [now destruct (String.eqb t s) |].
  cbn [List.filter]. unfold has_source at 1. rewrite Himg, IH.
  now destruct (String.eqb t s).
Qed.

Lemma from_unsplash_tagged (l : list UnsplashImage) :
  Forall (fun img => source img = "unsplash") (map from_unsplash l).
Proof. apply List.Forall_map. apply List.Forall_forall. reflexivity. Qed.

Lemma from_wikimedia_tagged (l : list WikimediaImage) :
  Forall (fun img => source img = "wikimedia") (map from_wikimedia l).
Proof. apply List.Forall_map. apply List.Forall_forall. reflexivity. Qed.

(** The stock adapters of the service tag every candidate with their own
    source, whatever the other two slots hold. *)
Lemma stock_adapters_well_tagged
    (u : outcome (list UnsplashImage)) (w : outcome (list WikimediaImage))
    (pexels_key pixabay_key : option string)
    (photos : outcome (list pexels_photo)) (hits : outcome (list pixabay_hit)) :
  well_tagged
    {| r_unsplash := u; r_wikimedia := w;
       r_pexels := Ok (search_pexels_multiple pexels_key photos);
       r_pixabay := Ok (search_pixabay_multiple pixabay_key hits) |}.
Proof.
  split; cbn [slot r_pexels r_pixabay];
    unfold search_pexels_multiple, search_pixabay_multiple.
  - destruct (missing_key pexels_key); [constructor |].
    destruct photos as [photos|e]; cbn; [| constructor].
    apply List.Forall_map. apply List.Forall_forall. reflexivity.
  - destruct (missing_key pixabay_key); [constructor |].
    destruct hits as [hits|e]; cbn; [| constructor].
    apply List.Forall_map. apply List.Forall_forall. reflexivity.
Qed.

(** With well-tagged stock results, each group is one adapter's list. *)
Lemma groups_of_collect (r : gather_results) :
  well_tagged r ->
  map (fun s => List.filter (has_source s) (collect r)) source_order =
    [candidates Unsplash r; candidates Pexels r;
     candidates Wikimedia r; candidates Pixabay r].
Proof.
  intros [Hpex Hpix]. unfold collect, source_order. cbn [map candidates].
  rewrite !List.filter_app.
  rewrite !(filter_tagged "unsplash" _ _ (from_unsplash_tagged _)).
  rewrite !(filter_tagged "wikimedia" _ _ (from_wikimedia_tagged _)).
  rewrite !(filter_tagged "pexels" _ _ Hpex).
  rewrite !(filter_tagged "pixabay" _ _ Hpix).
  cbn. now rewrite !app_nil_r.
Qed.

Lemma interleaved_rounds (r : gather_results) :
  well_tagged r ->
  interleaved r =
    rounds [candidates Unsplash r; candidates Pexels r;
            candidates Wikimedia r; candidates Pixabay r]
           (max_len (group_by_source (collect r))).
Proof.
  intros Htag. unfold interleaved.
  now rewrite interleave_rounds, groups_of_collect.
Qed.

Lemma candidates_length_bound (r : gather_results) :
  well_tagged r ->
  Forall (fun row : list ImageAlternative =>
            (length row <= max_len (group_by_source (collect r)))%nat)
         [candidates Unsplash r; candidates Pexels r;
          candidates Wikimedia r; candidates Pixabay r].
Proof.
  intros Htag. rewrite <- (groups_of_collect r Htag).
  apply List.Forall_map. apply List.Forall_forall. intros s _.
  apply group_length_bound.
Qed.







Lemma sample_results_well_tagged : well_tagged sample_results.
Proof. split; cbn; repeat constructor. Qed.


(** *** Aggregator: failure isolation *)


Lemma max_len_positive (r : gather_results) (a : adapter) (img : ImageAlternative)
    (rest : list ImageAlternative) :
  well_tagged r ->
  candidates a r = img :: rest ->
  exists n, max_len (group_by_source (collect r)) = S n.
Proof.
  intros Htag Ha.
  pose proof (candidates_length_bound r Htag) as Hlen.
  assert (Hrow : (length (candidates a r) <= max_len (group_by_source (collect r)))%nat).
  { rewrite List.Forall_forall in Hlen. apply Hlen.
    destruct a; cbn [In]; tauto. }
  rewrite Ha in Hrow. cbn in Hrow.
  destruct (max_len (group_by_source (collect r))) as [|n]; [lia | now exists n].
Qed.





(** *** Aggregator: fairness *)

(** C9. When one adapter contributes five candidates, another exactly one and
    the remaining two nothing (they raised or found nothing), the single
    candidate is the first or the second entry of the returned list. *)
Theorem interleaving_is_fair (r : gather_results) (a b : adapter)
    (c : ImageAlternative) :
  well_tagged r ->
  a <> b ->
  length (candidates a r) = 5%nat ->
  candidates b r = [c] ->
  (forall o, o <> a -> o <> b -> candidates o r = []) ->
  exists k : nat, (k < 2)%nat /\ search_multiple_sources r !! k = Some c.
Proof.
  intros Htag Hab Ha Hb Hothers.
  destruct (max_len_positive r b c [] Htag Hb) as [n Hn].
  unfold search_multiple_sources.
  rewrite (interleaved_rounds r Htag), Hn, rounds_succ.
  destruct (candidates a r) as [|x rest] eqn:Ea; [discriminate |].
  destruct a, b; try congruence;
    repeat match goal with
           | |- context [candidates ?o r] =>
               first [ rewrite Ea | rewrite Hb
                     | rewrite (Hothers o) by discriminate ]
           end;
    cbn;
    first [ exists 0%nat; split; [lia | reflexivity]
          | exists 1%nat; split; [lia | reflexivity] ].
Qed.

Lemma interleaving_is_fair_witness :
  exists k : nat,
    (k < 2)%nat /\
    search_multiple_sources sample_results !! k = Some (sample_stock "pexels" "p1").
Proof.
  apply (interleaving_is_fair sample_results Unsplash Pexels).
  - split; cbn; repeat constructor.
  - discriminate.
  - reflexivity.
  - reflexivity.
  - intros o Ha Hb. destruct o; try congruence; reflexivity.
Defined.

(** *** Theme composition *)

Import ImageGenerationService.

(** The events [generate_image] fires: one agent search unless generation is
    disabled, at most one call of the generation function, both with the
    text composed once at the top of the function. *)
Lemma generate_image_trace (self : service) (p : ImagePrompt) (h : handler) :
  agent_queries (fst (run h (generate_image self p))) =
    (if is_image_generation_disabled self then []
     else [get_image_prompt p (negb (is_stock_provider_selected self))]) /\
  Forall (fun call => snd call =
                      get_image_prompt p (negb (is_stock_provider_selected self)))
         (gen_calls (fst (run h (generate_image self p)))) /\
  gather_queries (fst (run h (generate_image self p))) = [] /\
  exists produced, snd (run h (generate_image self p)) = Ok produced.
Proof.
  unfold generate_image.
  destruct (is_image_generation_disabled self); [split; [reflexivity | split; [constructor | split; [reflexivity | eexists; reflexivity]]] |].
  cbn -[starts_with String.eqb get_image_prompt].
  destruct (h _ (AgentSearch _ _)) as [|first others]; cbn -[starts_with String.eqb get_image_prompt];
    [| split; [reflexivity | split; [constructor | split; [reflexivity | eexists; reflexivity]]]].
  destruct (image_gen_func self) as [f|]; cbn -[starts_with String.eqb get_image_prompt]; [| split; [reflexivity | split; [constructor | split; [reflexivity | eexists; reflexivity]]]].
  destruct (h _ (ImageGen _ _ _)) as [[image_path|]|e]; cbn -[starts_with String.eqb get_image_prompt];
    try (split; [reflexivity | split; [repeat constructor | split; [reflexivity | eexists; reflexivity]]]).
  destruct (String.eqb image_path ""); cbn -[starts_with String.eqb get_image_prompt];
    try (split; [reflexivity | split; [repeat constructor | split; [reflexivity | eexists; reflexivity]]]).
  destruct (starts_with "http" image_path); cbn -[starts_with String.eqb get_image_prompt];
    try (split; [reflexivity | split; [repeat constructor | split; [reflexivity | eexists; reflexivity]]]).
  destruct (h _ (PathExists image_path)); cbn -[starts_with String.eqb get_image_prompt]; (split; [reflexivity | split; [repeat constructor | split; [reflexivity | eexists; reflexivity]]]).
Qed.

(** *** Running sequenced programs *)

Lemma run_bind {A B} (h : handler) (p : prog A) (f : A -> prog B) :
  run h (p ≫= f) =
    ((fst (run h p) ++ fst (run h (f (snd (run h p)))))%list,
     snd (run h (f (snd (run h p))))).
Proof.
  induction p as [a | X e k IH]; cbn.
  - now destruct (run h (f a)).
  - specialize (IH (h X e)). cbn in IH.
    unfold mbind, prog_bind in IH. rewrite IH.
    destruct (run h (k (h X e))) as [t a]. reflexivity.
Qed.

Lemma gather_queries_app (t1 t2 : list event) :
  gather_queries (t1 ++ t2) = gather_queries t1 ++ gather_queries t2.
Proof. unfold gather_queries. apply flat_map_app. Qed.

Lemma gather_queries_cons (q : string) (n : Z) (r : gather_results) (t : list event) :
  gather_queries (Ev (Gather q n) r :: t) = q :: gather_queries t.
Proof. reflexivity. Qed.

(** The classifier fires nothing or exactly one language-model call. *)
Lemma decide_image_source_trace `{Runtime} (prompt : string) (h : handler) :
  fst (run h (decide_image_source prompt)) = [] \/
  fst (run h (decide_image_source prompt)) =
    [Ev (LLMGenerate prompt) (h _ (LLMGenerate prompt))].
Proof.
  destruct (matched_keywords (str_lower prompt)) as [|kw rest] eqn:E.
  - right. now rewrite (decide_image_source_llm_path prompt h E).
  - left. unfold decide_image_source. rewrite E. reflexivity.
Qed.

(** The response of the entry point in terms of the classifier's verdict, the
    gathered search results and the outcome of [generate_image]. *)
Lemma get_adaptive_image_run `{Runtime} (gen : service) (prompt language : string)
    (h : handler) :
  let verdict := snd (run h (decide_image_source prompt)) in
  let t_decide := fst (run h (decide_image_source prompt)) in
  let gathered := h _ (Gather prompt 2) in
  let generation :=
    run h (generate_image gen
             {| prompt := prompt; theme_prompt := None; language := language |}) in
  run h (get_adaptive_image gen prompt language) =
    match fst verdict with
    | generate =>
        (t_decide ++ fst generation,
         {| resp_decision := generate; resp_reason := snd verdict;
            images := images_of_generation prompt (snd generation) |})
    | search =>
        match search_multiple_sources gathered with
        | [] =>
            (t_decide ++ Ev (Gather prompt 2) gathered :: fst generation,
             {| resp_decision := generate;
                resp_reason :=
                  JStr "Search returned no results, falling back to AI generation";
                images := images_of_generation prompt (snd generation) |})
        | img :: more =>
            (t_decide ++ [Ev (Gather prompt 2) gathered],
             {| resp_decision := search; resp_reason := snd verdict;
                images := img :: more |})
        end
    end.
Proof.
  cbn zeta. unfold get_adaptive_image. rewrite run_bind.
  destruct (snd (run h (decide_image_source prompt))) as [d reason].
  destruct d.
  - cbn [fst snd]. rewrite run_bind. cbn [run mret prog_ret fst snd app].
    rewrite run_bind. cbn [run mret prog_ret fst snd app].
    rewrite app_nil_r. reflexivity.
  - cbn [fst snd]. rewrite run_bind.
    cbn [run trigger mbind prog_bind bind fst snd app].
    destruct (search_multiple_sources (h _ (Gather prompt 2))) as [|img more].
    + cbn [run mret prog_ret fst snd app]. rewrite run_bind.
      cbn [run mret prog_ret fst snd app]. rewrite app_nil_r. reflexivity.
    + cbn [run mret prog_ret fst snd app]. reflexivity.
Qed.

Lemma in_singleton_or_nil {A} (x y : A) (b : bool) :
  In x (if b then [] else [y]) -> x = y.
Proof. destruct b; cbn; [tauto | intros [->|[]]; reflexivity]. Qed.

(** The adaptive service searches for the prompt it was given. *)
Lemma get_adaptive_image_gather `{Runtime} (gen : service) (text lang : string)
    (h : handler) :
  Forall (fun q => text = q)
         (gather_queries (fst (run h (get_adaptive_image gen text lang)))).
Proof.
  destruct (generate_image_trace gen
              {| prompt := text; theme_prompt := None; language := lang |} h)
    as (_ & _ & Hnogather & _).
  assert (Hdecide : gather_queries (fst (run h (decide_image_source text))) = []).
  { destruct (decide_image_source_trace text h) as [E | E]; rewrite E; reflexivity. }
  pose proof (get_adaptive_image_run gen text lang h) as Hrun.
  cbv zeta in Hrun.
  destruct (fst (snd (run h (decide_image_source text)))).
  - rewrite Hrun. unfold fst at 1.
    rewrite gather_queries_app, Hdecide, Hnogather. constructor.
  - destruct (search_multiple_sources (h _ (Gather text 2))).
    + rewrite Hrun. unfold fst at 1.
      rewrite gather_queries_app, Hdecide, gather_queries_cons, Hnogather.
      repeat constructor.
    + rewrite Hrun. unfold fst at 1.
      rewrite gather_queries_app, Hdecide, gather_queries_cons.
      repeat constructor.
Qed.

(** C2, as stated, fails: with a generation backend selected (no stock
    provider) and a theme set, the search step of [generate_image] receives
    the prompt with the theme appended. *)
Lemma generate_image_search_receives_theme :
  agent_queries
    (fst (run (barren (Ok None))
              (generate_image (init dalle3_env "/app/images") themed_prompt)))
    = ["cat, watercolor"] /\
  ~ (forall (self : service) (p : ImagePrompt) (h : handler) (q : string),
       In q (agent_queries (fst (run h (generate_image self p)))) -> q = prompt p).
Proof.
  split; [reflexivity |].
  intros Hclaim.
  specialize (Hclaim (init dalle3_env "/app/images") themed_prompt
                     (barren (Ok None)) "cat, watercolor" (or_introl eq_refl)).
  discriminate Hclaim.
Qed.

(** C2, amended.  The theme is appended only when [with_theme] is requested
    and the theme is set and non-empty.  [generate_image] composes the text
    once, requesting the theme exactly when no stock provider is selected,
    and hands that same text to its search step and to the generation
    function: both receive the literal prompt when a stock provider is
    selected, and the prompt followed by the theme when none is and a theme
    is set.  The multi-source search of the adaptive service always receives
    the literal prompt. *)
Theorem theme_composition `{Runtime} (self : service) (p : ImagePrompt)
    (h : handler) (text lang : string) :
  let composed := get_image_prompt p (negb (is_stock_provider_selected self)) in
  let t := fst (run h (generate_image self p)) in
  get_image_prompt p false = prompt p /\
  (forall theme, theme_prompt p = Some theme -> theme <> ""%string ->
     get_image_prompt p true = (prompt p ++ ", " ++ theme)%string) /\
  (theme_prompt p = None \/ theme_prompt p = Some ""%string ->
     get_image_prompt p true = prompt p) /\
  (forall q, In q (agent_queries t) -> q = composed) /\
  (forall f q, In (f, q) (gen_calls t) -> q = composed) /\
  (is_stock_provider_selected self = true -> composed = prompt p) /\
  (is_stock_provider_selected self = false ->
   forall theme, theme_prompt p = Some theme -> theme <> ""%string ->
     composed = (prompt p ++ ", " ++ theme)%string) /\
  (forall q, In q (gather_queries (fst (run h (get_adaptive_image self text lang)))) ->
     q = text).
Proof.
  cbn zeta.
  destruct (generate_image_trace self p h) as (Hagent & Hgen & _ & _).
  assert (Hthemed : forall theme, theme_prompt p = Some theme -> theme <> ""%string ->
            get_image_prompt p true = (prompt p ++ ", " ++ theme)%string).
  { intros theme Ht Hne. unfold get_image_prompt. rewrite Ht. cbn.
    destruct (String.eqb_spec theme ""); [contradiction | reflexivity]. }
  split; [unfold get_image_prompt; now destruct (theme_prompt p) |].
  split; [exact Hthemed |].
  split.
  { intros [Ht|Ht]; unfold get_image_prompt; rewrite Ht; reflexivity. }
  split.
  { intros q Hq. rewrite Hagent in Hq. eapply in_singleton_or_nil; exact Hq. }
  split.
  { intros f q Hq. rewrite List.Forall_forall in Hgen. exact (Hgen (f, q) Hq). }
  split.
  { intros Hstock. rewrite Hstock. cbn. unfold get_image_prompt.
    now destruct (theme_prompt p). }
  split.
  { intros Hstock theme Ht Hne. rewrite Hstock. cbn. now apply Hthemed. }
  intros q Hq.
  pose proof (get_adaptive_image_gather self text lang h) as Hall.
  rewrite List.Forall_forall in Hall. symmetry. now apply Hall.
Qed.

Lemma theme_composition_witness :
  get_image_prompt themed_prompt true = "cat, watercolor"%string /\
  get_image_prompt themed_prompt
    (negb (is_stock_provider_selected (init pexels_env "/app/images")))
    = prompt themed_prompt /\
  get_image_prompt themed_prompt
    (negb (is_stock_provider_selected (init dalle3_env "/app/images")))
    = "cat, watercolor"%string.
Proof.
  pose proof (@theme_composition sample_runtime (init pexels_env "/app/images")
                themed_prompt (barren (Ok None)) "cat" "English")
    as (_ & Hthemed & _ & _ & _ & Hstock & _).
  pose proof (@theme_composition sample_runtime (init dalle3_env "/app/images")
                themed_prompt (barren (Ok None)) "cat" "English")
    as (_ & _ & _ & _ & _ & _ & Hgenerative & _).
  split; [apply (Hthemed "watercolor"); [reflexivity | discriminate] |].
  split; [apply Hstock; reflexivity |].
  apply (Hgenerative eq_refl "watercolor"); [reflexivity | discriminate].
Defined.

(** *** The entry point *)

Lemma pick_source (m : gmap string (list ImageAlternative)) (i : nat) (s : string)
    (img : ImageAlternative) :
  (forall l, m !! s = Some l -> Forall (fun x => source x = s) l) ->
  In img (pick m i s) -> source img = s.
Proof.
  intros Hm. unfold pick. destruct (m !! s) as [l|] eqn:E; [| intros []].
  destruct (l !! i) as [x|] eqn:Ei; [| intros []].
  intros [<-|[]]. specialize (Hm l eq_refl). rewrite List.Forall_forall in Hm.
  apply Hm. apply list_elem_of_In. eapply list_elem_of_lookup_2. exact Ei.
Qed.

(** Whatever the adapters return, a merged candidate carries one of the four
    search sources. *)
Lemma search_multiple_sources_sources (r : gather_results) (img : ImageAlternative) :
  In img (search_multiple_sources r) -> In (source img) source_order.
Proof.
  intros Hin. apply firstn_In in Hin. unfold interleaved, interleave in Hin.
  apply in_flat_map in Hin. destruct Hin as (i & _ & Hin).
  apply in_flat_map in Hin. destruct Hin as (s & Hs & Hin).
  erewrite pick_source; [exact Hs | | exact Hin].
  intros l Hl. rewrite group_by_source_lookup in Hl.
  destruct (List.filter (has_source s) (collect r)) as [|x l'] eqn:E; [discriminate |].
  injection Hl as <-. rewrite <- E. apply List.Forall_forall.
  intros y Hy. apply List.filter_In in Hy. destruct Hy as [_ Hy].
  now apply String.eqb_eq in Hy.
Qed.

(** The entry point always answers with at least one candidate, and no
    candidate it answers with carries the source "placeholder": the branch
    that builds the placeholder candidate needs [generate_image] to raise,
    which it never does. *)
Lemma get_adaptive_image_candidates `{Runtime} (gen : service) (prompt language : string)
    (h : handler) :
  images (snd (run h (get_adaptive_image gen prompt language))) <> [] /\
  Forall (fun img => source img <> "placeholder")
         (images (snd (run h (get_adaptive_image gen prompt language)))).
Proof.
  pose proof (get_adaptive_image_run gen prompt language h) as Hrun.
  cbv zeta in Hrun.
  destruct (generate_image_trace gen
              {| prompt := prompt; theme_prompt := None; language := language |} h)
    as (_ & _ & _ & produced & Hok).
  assert (Hgen : images_of_generation prompt
                   (snd (run h (generate_image gen
                      {| prompt := prompt; theme_prompt := None;
                         language := language |}))) <> [] /\
                 Forall (fun img => source img <> "placeholder")
                   (images_of_generation prompt
                      (snd (run h (generate_image gen
                         {| prompt := prompt; theme_prompt := None;
                            language := language |}))))).
  { rewrite Hok. destruct produced; cbn [images_of_generation];
      (split; [discriminate | repeat constructor; discriminate]). }
  destruct (fst (snd (run h (decide_image_source prompt)))).
  - rewrite Hrun. exact Hgen.
  - destruct (search_multiple_sources (h _ (Gather prompt 2))) as [|img more] eqn:E.
    + rewrite Hrun. exact Hgen.
    + rewrite Hrun. cbn [snd images].
      split; [discriminate |].
      apply List.Forall_forall. intros x Hx. rewrite <- E in Hx.
      apply search_multiple_sources_sources in Hx.
      intros Hbad. rewrite Hbad in Hx. cbn in Hx.
      repeat (destruct Hx as [Hx|Hx]; [discriminate Hx |]). exact Hx.
Qed.

(** C3, at a failing input.  No search adapter finds anything and the
    selected generation backend raises: the entry point answers, but with a
    candidate labelled "ai" and "AI Generated" that points at the placeholder
    file, not with the candidate whose source is "placeholder". *)
Theorem get_adaptive_image_failed_generation_labelled_ai :
  run nothing_works
      (@get_adaptive_image sample_runtime (init dalle3_env "/app/images")
         "xyzxyz-nonsense" "English") =
    ([Ev (LLMGenerate "xyzxyz-nonsense") (Raise (External "rate limited"));
      Ev (Gather "xyzxyz-nonsense" 2)
         {| r_unsplash := Ok []; r_wikimedia := Ok [];
            r_pexels := Ok []; r_pixabay := Raise (External "timeout") |};
      Ev (AgentSearch "xyzxyz-nonsense" "English") [];
      Ev (ImageGen generate_image_openai_dalle3 "xyzxyz-nonsense"
                   (Some "/app/images"))
         (Raise (External "backend unavailable"))],
     {| resp_decision := generate;
        resp_reason := JStr "Search returned no results, falling back to AI generation";
        images := [ {| url := "/static/images/placeholder.jpg";
                       thumbnail_url := None;
                       source := "ai";
                       attribution := Some "AI Generated";
                       description := Some "xyzxyz-nonsense" |} ] |}) /\
  ~ In placeholder_image
       (images (snd (run nothing_works
                       (@get_adaptive_image sample_runtime (init dalle3_env "/app/images")
                          "xyzxyz-nonsense" "English")))).
Proof.
  split; [vm_compute; reflexivity |].
  vm_compute. intros [Hbad|[]]. discriminate Hbad.
Qed.

(** *** Workflow prompt injection *)

Lemma assoc_set_other (k k' : string) (v : json) (fields : list (string * json)) :
  k' <> k -> assoc k' (assoc_set k v fields) = assoc k' fields.
Proof.
  intros Hne. induction fields as [|[k0 v0] rest IH]; cbn.
  - destruct (String.eqb_spec k' k); [contradiction | reflexivity].
  - destruct (String.eqb_spec k k0) as [->|Hk]; cbn.
    + destruct (String.eqb_spec k' k0); [contradiction | reflexivity].
    + destruct (String.eqb_spec k' k0); [reflexivity | exact IH].
Qed.

Lemma assoc_set_same (k : string) (v : json) (fields : list (string * json)) :
  assoc k (assoc_set k v fields) = Some v.
Proof.
  induction fields as [|[k0 v0] rest IH]; cbn.
  - now rewrite String.eqb_refl.
  - destruct (String.eqb_spec k k0) as [->|Hk]; cbn.
    + now rewrite String.eqb_refl.
    + destruct (String.eqb_spec k k0); [contradiction | exact IH].
Qed.

Lemma assoc_set_keys (k : string) (v old : json) (fields : list (string * json)) :
  assoc k fields = Some old ->
  map fst (assoc_set k v fields) = map fst fields.
Proof.
  induction fields as [|[k0 v0] rest IH]; cbn; [discriminate |].
  destruct (String.eqb_spec k k0) as [->|Hk]; cbn; [reflexivity |].
  intros Hold. now rewrite IH.
Qed.

(** One loop iteration on a well-formed node. *)
Lemma inject_node_spec `{Runtime} (node : json) (prompt : string) :
  well_formed_node node = true ->
  inject_node node prompt =
    Ok (if injectable node then Some (write_text prompt node) else None).
Proof.
  unfold well_formed_node, inject_node, injectable, titled_input_prompt,
    declared_title, has_text_input, write_text.
  destruct node as [| | | |items|fields]; try discriminate.
  intros Hwf. apply andb_prop in Hwf. destruct Hwf as [Hmeta Hinputs].
  cbn [py_get mbind outcome_bind obind].
  destruct (assoc "_meta" fields) as [meta|];
    [destruct meta as [| | | | |meta]; try discriminate |];
    cbn [py_get mbind outcome_bind obind assoc].
  - destruct (assoc "title" meta) as [title|];
      [destruct title as [| | |title| |]; try discriminate |];
      cbn [py_lower mbind outcome_bind obind].
    all: destruct (String.eqb (str_lower _) "input prompt"); [| reflexivity].
    all: cbn [py_in py_getitem mbind outcome_bind obind andb].
    all: destruct (assoc "inputs" fields) as [inputs|];
      [destruct inputs as [| | | | |inputs]; try discriminate |];
      cbn [py_in py_getitem py_setitem mbind outcome_bind obind mret outcome_ret];
      try reflexivity.
    all: destruct (assoc "text" inputs); reflexivity.
  - cbn [py_lower mbind outcome_bind obind].
    destruct (String.eqb (str_lower _) "input prompt"); [| reflexivity].
    cbn [py_in py_getitem mbind outcome_bind obind andb].
    destruct (assoc "inputs" fields) as [inputs|];
      [destruct inputs as [| | | | |inputs]; try discriminate |];
      cbn [py_in py_getitem py_setitem mbind outcome_bind obind mret outcome_ret];
      try reflexivity.
    destruct (assoc "text" inputs); reflexivity.
Qed.

(** The loop over well-formed nodes: it fails with the "not found" error
    when no node is injectable and otherwise rewrites the first injectable
    node in place. *)
Lemma inject_nodes_spec `{Runtime} (nodes : list (string * json)) (prompt : string) :
  Forall (fun kv => well_formed_node (snd kv) = true) nodes ->
  (Forall (fun kv => injectable (snd kv) = false) nodes /\
   inject_nodes nodes prompt = Raise PromptNodeNotFound) \/
  (exists pre node_id node post,
     nodes = pre ++ (node_id, node) :: post /\
     Forall (fun kv => injectable (snd kv) = false) pre /\
     injectable node = true /\
     inject_nodes nodes prompt =
       Ok (pre ++ (node_id, write_text prompt node) :: post)).
Proof.
  intros Hwf. induction Hwf as [|[node_id node] rest Hnode _ IH].
  - left. split; [constructor | reflexivity].
  - cbn [snd] in Hnode. cbn [inject_nodes].
    rewrite (inject_node_spec node prompt Hnode).
    cbn [mbind outcome_bind obind].
    destruct (injectable node) eqn:Einj.
    + right. exists [], node_id, node, rest.
      split; [reflexivity |]. split; [constructor |]. split; [exact Einj | reflexivity].
    + destruct IH as [[Hnone Hfail] | (pre & id' & node' & post & -> & Hpre & Hinj & Hok)].
      * left. split; [constructor; assumption |]. now rewrite Hfail.
      * right. exists ((node_id, node) :: pre), id', node', post.
        split; [reflexivity |]. split; [constructor; assumption |].
        split; [exact Hinj |]. now rewrite Hok.
Qed.

Lemma inject_nodes_at `{Runtime} (pre post : list (string * json)) (node_id : string)
    (node : json) (prompt : string) :
  Forall (fun kv => well_formed_node (snd kv) = true) (pre ++ (node_id, node) :: post) ->
  Forall (fun kv => injectable (snd kv) = false) pre ->
  injectable node = true ->
  inject_nodes (pre ++ (node_id, node) :: post) prompt =
    Ok (pre ++ (node_id, write_text prompt node) :: post).
Proof.
  intros Hwf Hpre Hinj. induction Hpre as [|[k v] pre Hv _ IH].
  - cbn [app inject_nodes]. inversion Hwf as [|? ? Hnode _]; subst.
    rewrite (inject_node_spec node prompt Hnode), Hinj. reflexivity.
  - cbn [app inject_nodes]. inversion Hwf as [|? ? Hnode Hrest]; subst.
    cbn [snd] in Hnode, Hv.
    rewrite (inject_node_spec v prompt Hnode), Hv.
    cbn [mbind outcome_bind obind]. now rewrite (IH Hrest).
Qed.

Lemma write_text_frame `{Runtime} (prompt : string) (fields : list (string * json)) :
  injectable (JObj fields) = true ->
  exists inputs fields' inputs',
    assoc "inputs" fields = Some (JObj inputs) /\
    write_text prompt (JObj fields) = JObj fields' /\
    assoc "inputs" fields' = Some (JObj inputs') /\
    assoc "text" inputs' = Some (JStr prompt) /\
    map fst fields' = map fst fields /\
    map fst inputs' = map fst inputs /\
    (forall k, k <> "inputs"%string -> assoc k fields' = assoc k fields) /\
    (forall k, k <> "text"%string -> assoc k inputs' = assoc k inputs).
Proof.
  unfold injectable, has_text_input, write_text. intros Hinj.
  apply andb_prop in Hinj. destruct Hinj as [_ Htext].
  destruct (assoc "inputs" fields) as [inputs|] eqn:Ei; [| discriminate].
  destruct inputs as [| | | | |inputs]; try discriminate.
  destruct (assoc "text" inputs) as [old|] eqn:Et; [| discriminate].
  exists inputs,
    (assoc_set "inputs" (JObj (assoc_set "text" (JStr prompt) inputs)) fields),
    (assoc_set "text" (JStr prompt) inputs).
  split; [reflexivity |]. split; [reflexivity |].
  split; [apply assoc_set_same |]. split; [apply assoc_set_same |].
  split; [eapply assoc_set_keys; exact Ei |].
  split; [eapply assoc_set_keys; exact Et |].
  split; intros k Hk; now apply assoc_set_other.
Qed.

(** C8, as stated, fails: a workflow can hold a node titled "Input Prompt"
    and injection still fails with the "not found" error, because that node
    has no [text] input. *)
Lemma inject_prompt_fails_despite_titled_node :
  (exists node_id node,
     In (node_id, node) untexted_workflow /\
     @titled_input_prompt sample_runtime node = true) /\
  @_inject_prompt_into_workflow sample_runtime (JObj untexted_workflow) "a red fox"
    = Raise PromptNodeNotFound.
Proof.
  split; [| reflexivity].
  eexists _, _. split; [left; reflexivity | reflexivity].
Qed.

(** C8, amended.  On a workflow of well-formed nodes, injection fails with
    the "not found" error exactly when no node is both titled "Input Prompt"
    (up to case) and equipped with a [text] input; otherwise it returns the
    workflow in which the first such node, in workflow order, has the [text]
    entry of its [inputs] replaced by the prompt, every other node, every
    other entry of that node and of its inputs, and the order of all keys
    being unchanged. *)
Theorem inject_prompt_into_first_text_node `{Runtime} (nodes : list (string * json))
    (prompt : string) :
  Forall (fun kv => well_formed_node (snd kv) = true) nodes ->
  (_inject_prompt_into_workflow (JObj nodes) prompt = Raise PromptNodeNotFound <->
   Forall (fun kv => injectable (snd kv) = false) nodes) /\
  (forall pre node_id node post,
     nodes = pre ++ (node_id, node) :: post ->
     Forall (fun kv => injectable (snd kv) = false) pre ->
     injectable node = true ->
     _inject_prompt_into_workflow (JObj nodes) prompt =
       Ok (JObj (pre ++ (node_id, write_text prompt node) :: post))) /\
  (forall fields,
     injectable (JObj fields) = true ->
     exists inputs fields' inputs',
       assoc "inputs" fields = Some (JObj inputs) /\
       write_text prompt (JObj fields) = JObj fields' /\
       assoc "inputs" fields' = Some (JObj inputs') /\
       assoc "text" inputs' = Some (JStr prompt) /\
       map fst fields' = map fst fields /\
       map fst inputs' = map fst inputs /\
       (forall k, k <> "inputs"%string -> assoc k fields' = assoc k fields) /\
       (forall k, k <> "text"%string -> assoc k inputs' = assoc k inputs)).
Proof.
  intros Hwf. split; [| split].
  - cbn [_inject_prompt_into_workflow].
    destruct (inject_nodes_spec nodes prompt Hwf)
      as [[Hnone Hfail] | (pre & id' & node' & post & -> & Hpre & Hinj & Hok)].
    + rewrite Hfail. split; [intros _; exact Hnone | reflexivity].
    + rewrite Hok. split; [discriminate |].
      intros Hnone. apply List.Forall_app in Hnone. destruct Hnone as [_ Hnone].
      inversion Hnone as [|? ? Hbad _]; subst. cbn [snd] in Hbad. congruence.
  - intros pre node_id node post -> Hpre Hinj.
    cbn [_inject_prompt_into_workflow].
    now rewrite (inject_nodes_at pre post node_id node prompt Hwf Hpre Hinj).
  - intros fields. apply write_text_frame.
Qed.

Lemma inject_prompt_into_first_text_node_witness :
  @_inject_prompt_into_workflow sample_runtime (JObj sample_workflow) "a red fox" =
    Ok (JObj [("3", sampler_node); ("6", prompt_node "a red fox");
              ("9", prompt_node "other")]).
Proof.
  apply (proj1 (proj2 (@inject_prompt_into_first_text_node sample_runtime
                         sample_workflow "a red fox"
                         ltac:(repeat constructor)))
               [("3", sampler_node)] "6" (prompt_node "old prompt")
               [("9", prompt_node "other")]).
  - reflexivity.
  - repeat constructor.
  - reflexivity.
Defined.

(** *** Job poller *)

Lemma check_history_quiet (prompt_id : string) (document : json) :
  quiet_document prompt_id document = true ->
  check_history prompt_id document = Ok None.
Proof.
  unfold quiet_document, check_history.
  destruct document as [| | | | |top]; try discriminate.
  cbn [py_in py_getitem mbind outcome_bind obind].
  destruct (assoc prompt_id top) as [entry|]; [| reflexivity].
  unfold quiet_entry. destruct entry as [| | | | |fields]; try discriminate.
  intros Hq. apply andb_prop in Hq. destruct Hq as [Hstatus Houtputs].
  cbn [py_in py_getitem mbind outcome_bind obind].
  destruct (assoc "status" fields) as [st|].
  - destruct st as [| | | | |st]; try discriminate.
    apply andb_prop in Hstatus. destruct Hstatus as [Hflag Herr].
    unfold completed_flag in Hflag.
    cbn [py_in py_get py_getitem mbind outcome_bind obind].
    destruct (assoc "completed" st) as [flag|].
    + apply negb_true_iff in Hflag. rewrite Hflag.
      destruct (assoc "error" st); [discriminate |].
      cbn [mret outcome_ret mbind outcome_bind obind].
      destruct (assoc "outputs" fields) as [outputs|]; [| reflexivity].
      cbn [mbind outcome_bind obind]. apply negb_true_iff in Houtputs.
      now rewrite Houtputs.
    + cbn [truthy]. destruct (assoc "error" st); [discriminate |].
      cbn [mret outcome_ret mbind outcome_bind obind].
      destruct (assoc "outputs" fields) as [outputs|]; [| reflexivity].
      cbn [mbind outcome_bind obind]. apply negb_true_iff in Houtputs.
      now rewrite Houtputs.
  - cbn [mret outcome_ret mbind outcome_bind obind].
    destruct (assoc "outputs" fields) as [outputs|]; [| reflexivity].
    cbn [mbind outcome_bind obind]. apply negb_true_iff in Houtputs.
    now rewrite Houtputs.
Qed.

(** The document check raises nothing but dynamic-typing failures and the
    workflow error. *)
Lemma check_history_never_times_out (prompt_id : string) (document : json) (t : Z) :
  check_history prompt_id document <> Raise (WorkflowTimedOut t).
Proof.
  unfold check_history, py_in, py_getitem, py_get. inspect_document.
Qed.

Section Poller.
Variable world : nat -> poll_step.
Variable prompt_id : string.
Variables timeout poll_interval start_time : Z.

Let loop := wait_loop world prompt_id timeout poll_interval start_time.

(** The clock after iteration [i] started at [now]. *)
Let next (i : nat) (now : Z) : Z :=
  after_sleep now poll_interval (sleep_overshoot (world i)) + get_duration (world i).

(** A quiet exchange sends the loop round again. *)
Lemma wait_loop_quiet_step (fuel i : nat) (now : Z) :
  now - start_time <= timeout ->
  quiet_step prompt_id (world i) = true ->
  loop (S fuel) i now = loop fuel (S i) (next i now).
Proof.
  intros Hin Hquiet. subst loop next. cbn [wait_loop].
  destruct (Z.gtb_spec (now - start_time) timeout) as [Hgt|_]; [lia |].
  unfold quiet_step in Hquiet.
  destruct (get_result (world i)) as [response|msg]; [| discriminate].
  destruct (status response =? 200); cbn [negb]; [| reflexivity].
  destruct (body response) as [document|]; [| reflexivity].
  now rewrite (check_history_quiet _ _ Hquiet).
Qed.

(** More fuel never changes a result already reached. *)
Lemma wait_loop_fuel (fuel fuel' i : nat) (now : Z) (e : poll_end) :
  (fuel <= fuel')%nat -> loop fuel i now = Some e -> loop fuel' i now = Some e.
Proof.
  subst loop. revert fuel' i now.
  induction fuel as [|fuel IH]; intros fuel' i now Hle Hrun; [discriminate |].
  destruct fuel' as [|fuel']; [lia |].
  cbn [wait_loop] in *.
  destruct (now - start_time >? timeout); [exact Hrun |].
  assert (Hnext : forall now',
            wait_loop world prompt_id timeout poll_interval start_time fuel (S i) now'
              = Some e ->
            wait_loop world prompt_id timeout poll_interval start_time fuel' (S i) now'
              = Some e)
    by (intros now'; apply IH; lia).
  destruct (get_result (world i)) as [response|msg]; [| exact Hrun].
  destruct (negb (status response =? 200)); [now apply Hnext |].
  destruct (body response) as [document|]; [| now apply Hnext].
  destruct (check_history prompt_id document) as [[done|]|err];
    [exact Hrun | now apply Hnext | exact Hrun].
Qed.

(** A timeout error is only ever raised for the configured timeout and
    only once more than that has elapsed. *)
Lemma wait_loop_timeout_late (fuel i : nat) (now t : Z) (e : poll_end) :
  loop fuel i now = Some e ->
  result e = Raise (WorkflowTimedOut t) ->
  t = timeout /\ timeout < ended_at e - start_time.
Proof.
  subst loop. revert i now.
  induction fuel as [|fuel IH]; intros i now Hrun Hres; [discriminate |].
  cbn [wait_loop] in Hrun.
  destruct (Z.gtb_spec (now - start_time) timeout) as [Hgt|_].
  { injection Hrun as <-. cbn in *. injection Hres as <-. split; [reflexivity | lia]. }
  destruct (get_result (world i)) as [response|msg].
  2: { injection Hrun as <-. discriminate Hres. }
  destruct (negb (status response =? 200)); [now apply IH in Hrun |].
  destruct (body response) as [document|]; [| now apply IH in Hrun].
  destruct (check_history prompt_id document) as [[done|]|err] eqn:Echeck.
  - injection Hrun as <-. discriminate Hres.
  - now apply IH in Hrun.
  - injection Hrun as <-. cbn in Hres. injection Hres as ->.
    now apply check_history_never_times_out in Echeck.
Qed.

Hypothesis interval_positive : 0 < poll_interval.
Hypothesis time_passes :
  forall i, 0 <= sleep_overshoot (world i) /\ 0 <= get_duration (world i).
Hypothesis always_quiet : forall i, quiet_step prompt_id (world i) = true.

(** With only quiet exchanges the loop ends in the timeout error, after at
    most [n] further iterations when fewer than [n] poll intervals remain. *)
Lemma wait_loop_runs_out (n i : nat) (now : Z) :
  timeout - (now - start_time) < Z.of_nat n * poll_interval ->
  exists e,
    loop (S n) i now = Some e /\
    result e = Raise (WorkflowTimedOut timeout) /\
    timeout < ended_at e - start_time /\
    (i <= polls e <= i + n)%nat.
Proof.
  revert i now. induction n as [|n IH]; intros i now Hleft.
  - exists {| result := Raise (WorkflowTimedOut timeout); ended_at := now; polls := i |}.
    subst loop. cbn [wait_loop].
    destruct (Z.gtb_spec (now - start_time) timeout) as [_|Hle]; [| lia].
    cbn. repeat split; lia.
  - destruct (Z.gtb_spec (now - start_time) timeout) as [Hgt|Hle].
    + exists {| result := Raise (WorkflowTimedOut timeout); ended_at := now; polls := i |}.
      subst loop. cbn [wait_loop].
      destruct (Z.gtb_spec (now - start_time) timeout) as [_|Hle]; [| lia].
      cbn. repeat split; lia.
    + rewrite (wait_loop_quiet_step (S n) i now Hle (always_quiet i)).
      destruct (IH (S i) (next i now)) as (e & Hrun & Hres & Hlate & Hpolls).
      { subst next. unfold after_sleep. cbn beta.
        pose proof (time_passes i) as [Hs Hg]. lia. }
      exists e. repeat split; try assumption; lia.
Qed.
End Poller.

Lemma stalled_world_quiet (i : nat) : quiet_step "job-1" (stalled_world i) = true.
Proof.
  unfold stalled_world. destruct (i mod 3)%nat as [|[|n]]; reflexivity.
Qed.

(** C6, as stated, fails: a history that never reports completion but
    carries an error in its status ends the poller at the first poll, long
    before the timeout, and with the workflow error, not the timeout error. *)
Lemma poller_error_ends_before_timeout :
  (forall i, step_reports_completion "job-1" (failed_world i) = false) /\
  (forall fuel,
     _wait_for_comfyui_completion failed_world "job-1"
       default_timeout default_poll_interval 0 (S fuel) =
     Some {| result := Raise (WorkflowError (JStr "out of memory"));
             ended_at := 5; polls := 1 |}) /\
  ~ (forall world : nat -> poll_step,
       (forall i, step_reports_completion "job-1" (world i) = false) ->
       exists fuel e,
         _wait_for_comfyui_completion world "job-1"
           default_timeout default_poll_interval 0 fuel = Some e /\
         result e = Raise (WorkflowTimedOut default_timeout)).
Proof.
  assert (Hrun : forall fuel,
            _wait_for_comfyui_completion failed_world "job-1"
              default_timeout default_poll_interval 0 (S fuel) =
            Some {| result := Raise (WorkflowError (JStr "out of memory"));
                    ended_at := 5; polls := 1 |})
    by (intros fuel; reflexivity).
  split; [intros i; reflexivity |]. split; [exact Hrun |].
  intros Hclaim.
  destruct (Hclaim failed_world (fun i => eq_refl)) as (fuel & e & He & Hres).
  destruct fuel as [|fuel]; [discriminate He |].
  rewrite Hrun in He. injection He as <-. discriminate Hres.
Qed.

(** C6, amended.  (1) Whatever the backend does, the timeout error is only
    ever raised for the configured timeout and at a clock reading more than
    that timeout after the start.  (2) With a positive poll interval, sleeps
    and requests that take no negative time, and exchanges that are all
    quiet (a status other than 200, a body that does not decode, or a
    document that holds for the job neither a completion flag, nor an error,
    nor outputs), the poller ends, for every sufficient amount of fuel, in
    the timeout error.  (3) A quiet exchange is skipped: the loop goes round
    again with the clock advanced. *)
Theorem poller_times_out (world : nat -> poll_step) (prompt_id : string)
    (timeout poll_interval start_time : Z) :
  (forall fuel e t,
     _wait_for_comfyui_completion world prompt_id timeout poll_interval start_time fuel
       = Some e ->
     result e = Raise (WorkflowTimedOut t) ->
     t = timeout /\ timeout < ended_at e - start_time) /\
  (0 < poll_interval ->
   (forall i, 0 <= sleep_overshoot (world i) /\ 0 <= get_duration (world i)) ->
   (forall i, quiet_step prompt_id (world i) = true) ->
   exists fuel e,
     (forall fuel', (fuel <= fuel')%nat ->
        _wait_for_comfyui_completion world prompt_id timeout poll_interval start_time fuel'
          = Some e) /\
     result e = Raise (WorkflowTimedOut timeout) /\
     timeout < ended_at e - start_time) /\
  (forall fuel i now,
     now - start_time <= timeout ->
     quiet_step prompt_id (world i) = true ->
     wait_loop world prompt_id timeout poll_interval start_time (S fuel) i now =
     wait_loop world prompt_id timeout poll_interval start_time fuel (S i)
       (after_sleep now poll_interval (sleep_overshoot (world i)) +
        get_duration (world i))).
Proof.
  split; [| split].
  - intros fuel e t. unfold _wait_for_comfyui_completion.
    apply wait_loop_timeout_late.
  - intros Hpos Htime Hquiet.
    set (n := Z.to_nat (Z.max 0 (timeout / poll_interval + 1))).
    destruct (wait_loop_runs_out world prompt_id timeout poll_interval start_time
                Hpos Htime Hquiet n 0%nat start_time) as (e & Hrun & Hres & Hlate & _).
    { subst n. rewrite Z2Nat.id by lia.
      pose proof (Z.mul_succ_div_gt timeout poll_interval Hpos). nia. }
    exists (S n), e. split; [| split; assumption].
    intros fuel' Hle. unfold _wait_for_comfyui_completion.
    now apply (wait_loop_fuel _ _ _ _ _ (S n)).
  - intros fuel i now. apply wait_loop_quiet_step.
Qed.

Lemma poller_times_out_witness :
  exists fuel e,
    (forall fuel', (fuel <= fuel')%nat ->
       _wait_for_comfyui_completion stalled_world "job-1"
         default_timeout default_poll_interval 0 fuel' = Some e) /\
    result e = Raise (WorkflowTimedOut default_timeout) /\
    default_timeout < ended_at e - 0.
Proof.
  apply (proj1 (proj2 (poller_times_out stalled_world "job-1"
                         default_timeout default_poll_interval 0))).
  - reflexivity.
  - intros i. unfold stalled_world.
    destruct (i mod 3)%nat as [|[|n]]; cbn; lia.
  - exact stalled_world_quiet.
Defined.

Example stalled_world_run :
  _wait_for_comfyui_completion stalled_world "job-1"
    default_timeout default_poll_interval 0 100 =
  Some {| result := Raise (WorkflowTimedOut 300); ended_at := 305; polls := 61 |}.
Proof. vm_compute. reflexivity. Qed.

(** What the document check answers for an entry with a non-empty outputs
    map, and for an entry whose status carries an error. *)
Lemma check_history_entry (prompt_id : string) (top entry : list (string * json)) :
  assoc prompt_id top = Some (JObj entry) ->
  (forall kv rest,
     assoc "outputs" entry = Some (JObj (kv :: rest)) ->
     assoc "status" entry = None \/
     (exists st, assoc "status" entry = Some (JObj st) /\
                 (completed_flag st = true \/ assoc "error" st = None)) ->
     check_history prompt_id (JObj top) = Ok (Some (JObj top))) /\
  (forall st err,
     assoc "status" entry = Some (JObj st) ->
     assoc "error" st = Some err ->
     completed_flag st = false ->
     check_history prompt_id (JObj top) = Raise (WorkflowError err)).
Proof.
  intros Hentry. unfold check_history, completed_flag.
  cbn [py_in py_getitem mbind outcome_bind obind]. rewrite Hentry.
  cbn [py_in py_getitem mbind outcome_bind obind].
  split.
  - intros kv rest Hout [Hnone | (st & Hst & Hgood)].
    + rewrite Hnone, Hout. reflexivity.
    + rewrite Hst. cbn [py_in py_get py_getitem mbind outcome_bind obind].
      destruct (assoc "completed" st) as [flag|].
      * destruct (truthy flag); [reflexivity |].
        destruct Hgood as [Hbad | Hnoerr]; [discriminate |].
        rewrite Hnoerr, Hout. reflexivity.
      * cbn [truthy]. destruct Hgood as [Hbad | Hnoerr]; [discriminate |].
        rewrite Hnoerr, Hout. reflexivity.
  - intros st err Hst Herr Hflag. rewrite Hst.
    cbn [py_in py_get py_getitem mbind outcome_bind obind].
    destruct (assoc "completed" st) as [flag|].
    + rewrite Hflag. now rewrite Herr.
    + cbn [truthy]. now rewrite Herr.
Qed.

(** C7, as stated, fails: a document whose entry carries a non-empty outputs
    map and whose status carries an error is not treated as complete; the
    poller raises the workflow error. *)
Lemma poller_outputs_with_error_raises :
  has_nonempty_outputs "job-1" outputs_and_error_document = true /\
  check_history "job-1" outputs_and_error_document
    = Raise (WorkflowError (JStr "node 7 failed")) /\
  ~ (forall document,
       has_nonempty_outputs "job-1" document = true ->
       check_history "job-1" document = Ok (Some document)) /\
  (forall fuel,
     _wait_for_comfyui_completion
       (fun _ => exchange 200 (Some outputs_and_error_document)) "job-1"
       default_timeout default_poll_interval 0 (S fuel) =
     Some {| result := Raise (WorkflowError (JStr "node 7 failed"));
             ended_at := 5; polls := 1 |}).
Proof.
  split; [reflexivity |]. split; [reflexivity |].
  split; [| intros fuel; reflexivity].
  intros Hclaim. specialize (Hclaim outputs_and_error_document eq_refl).
  discriminate Hclaim.
Qed.

(** C7, amended.  In an iteration the timeout has not cut short, a 200
    response whose document holds for the job an entry with a non-empty
    outputs map makes the poller return that document when the entry has no
    status, or a status with a truthy completion flag, or a status without
    an error field (so also when no completion flag is present at all); and
    a response whose status carries an error field and no truthy completion
    flag makes it raise the workflow error at once, outputs or not. *)
Theorem poller_completion_and_error (world : nat -> poll_step) (prompt_id : string)
    (timeout poll_interval start_time : Z) (fuel i : nat) (now : Z)
    (response : http_response) (top entry : list (string * json)) :
  now - start_time <= timeout ->
  get_result (world i) = Responded response ->
  status response = 200 ->
  body response = Some (JObj top) ->
  assoc prompt_id top = Some (JObj entry) ->
  (forall kv rest,
     assoc "outputs" entry = Some (JObj (kv :: rest)) ->
     assoc "status" entry = None \/
     (exists st, assoc "status" entry = Some (JObj st) /\
                 (completed_flag st = true \/ assoc "error" st = None)) ->
     wait_loop world prompt_id timeout poll_interval start_time (S fuel) i now =
     Some {| result := Ok (JObj top);
             ended_at := after_sleep now poll_interval (sleep_overshoot (world i)) +
                         get_duration (world i);
             polls := S i |}) /\
  (forall st err,
     assoc "status" entry = Some (JObj st) ->
     assoc "error" st = Some err ->
     completed_flag st = false ->
     wait_loop world prompt_id timeout poll_interval start_time (S fuel) i now =
     Some {| result := Raise (WorkflowError err);
             ended_at := after_sleep now poll_interval (sleep_overshoot (world i)) +
                         get_duration (world i);
             polls := S i |}).
Proof.
  intros Hin Hget Hstatus Hbody Hentry.
  destruct (check_history_entry prompt_id top entry Hentry) as [Hdone Hfail].
  split.
  - intros kv rest Hout Hgood. cbn [wait_loop].
    destruct (Z.gtb_spec (now - start_time) timeout) as [Hgt|_]; [lia |].
    rewrite Hget, Hstatus, Hbody. cbn [Z.eqb Pos.eqb negb].
    now rewrite (Hdone kv rest Hout Hgood).
  - intros st err Hst Herr Hflag. cbn [wait_loop].
    destruct (Z.gtb_spec (now - start_time) timeout) as [Hgt|_]; [lia |].
    rewrite Hget, Hstatus, Hbody. cbn [Z.eqb Pos.eqb negb].
    now rewrite (Hfail st err Hst Herr Hflag).
Qed.

Lemma poller_completion_and_error_witness :
  wait_loop (fun _ => exchange 200 (Some outputs_only_document)) "job-1"
    default_timeout default_poll_interval 0 1 0 0 =
  Some {| result := Ok outputs_only_document; ended_at := 5; polls := 1 |} /\
  wait_loop failed_world "job-1" default_timeout default_poll_interval 0 1 0 0 =
  Some {| result := Raise (WorkflowError (JStr "out of memory"));
          ended_at := 5; polls := 1 |}.
Proof.
  split.
  - eapply (proj1 (poller_completion_and_error
                     (fun _ => exchange 200 (Some outputs_only_document)) "job-1"
                     default_timeout default_poll_interval 0 0 0 0 _ _ _
                     ltac:(unfold default_timeout; lia) eq_refl eq_refl eq_refl eq_refl)).
    + reflexivity.
    + left. reflexivity.
  - eapply (proj2 (poller_completion_and_error
                     failed_world "job-1"
                     default_timeout default_poll_interval 0 0 0 0 _ _ _
                     ltac:(unfold default_timeout; lia) eq_refl eq_refl eq_refl eq_refl)).
    + reflexivity.
    + reflexivity.
    + reflexivity.
Defined.

(** ** Further properties *)

(** *** [generate_image] *)

Lemma nothing_selected_flags (e : provider_env) (dir : string) :
  nothing_selected e = true ->
  is_stock_provider_selected (init e dir) = false /\
  get_image_gen_func e false = None.
Proof.
  unfold nothing_selected, is_stock_provider_selected, get_image_gen_func. cbn.
  intros Hnone. apply negb_true_iff in Hnone.
  destruct (pixabay_selected e), (pixels_selected e), (gemini_flash_selected e),
    (nanobanana_pro_selected e), (dalle3_selected e), (gpt_image_1_5_selected e),
    (comfyui_selected e); try discriminate; split; reflexivity.
Qed.

(** X1. A service built from an environment in which generation is disabled
    answers with the placeholder path without a single request; one built
    from an environment with no provider selected never calls a generation
    function and answers with the placeholder path whenever the agent search
    (asked with the theme appended) finds nothing. *)
Theorem generate_image_without_backend (e : provider_env) (dir : string)
    (p : ImagePrompt) (h : handler) :
  (image_generation_disabled e = true ->
   run h (generate_image (init e dir) p) = ([], Ok (ResultStr placeholder_path))) /\
  (image_generation_disabled e = false ->
   nothing_selected e = true ->
   gen_calls (fst (run h (generate_image (init e dir) p))) = [] /\
   (h _ (AgentSearch (get_image_prompt p true) (language p)) = [] ->
    snd (run h (generate_image (init e dir) p)) = Ok (ResultStr placeholder_path))).
Proof.
  split.
  - intros Hoff. unfold generate_image, init. cbn. rewrite Hoff. reflexivity.
  - intros Hon Hnone.
    destruct (nothing_selected_flags e dir Hnone) as [Hstock Hfunc].
    unfold generate_image. rewrite Hstock.
    cbn [is_image_generation_disabled image_gen_func init].
    rewrite Hon, Hfunc. cbn -[get_image_prompt].
    destruct (h _ (AgentSearch _ _)) as [|first others];
      cbn; split; try reflexivity; discriminate.
Qed.

Lemma generate_image_without_backend_witness :
  run nothing_works (generate_image (init no_provider "/app/images") themed_prompt)
    = ([Ev (AgentSearch "cat, watercolor" "English") []],
       Ok (ResultStr placeholder_path)).
Proof.
  pose proof (proj2 (generate_image_without_backend no_provider "/app/images"
                       themed_prompt nothing_works) eq_refl eq_refl) as [_ Hres].
  specialize (Hres eq_refl).
  destruct (run nothing_works
              (generate_image (init no_provider "/app/images") themed_prompt))
    as [t res] eqn:E.
  cbn [snd] in Hres. rewrite Hres. f_equal.
  apply (f_equal fst) in E. cbn [fst] in E. rewrite <- E. reflexivity.
Defined.

(** X2. [generate_image] never raises.  A string it returns is the
    placeholder path or an http URL the generation function produced; an
    asset it returns is either the first hit of the agent search, carrying
    all hits as candidates, or a non-empty, non-http path the generation
    function produced and the file system confirmed. *)
Theorem generate_image_result (self : service) (p : ImagePrompt) (h : handler) :
  let composed := get_image_prompt p (negb (is_stock_provider_selected self)) in
  let hits := h _ (AgentSearch composed (language p)) in
  exists res,
    snd (run h (generate_image self p)) = Ok res /\
    match res with
    | ResultStr s =>
        s = placeholder_path \/
        (starts_with "http" s = true /\
         exists f dir, image_gen_func self = Some f /\
                       h _ (ImageGen f composed dir) = Ok (Some s))
    | ResultAsset a =>
        is_uploaded a = false /\
        ((extras a = SearchExtras (prompt p) hits /\ hd_error hits = Some (path a)) \/
         (extras a = GeneratedExtras (prompt p) (theme_prompt p) /\
          hits = [] /\
          h _ (PathExists (path a)) = true /\
          starts_with "http" (path a) = false /\
          path a <> ""%string /\
          exists f dir, image_gen_func self = Some f /\
                        h _ (ImageGen f composed dir) = Ok (Some (path a))))
    end.
Proof.
  cbn zeta. unfold generate_image.
  destruct (is_image_generation_disabled self);
    [eexists; split; [reflexivity | now left] |].
  cbn -[starts_with String.eqb get_image_prompt].
  destruct (h _ (AgentSearch _ _)) as [|first others] eqn:Ehits;
    cbn -[starts_with String.eqb get_image_prompt].
  2: { eexists. split; [reflexivity |]. cbn. split; [reflexivity |]. left. now split. }
  destruct (image_gen_func self) as [f|] eqn:Ef;
    cbn -[starts_with String.eqb get_image_prompt];
    [| eexists; split; [reflexivity | now left]].
  unfold generate_with. cbn -[starts_with String.eqb get_image_prompt].
  destruct (h _ (ImageGen f _ _)) as [[image_path|]|err] eqn:Egen;
    cbn -[starts_with String.eqb get_image_prompt];
    try (eexists; split; [reflexivity | now left]).
  destruct (String.eqb_spec image_path "") as [->|Hne];
    cbn -[starts_with String.eqb get_image_prompt];
    [eexists; split; [reflexivity | now left] |].
  destruct (starts_with "http" image_path) eqn:Ehttp;
    cbn -[starts_with String.eqb get_image_prompt].
  { eexists. split; [reflexivity |]. right. split; [exact Ehttp |].
    eexists _, _. split; [reflexivity | exact Egen]. }
  destruct (h _ (PathExists image_path)) eqn:Eexists;
    cbn -[starts_with String.eqb get_image_prompt];
    [| eexists; split; [reflexivity | now left]].
  eexists. split; [reflexivity |]. cbn -[starts_with].
  split; [reflexivity |]. right.
  repeat (split; [first [reflexivity | assumption] |]).
  eexists _, _. split; [reflexivity | exact Egen].
Qed.

(** X3. The generation function is called at most once, and only when
    generation is enabled and the agent search came back empty. *)
Theorem generate_image_searches_first (self : service) (p : ImagePrompt) (h : handler) :
  (length (gen_calls (fst (run h (generate_image self p)))) <= 1)%nat /\
  (gen_calls (fst (run h (generate_image self p))) <> [] ->
   is_image_generation_disabled self = false /\
   h _ (AgentSearch (get_image_prompt p (negb (is_stock_provider_selected self)))
                    (language p)) = []).
Proof.
  unfold generate_image.
  destruct (is_image_generation_disabled self); [cbn; split; [lia | congruence] |].
  cbn -[starts_with String.eqb get_image_prompt].
  destruct (h _ (AgentSearch _ _)) as [|first others] eqn:Ehits;
    cbn -[starts_with String.eqb get_image_prompt]; [| split; [lia | congruence]].
  destruct (image_gen_func self) as [f|];
    cbn -[starts_with String.eqb get_image_prompt]; [| split; [lia | congruence]].
  unfold generate_with. cbn -[starts_with String.eqb get_image_prompt].
  destruct (h _ (ImageGen f _ _)) as [[image_path|]|err];
    cbn -[starts_with String.eqb get_image_prompt]; try (split; [lia | now split]).
  destruct (String.eqb image_path "");
    cbn -[starts_with String.eqb get_image_prompt]; try (split; [lia | now split]).
  destruct (starts_with "http" image_path);
    cbn -[starts_with String.eqb get_image_prompt]; try (split; [lia | now split]).
  destruct (h _ (PathExists image_path)); cbn; split; first [lia | now split].
Qed.

Lemma generate_image_searches_first_witness :
  is_image_generation_disabled (init dalle3_env "/app/images") = false /\
  nothing_works _ (AgentSearch
                     (get_image_prompt themed_prompt
                        (negb (is_stock_provider_selected (init dalle3_env "/app/images"))))
                     (language themed_prompt)) = [].
Proof.
  apply (proj2 (generate_image_searches_first (init dalle3_env "/app/images")
                  themed_prompt nothing_works)).
  vm_compute. discriminate.
Defined.

Lemma stock_func_of_env (e : provider_env) (f : gen_func) :
  get_image_gen_func e false = Some f ->
  is_stock_func f = pixels_selected e || pixabay_selected e.
Proof.
  unfold get_image_gen_func.
  destruct (pixabay_selected e), (pixels_selected e), (gemini_flash_selected e),
    (nanobanana_pro_selected e), (dalle3_selected e), (gpt_image_1_5_selected e),
    (comfyui_selected e); intros Hf; inversion Hf; reflexivity.
Qed.

(** X4. For a service built by [init], the calling convention always fits
    the selected function: the stock functions (Pexels, Pixabay) are called
    with the prompt alone, every other function with the prompt and the
    service's output directory. *)
Theorem generate_image_calling_convention (e : provider_env) (dir : string)
    (p : ImagePrompt) (h : handler) :
  Forall (fun call => snd call = if is_stock_func (fst call) then None else Some dir)
         (gen_directories (fst (run h (generate_image (init e dir) p)))).
Proof.
  unfold generate_image.
  cbn [is_image_generation_disabled image_gen_func init].
  destruct (image_generation_disabled e) eqn:Hoff; [constructor |].
  destruct (get_image_gen_func e false) as [f|] eqn:Ef.
  2: { cbn -[starts_with String.eqb get_image_prompt is_stock_provider_selected].
       destruct (h _ (AgentSearch _ _)); constructor. }
  cbn -[starts_with String.eqb get_image_prompt is_stock_provider_selected].
  destruct (h _ (AgentSearch _ _)) as [|first others];
    cbn -[starts_with String.eqb get_image_prompt is_stock_provider_selected];
    [| constructor].
  pose proof (stock_func_of_env e f Ef) as Hstock.
  unfold generate_with.
  assert (Hsame : is_stock_provider_selected (init e dir) = is_stock_func f)
    by (rewrite Hstock; reflexivity).
  rewrite !Hsame.
  cbn -[starts_with String.eqb get_image_prompt].
  destruct (h _ (ImageGen f _ _)) as [[image_path|]|err];
    cbn -[starts_with String.eqb get_image_prompt];
    try (repeat constructor; cbn; now destruct (is_stock_func f)).
  destruct (String.eqb image_path "");
    cbn -[starts_with String.eqb get_image_prompt];
    try (repeat constructor; cbn; now destruct (is_stock_func f)).
  destruct (starts_with "http" image_path);
    cbn -[starts_with String.eqb get_image_prompt];
    try (repeat constructor; cbn; now destruct (is_stock_func f)).
  destruct (h _ (PathExists image_path)); cbn;
    repeat constructor; cbn; now destruct (is_stock_func f).
Qed.

(** *** Aggregator *)

Lemma four_groups_length (l : list ImageAlternative) :
  (length (List.filter (has_source "unsplash") l) +
   length (List.filter (has_source "pexels") l) +
   length (List.filter (has_source "wikimedia") l) +
   length (List.filter (has_source "pixabay") l) <= length l)%nat.
Proof.
  induction l as [|img l IH]; [cbn; lia |].
  cbn [List.filter].
  destruct (has_source "unsplash" img) eqn:Eu, (has_source "pexels" img) eqn:Ep,
    (has_source "wikimedia" img) eqn:Ew, (has_source "pixabay" img) eqn:Ex;
    cbn [length]; try lia; exfalso; unfold has_source in *;
    repeat match goal with
           | H : String.eqb _ _ = true |- _ => apply String.eqb_eq in H
           end; congruence.
Qed.

Lemma collect_length (r : gather_results) :
  length (collect r) =
    (length (slot (r_unsplash r)) + length (slot (r_wikimedia r)) +
     length (slot (r_pexels r)) + length (slot (r_pixabay r)))%nat.
Proof. unfold collect. rewrite !length_app, !length_map. lia. Qed.

(** X5. Whatever the adapters deliver (well tagged or not), the aggregator
    returns at most ten candidates and never more than were delivered. *)
Theorem search_multiple_sources_length (r : gather_results) :
  (length (search_multiple_sources r) <= 10)%nat /\
  (length (search_multiple_sources r) <=
     length (slot (r_unsplash r)) + length (slot (r_wikimedia r)) +
     length (slot (r_pexels r)) + length (slot (r_pixabay r)))%nat.
Proof.
  unfold search_multiple_sources.
  split; [rewrite length_take; lia |].
  rewrite length_take, <- collect_length.
  etransitivity; [apply Nat.le_min_r |].
  unfold interleaved. rewrite interleave_rounds.
  rewrite (Permutation_length
             (rounds_perm _ _
                (proj2 (List.Forall_map _ _ _)
                   (proj2 (List.Forall_forall _ _)
                      (fun s _ => group_length_bound (collect r) s))))).
  cbn [map source_order concat]. rewrite !length_app. cbn [length].
  pose proof (four_groups_length (collect r)). lia.
Qed.

(** X6. Every candidate the aggregator returns was delivered by an adapter
    that did not raise, and carries one of the four search sources. *)
Theorem search_multiple_sources_provenance (r : gather_results)
    (img : ImageAlternative) :
  In img (search_multiple_sources r) ->
  (exists a, In img (candidates a r)) /\
  In (source img) ["unsplash"; "pexels"; "wikimedia"; "pixabay"]%string.
Proof.
  intros Hin. split; [| exact (search_multiple_sources_sources r img Hin)].
  apply firstn_In in Hin. unfold interleaved in Hin. rewrite interleave_rounds in Hin.
  unfold rounds in Hin. apply in_flat_map in Hin. destruct Hin as (i & _ & Hin).
  unfold round in Hin. apply in_flat_map in Hin. destruct Hin as (row & Hrow & Hin).
  apply in_map_iff in Hrow. destruct Hrow as (s & <- & _).
  destruct (List.filter (has_source s) (collect r) !! i) as [x|] eqn:E; [| destruct Hin].
  destruct Hin as [<-|[]].
  apply list_elem_of_lookup_2 in E. apply list_elem_of_In in E.
  apply List.filter_In in E.
  destruct E as [Hcollect _]. unfold collect in Hcollect.
  repeat (apply in_app_or in Hcollect; destruct Hcollect as [Hcollect|Hcollect]).
  - now exists Unsplash.
  - now exists Wikimedia.
  - now exists Pexels.
  - now exists Pixabay.
Qed.

Lemma search_multiple_sources_provenance_witness :
  (exists a, In (sample_stock "pexels" "p1") (candidates a sample_results)) /\
  In (source (sample_stock "pexels" "p1"))
     ["unsplash"; "pexels"; "wikimedia"; "pixabay"]%string.
Proof.
  apply (search_multiple_sources_provenance sample_results).
  vm_compute. right. left. reflexivity.
Defined.

(** *** The entry point and the classifier *)






Lemma coerce_decision_generate (d : json) :
  coerce_decision d = generate -> d = JStr "generate".
Proof.
  unfold coerce_decision. destruct (is_str "generate" d) eqn:E.
  - intros _. destruct d; cbn in E; try discriminate.
    apply String.eqb_eq in E. now subst.
  - destruct (is_str "search" d); discriminate.
Qed.

(** X8. The classifier says [generate] only when no keyword matched and the
    language model's answer held a fragment that decodes to an object whose
    [decision] is the string "generate"; and it consults the language model
    at most once, about the prompt it was given, and never when a keyword
    matched. *)
Theorem decide_image_source_generate_only_if `{Runtime} (prompt : string)
    (h : handler) :
  (fst (snd (run h (decide_image_source prompt))) = generate ->
   matched_keywords (str_lower prompt) = [] /\
   exists text fragment fields,
     h _ (LLMGenerate prompt) = Ok (Some text) /\
     re_search_object text = Some fragment /\
     json_loads fragment = Ok (JObj fields) /\
     assoc "decision" fields = Some (JStr "generate") /\
     snd (snd (run h (decide_image_source prompt))) =
       match assoc "reason" fields with
       | Some reason => reason
       | None => JStr "Default decision"
       end) /\
  (llm_prompts (fst (run h (decide_image_source prompt))) =
     match matched_keywords (str_lower prompt) with
     | [] => [prompt]
     | _ :: _ => []
     end).
Proof.
  destruct (matched_keywords (str_lower prompt)) as [|kw rest] eqn:Ematch.
  - rewrite (decide_image_source_llm_path prompt h Ematch). cbn [fst snd].
    split; [| reflexivity].
    intros Hgen. split; [reflexivity |].
    destruct (h _ (LLMGenerate prompt)) as [[text|]|e]; cbn in Hgen; try discriminate.
    destruct (re_search_object text) as [fragment|] eqn:Efrag; cbn in Hgen;
      try discriminate.
    destruct (json_loads fragment) as [parsed|e] eqn:Eload; cbn in Hgen;
      try discriminate.
    destruct parsed as [| | | | |fields]; cbn in Hgen; try discriminate.
    exists text, fragment, fields.
    split; [reflexivity |]. split; [exact Efrag |]. split; [exact Eload |].
    apply coerce_decision_generate in Hgen.
    cbn. rewrite Efrag. cbn. rewrite Eload. cbn.
    destruct (assoc "decision" fields) as [d|]; [| discriminate].
    subst d. split; reflexivity.
  - unfold decide_image_source. rewrite Ematch. cbn.
    split; [discriminate | reflexivity].
Qed.

Lemma decide_image_source_generate_only_if_witness :
  matched_keywords (@str_lower sample_runtime "fantasy dragon castle") = [] /\
  exists text fragment fields,
    says_generate _ (LLMGenerate "fantasy dragon castle") = Ok (Some text) /\
    re_search_object text = Some fragment /\
    @json_loads sample_runtime fragment = Ok (JObj fields) /\
    assoc "decision" fields = Some (JStr "generate") /\
    snd (snd (run says_generate
                (@decide_image_source sample_runtime "fantasy dragon castle"))) =
      match assoc "reason" fields with
      | Some reason => reason
      | None => JStr "Default decision"
      end.
Proof.
  apply (proj1 (@decide_image_source_generate_only_if sample_runtime
                  "fantasy dragon castle" says_generate)).
  vm_compute. reflexivity.
Defined.

(** *** The regular expression of the classifier *)

Lemma append_cons (x : ascii) (a b : string) :
  (String x a ++ b = String x (a ++ b))%string.
Proof. reflexivity. Qed.

Lemma append_nil (b : string) : ("" ++ b = b)%string.
Proof. reflexivity. Qed.

Lemma append_assoc_str (a b c : string) : ((a ++ b) ++ c = a ++ (b ++ c))%string.
Proof.
  induction a as [|x a IH]; [reflexivity |].
  rewrite !append_cons. f_equal. exact IH.
Qed.

Lemma until_close_sound (s body : string) :
  until_close s = Some body ->
  has_char "}" body = false /\ exists post, s = (body ++ "}" ++ post)%string.
Proof.
  revert body. induction s as [|c rest IH]; intros body Hs; [discriminate |].
  cbn [until_close] in Hs. destruct (Ascii.eqb_spec c "}") as [->|Hc].
  - injection Hs as <-. split; [reflexivity |]. now exists rest.
  - destruct (until_close rest) as [b|]; [| discriminate].
    injection Hs as <-. destruct (IH b eq_refl) as (Hfree & post & ->).
    split.
    + cbn [has_char]. destruct (Ascii.eqb_spec c "}"); [contradiction | exact Hfree].
    + now exists post.
Qed.

Lemma until_close_complete (body post : string) :
  has_char "}" body = false ->
  until_close (body ++ "}" ++ post) = Some body.
Proof.
  induction body as [|c body IH]; intros Hfree; [reflexivity |].
  cbn [has_char] in Hfree. apply orb_false_iff in Hfree. destruct Hfree as [Hc Hfree].
  rewrite append_cons. cbn [until_close]. rewrite Hc, (IH Hfree). reflexivity.
Qed.

(** X9. The fragment the classifier hands to the decoder is exactly what the
    pattern describes: it occurs in the answer, opens with a brace, closes
    with the first closing brace after it and holds at least one character
    in between.  And the search fails only when the answer holds no such
    fragment anywhere. *)
Theorem re_search_object_spec (s : string) :
  (forall m, re_search_object s = Some m ->
     exists pre inner post,
       s = (pre ++ m ++ post)%string /\
       m = ("{" ++ inner ++ "}")%string /\
       inner <> ""%string /\
       has_char "}" inner = false) /\
  (re_search_object s = None ->
     forall pre inner post,
       inner <> ""%string ->
       has_char "}" inner = false ->
       s <> (pre ++ "{" ++ inner ++ "}" ++ post)%string).
Proof.
  split.
  - induction s as [|c rest IH]; intros m Hm; [discriminate |].
    cbn [re_search_object] in Hm.
    assert (Hlater : re_search_object rest = Some m ->
              exists pre inner post,
                String c rest = (pre ++ m ++ post)%string /\
                m = ("{" ++ inner ++ "}")%string /\
                inner <> ""%string /\ has_char "}" inner = false).
    { intros Hrest. destruct (IH m Hrest) as (pre & inner & post & -> & Hshape).
      exists (String c pre), inner, post. split; [reflexivity | exact Hshape]. }
    destruct (Ascii.eqb_spec c "{") as [->|Hc]; [| now apply Hlater].
    destruct (until_close rest) as [[|b inner]|] eqn:Eclose; try now apply Hlater.
    injection Hm as <-.
    destruct (until_close_sound rest (String b inner) Eclose) as (Hfree & post & ->).
    exists ""%string, (String b inner), post.
    split; [| split; [reflexivity | split; [discriminate | exact Hfree]]].
    rewrite <- (append_assoc_str (String b inner) "}" post). reflexivity.
  - intros Hnone pre. revert s Hnone.
    induction pre as [|c pre IH]; intros s Hnone inner post Hne Hfree Hs; subst s.
    + rewrite append_nil, append_cons, append_nil in Hnone.
      cbn [re_search_object] in Hnone.
      rewrite (until_close_complete inner post Hfree) in Hnone.
      change (Ascii.eqb "{" "{") with true in Hnone. cbn iota in Hnone.
      destruct inner; [contradiction | discriminate].
    + rewrite append_cons in Hnone. cbn [re_search_object] in Hnone.
      destruct (Ascii.eqb c "{").
      * destruct (until_close (pre ++ "{" ++ inner ++ "}" ++ post)) as [[|b i]|];
          try discriminate; eapply IH; eauto.
      * eapply IH; eauto.
Qed.

Lemma re_search_object_spec_witness :
  exists pre inner post,
    ("Sure: {a} and {b}" = pre ++ "{a}" ++ post)%string /\
    ("{a}" = "{" ++ inner ++ "}")%string /\
    inner <> ""%string /\
    has_char "}" inner = false.
Proof.
  apply (proj1 (re_search_object_spec "Sure: {a} and {b}") "{a}"). reflexivity.
Defined.

(** *** The agent search and its fallback chain *)

Section AgentChain.
Import OpenAIAgent.
Variable strip : string -> string.
Variable world : provider -> json -> list string.

(** A later helper only ever adds to the calls made so far. *)
Lemma or_else_keeps_first (p : provider) (q : json) (acc : list call * list string)
    (first : call) :
  hd_error (fst acc) = Some first ->
  hd_error (fst (or_else world p q acc)) = Some first.
Proof.
  unfold or_else. destruct acc as [made found]. cbn [fst snd].
  destruct found; cbn [fst]; [| trivial].
  destruct made; [discriminate | trivial].
Qed.

(** Brave is always asked, and asked first. *)
Lemma search_chain_starts_with_brave (search_query search_query_en : json) :
  hd_error (fst (search_chain strip world search_query search_query_en))
  = Some (via_brave, search_query).
Proof.
  unfold search_chain. repeat apply or_else_keeps_first. reflexivity.
Qed.

(** X10. The fallback chain consults the helpers in one fixed order (Brave,
    Wikimedia, Pexels, Unsplash, Pixabay, DuckDuckGo), stops at the first
    one that finds something and returns exactly its URLs; helpers after it
    are not called, and the result is empty only when all six were asked. *)
Theorem search_chain_first_hit (search_query search_query_en : json) :
  exists tried last rest,
    plan strip search_query search_query_en = tried ++ last :: rest /\
    fst (search_chain strip world search_query search_query_en) = tried ++ [last] /\
    Forall (fun c : call => world (fst c) (snd c) = []) tried /\
    snd (search_chain strip world search_query search_query_en)
      = world (fst last) (snd last) /\
    (snd (search_chain strip world search_query search_query_en) = [] -> rest = []).
Proof.
  unfold search_chain, plan, or_else.
  destruct (world via_brave search_query) as [|u1 l1] eqn:E1; cbn [fst snd app].
  2: { exists [], (via_brave, search_query). eexists.
       split; [reflexivity |]. split; [reflexivity |]. split; [constructor |].
       cbn [fst snd]. rewrite E1. split; [reflexivity | discriminate]. }
  destruct (world via_wikimedia (fallback_query strip search_query search_query_en))
    as [|u2 l2] eqn:E2; cbn [fst snd app].
  2: { exists [(via_brave, search_query)],
         (via_wikimedia, fallback_query strip search_query search_query_en).
       eexists. split; [reflexivity |]. split; [reflexivity |].
       split; [repeat constructor; exact E1 |].
       cbn [fst snd]. rewrite E2. split; [reflexivity | discriminate]. }
  destruct (world via_pexels (py_or search_query_en search_query))
    as [|u3 l3] eqn:E3; cbn [fst snd app].
  2: { exists [(via_brave, search_query);
               (via_wikimedia, fallback_query strip search_query search_query_en)],
         (via_pexels, py_or search_query_en search_query).
       eexists. split; [reflexivity |]. split; [reflexivity |].
       split; [repeat constructor; assumption |].
       cbn [fst snd]. rewrite E3. split; [reflexivity | discriminate]. }
  destruct (world via_unsplash (py_or search_query_en search_query))
    as [|u4 l4] eqn:E4; cbn [fst snd app].
  2: { exists [(via_brave, search_query);
               (via_wikimedia, fallback_query strip search_query search_query_en);
               (via_pexels, py_or search_query_en search_query)],
         (via_unsplash, py_or search_query_en search_query).
       eexists. split; [reflexivity |]. split; [reflexivity |].
       split; [repeat constructor; assumption |].
       cbn [fst snd]. rewrite E4. split; [reflexivity | discriminate]. }
  destruct (world via_pixabay (py_or search_query_en search_query))
    as [|u5 l5] eqn:E5; cbn [fst snd app].
  2: { exists [(via_brave, search_query);
               (via_wikimedia, fallback_query strip search_query search_query_en);
               (via_pexels, py_or search_query_en search_query);
               (via_unsplash, py_or search_query_en search_query)],
         (via_pixabay, py_or search_query_en search_query).
       eexists. split; [reflexivity |]. split; [reflexivity |].
       split; [repeat constructor; assumption |].
       cbn [fst snd]. rewrite E5. split; [reflexivity | discriminate]. }
  exists [(via_brave, search_query);
          (via_wikimedia, fallback_query strip search_query search_query_en);
          (via_pexels, py_or search_query_en search_query);
          (via_unsplash, py_or search_query_en search_query);
          (via_pixabay, py_or search_query_en search_query)],
    (via_duckduckgo, py_or search_query_en search_query), [].
  split; [reflexivity |]. split; [reflexivity |].
  split; [repeat constructor; assumption |].
  split; [reflexivity | reflexivity].
Qed.

(** X11. A search helper is called only when the agent answered with status
    200 and an object whose [action] is "search" and whose [search_query] is
    truthy, and then Brave is asked first, with that query as it stands.  In
    every other case (an exception, another status, an undecodable body, the
    action "generate" or an unknown one, no query) the function answers the
    empty list without calling any helper; and without a configured agent
    URL the agent itself is not contacted. *)
Theorem agent_search_only_on_request (agent_url : option string)
    (reply : outcome (Z * outcome json)) :
  (calls (search_via_openai_agent strip world reply) <> [] ->
   exists fields query,
     reply = Ok (200, Ok (JObj fields)) /\
     assoc "action" fields = Some (JStr "search") /\
     assoc "search_query" fields = Some query /\
     truthy query = true /\
     hd_error (calls (search_via_openai_agent strip world reply))
       = Some (via_brave, query)) /\
  (calls (search_via_openai_agent strip world reply) = [] ->
   urls (search_via_openai_agent strip world reply) = []) /\
  (posted (OpenAIAgent.search_multiple_sources strip world agent_url reply) = true ->
   exists url, agent_url = Some url /\ url <> ""%string).
Proof.
  split; [| split].
  - unfold search_via_openai_agent.
    destruct reply as [[code decoded]|e]; cbn; [| congruence].
    destruct (Z.eqb_spec code 200) as [->|Hcode]; cbn; [| congruence].
    destruct decoded as [data|e]; cbn; [| congruence].
    destruct data as [| | | | |fields]; cbn; try congruence.
    destruct (assoc "action" fields) as [action|] eqn:Eaction; cbn; [| congruence].
    destruct (is_str "generate" action) eqn:Egen; cbn; [congruence |].
    destruct (is_str "search" action) eqn:Esearch; cbn; [| congruence].
    destruct (assoc "search_query" fields) as [query|] eqn:Equery; cbn; [| congruence].
    destruct (truthy query) eqn:Etruthy; cbn; [| congruence].
    intros _. exists fields, query.
    split; [reflexivity |]. split.
    { rewrite Eaction. destruct action; cbn in Esearch; try discriminate.
      apply String.eqb_eq in Esearch. now subst. }
    split; [exact Equery |]. split; [exact Etruthy |].
    pose proof (search_chain_starts_with_brave query
                  match assoc "search_query_en" fields with
                  | Some x => x
                  | None => JNull
                  end) as Hfirst.
    destruct (search_chain strip world query _) as [made found].
    exact Hfirst.
  - unfold search_via_openai_agent.
    destruct reply as [[code decoded]|e]; cbn; [| reflexivity].
    destruct (code =? 200); cbn; [| reflexivity].
    destruct decoded as [data|e]; cbn; [| reflexivity].
    destruct data as [| | | | |fields]; cbn; try reflexivity.
    destruct (is_str "generate" _); cbn; [reflexivity |].
    destruct (is_str "search" _); cbn; [| reflexivity].
    destruct (truthy _); cbn; [| reflexivity].
    pose proof (search_chain_starts_with_brave
                  match assoc "search_query" fields with Some x => x | None => JNull end
                  match assoc "search_query_en" fields with Some x => x | None => JNull end)
      as Hfirst.
    destruct (search_chain strip world _ _) as [made found].
    cbn [fst] in Hfirst. intros Hnil. change (made = []) in Hnil.
    subst made. discriminate Hfirst.
  - unfold OpenAIAgent.search_multiple_sources.
    destruct agent_url as [url|]; [| discriminate].
    destruct (String.eqb_spec url ""); [discriminate |].
    intros _. now exists url.
Qed.

End AgentChain.

Lemma agent_fallback_example :
  OpenAIAgent.search_via_openai_agent lower_ascii OpenAIAgent.stock_only_world
    (OpenAIAgent.search_reply (JStr "маятник") (JStr "pendulum")) =
  {| OpenAIAgent.posted := true;
     OpenAIAgent.calls :=
       [(OpenAIAgent.via_brave, JStr "маятник");
        (OpenAIAgent.via_wikimedia, JStr "pendulum");
        (OpenAIAgent.via_pexels, JStr "pendulum")];
     OpenAIAgent.urls := ["https://images.pexels.com/1.jpg"] |}.
Proof. vm_compute. reflexivity. Qed.

Lemma agent_search_only_on_request_witness :
  exists fields query,
    OpenAIAgent.search_reply (JStr "маятник") (JStr "pendulum")
      = Ok (200, Ok (JObj fields)) /\
    assoc "action" fields = Some (JStr "search") /\
    assoc "search_query" fields = Some query /\
    truthy query = true /\
    hd_error (OpenAIAgent.calls
                (OpenAIAgent.search_via_openai_agent lower_ascii
                   OpenAIAgent.stock_only_world
                   (OpenAIAgent.search_reply (JStr "маятник") (JStr "pendulum"))))
      = Some (OpenAIAgent.via_brave, query).
Proof.
  apply (proj1 (agent_search_only_on_request lower_ascii OpenAIAgent.stock_only_world
                  None (OpenAIAgent.search_reply (JStr "маятник") (JStr "pendulum")))).
  vm_compute. discriminate.
Defined.

(** *** Locale selection *)

Lemma contains_cons (needle : string) (c : ascii) (hay : string) :
  contains needle hay = true -> contains needle (String c hay) = true.
Proof.
  intros Hin. cbn [contains].
  destruct (starts_with needle (String c hay)); [reflexivity | exact Hin].
Qed.

Lemma starts_with_app (a b s : string) :
  starts_with (a ++ b) s = true -> starts_with a s = true.
Proof.
  revert s. induction a as [|x a IH]; intros s Hs; [now destruct s |].
  rewrite append_cons in Hs. destruct s as [|y s]; cbn [starts_with] in *;
    [discriminate |].
  destruct (Ascii.eqb x y); [now apply IH | discriminate].
Qed.

(** A text that holds a longer needle holds every prefix of it. *)
Lemma contains_prefix (a b hay : string) :
  contains (a ++ b) hay = true -> contains a hay = true.
Proof.
  induction hay as [|c hay IH]; cbn [contains]; intros Hin.
  - destruct (starts_with (a ++ b) "") eqn:E; [| discriminate].
    now rewrite (starts_with_app a b "" E).
  - destruct (starts_with (a ++ b) (String c hay)) eqn:E.
    + now rewrite (starts_with_app a b _ E).
    + rewrite (IH Hin). now destruct (starts_with a (String c hay)).
Qed.

Section LocaleFacts.
Import Locale.
Context `{Runtime}.
Variable strip : string -> string.

(** X12. For every language the two helpers choose the same locale: both
    Russian, both Kazakh, or both the English default.  A language that
    looks Russian is treated as Russian even if it also looks Kazakh, and
    the test for the longer Kazakh word never decides anything the test for
    its first three letters has not already decided. *)
Theorem locale_helpers_agree (language : option string) :
  (let p := _brave_search_language_params strip language in
   let region := _duckduckgo_region strip language in
   (country p = "RU" /\ search_lang p = "ru" /\ ui_lang p = "ru-RU" /\
    region = "ru-ru") \/
   (country p = "KZ" /\ search_lang p = "kk" /\ ui_lang p = "kk-KZ" /\
    region = "kz-ru") \/
   (country p = "US" /\ search_lang p = "en" /\ ui_lang p = "en-US" /\
    region = "us-en"))%string /\
  (looks_russian (normalize strip language) = true ->
   _duckduckgo_region strip language = "ru-ru"%string) /\
  (forall l, looks_kazakh l =
             contains "kazakh" l || contains "қаз" l || starts_with "kk" l).
Proof.
  split; [| split].
  - cbn zeta. unfold _brave_search_language_params, _duckduckgo_region.
    destruct (looks_russian (normalize strip language)).
    + left. repeat split.
    + destruct (looks_kazakh (normalize strip language)).
      * right. left. repeat split.
      * right. right. repeat split.
  - intros Hru. unfold _duckduckgo_region. now rewrite Hru.
  - intros l. unfold looks_kazakh.
    destruct (contains "қазақ" l) eqn:Elong; [| now rewrite !orb_false_r].
    assert (Hshort : contains "қаз" l = true).
    { apply (contains_prefix "қаз" "ақ"). exact Elong. }
    rewrite Hshort. now rewrite !orb_true_r.
Qed.

End LocaleFacts.

Lemma locale_helpers_agree_witness :
  @Locale._duckduckgo_region sample_runtime Locale.lstrip_spaces
    (Some "  Russian (Kazakhstan)") = "ru-ru"%string.
Proof.
  apply (proj1 (proj2 (@locale_helpers_agree sample_runtime Locale.lstrip_spaces
                         (Some "  Russian (Kazakhstan)")))).
  vm_compute. reflexivity.
Defined.

(** *** URL helpers *)

Section StockUrls.
Import UrlHelpers.

Lemma keep_url_spec (v : json) (u : string) :
  In u (keep_url v) -> v = JStr u /\ u <> ""%string.
Proof.
  unfold keep_url. destruct v as [| | |s| |]; try (intros []).
  destruct (String.eqb_spec s "") as [->|Hne]; [intros [] |].
  intros [<-|[]]. now split.
Qed.

Lemma keep_url_length (v : json) : (length (keep_url v) <= 1)%nat.
Proof.
  unfold keep_url. destruct v as [| | |s| |]; cbn; try lia.
  destruct (String.eqb s ""); cbn; lia.
Qed.

Lemma collect_urls_spec (one : json -> outcome (list string)) (items : list json)
    (found : list string) :
  collect_urls one items = Ok found ->
  (forall u, In u found ->
     exists item here, In item items /\ one item = Ok here /\ In u here) /\
  ((forall item here, one item = Ok here -> (length here <= 1)%nat) ->
   (length found <= length items)%nat).
Proof.
  revert found. induction items as [|item rest IH]; intros found Hrun.
  - injection Hrun as <-. split; [intros u [] | intros _; cbn; lia].
  - cbn [collect_urls] in Hrun.
    destruct (one item) as [here|e] eqn:Ehere; [| discriminate].
    cbn [mbind outcome_bind obind] in Hrun.
    destruct (collect_urls one rest) as [later|e]; [| discriminate].
    cbn in Hrun. injection Hrun as <-.
    destruct (IH later eq_refl) as [IHin IHlen]. split.
    + intros u Hu. apply in_app_or in Hu. destruct Hu as [Hu|Hu].
      * exists item, here. split; [now left | now split].
      * destruct (IHin u Hu) as (it & h' & Hit & Hone & Hin).
        exists it, h'. split; [now right | now split].
    + intros Hone. rewrite length_app. cbn [length].
      pose proof (Hone item here Ehere) as Hhere. specialize (IHlen Hone). lia.
Qed.

(** What a non-empty answer of the shared body reveals about the reply. *)
Lemma stock_urls_spec (list_key : string) (one : json -> outcome (list string))
    (api_key : option string) (r : reply) (u : string) :
  (forall s, one (JStr s) = Ok []) ->
  In u (stock_urls list_key one api_key r) ->
  missing_key api_key = false /\
  exists fields listed found,
    r = Ok (200, Ok (JObj fields)) /\
    assoc list_key fields = Some (JArr listed) /\
    collect_urls one listed = Ok found /\
    stock_urls list_key one api_key r = found.
Proof.
  intros Hstr. unfold stock_urls.
  destruct (missing_key api_key); [intros [] |].
  destruct r as [[code decoded]|e]; cbn; [| intros []].
  destruct (Z.eqb_spec code 200) as [->|Hcode]; cbn; [| intros []].
  destruct decoded as [data|e]; cbn; [| intros []].
  destruct data as [| | | | |fields]; cbn; try (intros []).
  assert (Hskip : forall l : list json,
            (forall x, In x l -> exists s, x = JStr s) ->
            collect_urls one l = Ok []).
  { induction l as [|x l IHl]; intros Hall; [reflexivity |].
    destruct (Hall x (or_introl eq_refl)) as [s ->].
    cbn [collect_urls]. rewrite Hstr. cbn.
    rewrite IHl; [reflexivity |]. intros y Hy. apply Hall. now right. }
  destruct (assoc list_key fields) as [listed|] eqn:Elisted; [| intros []].
  unfold py_or. destruct (truthy listed) eqn:Etruthy; [| intros []].
  destruct listed as [| | |s|items|dict]; cbn; try (intros []).
  - rewrite Hskip; [intros [] |]. clear. induction s as [|c s IH]; cbn; [intros x [] |].
    intros x [<-|Hx]; [eauto | now apply IH].
  - destruct (collect_urls one items) as [found|e] eqn:Efound; cbn; [| intros []].
    intros _. split; [reflexivity |]. exists fields, items, found.
    repeat split; assumption.
  - rewrite Hskip; [intros [] |]. intros x Hx. apply in_map_iff in Hx.
    destruct Hx as (kv & <- & _). eauto.
Qed.

Lemma pexels_url_spec (photo : json) (here : list string) (u : string) :
  pexels_url photo = Ok here -> In u here ->
  u <> ""%string /\ pexels_choice photo = Some (JStr u).
Proof.
  unfold pexels_url, pexels_choice.
  destruct photo as [| | | | |fields]; try (intros [= <-] []). cbn.
  unfold py_or at 1.
  destruct (assoc "src" fields) as [src|]; cbn.
  2: { intros [= <-] []. }
  destruct (truthy src) eqn:Esrc.
  2: { cbn. intros [= <-] []. }
  destruct src as [| | | | |src]; try (intros [= <-] []). cbn. unfold py_or.
  destruct (assoc "large" src) as [large|]; cbn.
  - destruct (truthy large) eqn:Elarge.
    + intros [= <-] Hu. apply keep_url_spec in Hu. destruct Hu as [-> Hne].
      now split.
    + destruct (assoc "original" src) as [original|]; intros [= <-] Hu.
      * apply keep_url_spec in Hu. destruct Hu as [-> Hne]. now split.
      * destruct Hu.
  - destruct (assoc "original" src) as [original|]; intros [= <-] Hu.
    + apply keep_url_spec in Hu. destruct Hu as [-> Hne]. now split.
    + destruct Hu.
Qed.

Lemma pexels_url_length (photo : json) (here : list string) :
  pexels_url photo = Ok here -> (length here <= 1)%nat.
Proof.
  unfold pexels_url. destruct photo as [| | | | |fields]; try (intros [= <-]; cbn; lia).
  cbn. destruct (py_or _ (JObj [])) as [| | | | |src]; try (intros [= <-]; cbn; lia).
  cbn. intros [= <-]. apply keep_url_length.
Qed.

(** X13. Every URL [_search_pexels_images] returns is a non-empty string and
    is, for one of the photos listed in a 200 reply, the [large] entry of
    its [src] or, when that entry is missing or falsy, the [original] entry.
    The helper returns at most one URL per listed photo, and nothing at all
    without an API key. *)
Theorem search_pexels_images_urls (api_key : option string) (r : reply) (u : string) :
  In u (_search_pexels_images api_key r) ->
  u <> ""%string /\
  missing_key api_key = false /\
  exists fields listed photo,
    r = Ok (200, Ok (JObj fields)) /\
    assoc "photos" fields = Some (JArr listed) /\
    In photo listed /\
    pexels_choice photo = Some (JStr u) /\
    (length (_search_pexels_images api_key r) <= length listed)%nat.
Proof.
  intros Hu. unfold _search_pexels_images in *.
  destruct (stock_urls_spec "photos" pexels_url api_key r u (fun s => eq_refl) Hu)
    as (Hkey & fields & listed & found & Hr & Hlisted & Hfound & Hsame).
  rewrite Hsame in Hu |- *.
  destruct (collect_urls_spec pexels_url listed found Hfound) as [Hin Hlen].
  destruct (Hin u Hu) as (photo & here & Hphoto & Hone & Hhere).
  destruct (pexels_url_spec photo here u Hone Hhere) as [Hne Hchoice].
  split; [exact Hne |]. split; [exact Hkey |].
  exists fields, listed, photo.
  repeat (split; [assumption |]). apply Hlen. exact pexels_url_length.
Qed.

Lemma search_pexels_images_urls_witness :
  "https://p/2.jpg"%string <> ""%string /\
  missing_key (Some "key") = false /\
  exists fields listed photo,
    sample_photos_reply = Ok (200, Ok (JObj fields)) /\
    assoc "photos" fields = Some (JArr listed) /\
    In photo listed /\
    pexels_choice photo = Some (JStr "https://p/2.jpg") /\
    (length (_search_pexels_images (Some "key") sample_photos_reply)
     <= length listed)%nat.
Proof.
  apply (search_pexels_images_urls (Some "key") sample_photos_reply).
  vm_compute. right. left. reflexivity.
Defined.

Lemma pixabay_url_spec (hit : json) (here : list string) (u : string) :
  pixabay_url hit = Ok here -> In u here ->
  u <> ""%string /\
  exists fields, hit = JObj fields /\ assoc "largeImageURL" fields = Some (JStr u).
Proof.
  unfold pixabay_url. destruct hit as [| | | | |fields]; try (intros [= <-] []).
  cbn. intros [= <-] Hu. apply keep_url_spec in Hu. destruct Hu as [Hv Hne].
  split; [exact Hne |]. exists fields. split; [reflexivity |].
  destruct (assoc "largeImageURL" fields); [now subst | discriminate].
Qed.

Lemma pixabay_url_length (hit : json) (here : list string) :
  pixabay_url hit = Ok here -> (length here <= 1)%nat.
Proof.
  unfold pixabay_url. destruct hit as [| | | | |fields]; try (intros [= <-]; cbn; lia).
  cbn. intros [= <-]. apply keep_url_length.
Qed.

(** X14. Every URL [_search_pixabay_images] returns is a non-empty string
    and is the [largeImageURL] of one of the hits listed in a 200 reply; the
    helper returns at most one URL per hit, and nothing without an API key. *)
Theorem search_pixabay_images_urls (api_key : option string) (r : reply) (u : string) :
  In u (_search_pixabay_images api_key r) ->
  u <> ""%string /\
  missing_key api_key = false /\
  exists fields listed hit,
    r = Ok (200, Ok (JObj fields)) /\
    assoc "hits" fields = Some (JArr listed) /\
    In (JObj hit) listed /\
    assoc "largeImageURL" hit = Some (JStr u) /\
    (length (_search_pixabay_images api_key r) <= length listed)%nat.
Proof.
  intros Hu. unfold _search_pixabay_images in *.
  destruct (stock_urls_spec "hits" pixabay_url api_key r u (fun s => eq_refl) Hu)
    as (Hkey & fields & listed & found & Hr & Hlisted & Hfound & Hsame).
  rewrite Hsame in Hu |- *.
  destruct (collect_urls_spec pixabay_url listed found Hfound) as [Hin Hlen].
  destruct (Hin u Hu) as (hit & here & Hhit & Hone & Hhere).
  destruct (pixabay_url_spec hit here u Hone Hhere) as (Hne & hf & -> & Hurl).
  split; [exact Hne |]. split; [exact Hkey |].
  exists fields, listed, hf.
  repeat (split; [assumption |]). apply Hlen. exact pixabay_url_length.
Qed.

End StockUrls.

Lemma search_pixabay_images_urls_witness :
  "https://x/1.jpg"%string <> ""%string /\
  missing_key (Some "key") = false /\
  exists fields listed hit,
    UrlHelpers.sample_hits_reply = Ok (200%Z, Ok (JObj fields)) /\
    assoc "hits" fields = Some (JArr listed) /\
    In (JObj hit) listed /\
    assoc "largeImageURL" hit = Some (JStr "https://x/1.jpg") /\
    (length (UrlHelpers._search_pixabay_images (Some "key")
               UrlHelpers.sample_hits_reply)
     <= length listed)%nat.
Proof.
  apply (search_pixabay_images_urls (Some "key") UrlHelpers.sample_hits_reply).
  vm_compute. left. reflexivity.
Defined.

(** *** Brave image search *)

Section BravePicking.
Import UrlHelpers Brave.

Context `{Runtime}.
Variable url_path : string -> outcome string.

Lemma picked_spec (r : list (string * json)) (u : string) :
  picked url_path r = Some u ->
  In u (candidates r) /\ is_http u = true /\
  (forall v, In v (candidates r) -> is_http v = true ->
             _looks_like_image_url url_path v = true ->
             _looks_like_image_url url_path u = true).
Proof.
  unfold picked.
  destruct (List.find (fun v => is_http v && _looks_like_image_url url_path v)
              (candidates r)) as [best|] eqn:Ebest.
  - intros [= <-]. apply List.find_some in Ebest. destruct Ebest as [Hin Hgood].
    apply andb_prop in Hgood. destruct Hgood as [Hhttp Hlooks].
    split; [exact Hin |]. split; [exact Hhttp |]. intros; exact Hlooks.
  - intros Hany. apply List.find_some in Hany. destruct Hany as [Hin Hhttp].
    split; [exact Hin |]. split; [exact Hhttp |].
    intros v Hv Hvhttp Hvlooks.
    pose proof (List.find_none _ _ Ebest v Hv) as Hnone. cbv beta in Hnone.
    rewrite Hvhttp, Hvlooks in Hnone. discriminate.
Qed.

Lemma picked_none (r : list (string * json)) :
  picked url_path r = None <-> existsb is_http (candidates r) = false.
Proof.
  unfold picked. split.
  - destruct (List.find (fun v => is_http v && _looks_like_image_url url_path v)
                (candidates r)); [discriminate |].
    intros Hnone. destruct (existsb is_http (candidates r)) eqn:Eany; [| reflexivity].
    apply existsb_exists in Eany. destruct Eany as (v & Hv & Hhttp).
    pose proof (List.find_none _ _ Hnone v Hv) as Hno. cbv beta in Hno.
    rewrite Hhttp in Hno. discriminate.
  - intros Hnone.
    assert (Hall : forall v, In v (candidates r) -> is_http v = false).
    { intros v Hv. destruct (is_http v) eqn:Ehttp; [| reflexivity].
      assert (existsb is_http (candidates r) = true) as Habs
        by (apply existsb_exists; eauto).
      congruence. }
    destruct (List.find (fun v => is_http v && _looks_like_image_url url_path v)
                (candidates r)) as [best|] eqn:Ebest.
    + apply List.find_some in Ebest. destruct Ebest as [Hin Hgood].
      apply andb_prop in Hgood. rewrite (Hall best Hin) in Hgood.
      destruct Hgood; discriminate.
    + destruct (List.find is_http (candidates r)) as [any|] eqn:Eany; [| reflexivity].
      apply List.find_some in Eany. destruct Eany as [Hin Hhttp].
      rewrite (Hall any Hin) in Hhttp. discriminate.
Qed.

Lemma urls_of_length (item : json) :
  length (urls_of url_path item) = if offers_http item then 1%nat else 0%nat.
Proof.
  destruct item as [| | | | |r]; try reflexivity. cbn [urls_of offers_http].
  destruct (picked url_path r) as [u|] eqn:Epicked.
  - destruct (existsb is_http (candidates r)) eqn:Eany; [reflexivity |].
    apply picked_none in Eany. congruence.
  - apply picked_none in Epicked. now rewrite Epicked.
Qed.

(** X15. Every URL [_search_brave_images] returns starts with [http] and is
    one of the candidate fields (properties.url, thumbnail.src, image, src,
    url) of a result listed in a 200 reply; and whenever one of that
    result's http candidates looks like an image URL, the URL returned for
    it looks like one too. *)
Theorem search_brave_images_urls (api_key : option string) (r : reply) (u : string) :
  In u (_search_brave_images url_path api_key r) ->
  starts_with "http" u = true /\
  missing_key api_key = false /\
  exists fields listed result,
    r = Ok (200, Ok (JObj fields)) /\
    assoc "results" fields = Some (JArr listed) /\
    In (JObj result) listed /\
    In u (candidates result) /\
    (forall v, In v (candidates result) -> starts_with "http" v = true ->
               _looks_like_image_url url_path v = true ->
               _looks_like_image_url url_path u = true).
Proof.
  unfold _search_brave_images.
  destruct (missing_key api_key); [intros [] |].
  destruct r as [[code decoded]|e]; cbn; [| intros []].
  destruct (Z.eqb_spec code 200) as [->|Hcode]; cbn; [| intros []].
  destruct decoded as [data|e]; cbn; [| intros []].
  destruct data as [| | | | |fields]; cbn; try (intros []).
  destruct (assoc "results" fields) as [listed|] eqn:Elisted; [| intros []].
  unfold py_or. destruct (truthy listed) eqn:Etruthy; [| intros []].
  assert (Hitem : forall items : list json,
            In u (flat_map (urls_of url_path) items) ->
            exists result, In (JObj result) items /\
                           picked url_path result = Some u).
  { intros items Hu. apply in_flat_map in Hu. destruct Hu as (item & Hitem & Hu).
    destruct item as [| | | | |result]; try destruct Hu.
    exists result. split; [exact Hitem |]. cbn [urls_of] in Hu.
    destruct (picked url_path result) as [v|]; [| destruct Hu].
    destruct Hu as [<-|[]]. reflexivity. }
  destruct listed as [| | |s|items|dict]; cbn; try (intros []).
  - intros Hu. destruct (Hitem _ Hu) as (result & Hin & _). exfalso.
    clear - Hin. induction s as [|c s IH]; cbn in Hin; [destruct Hin |].
    destruct Hin as [Habs|Hin]; [discriminate | auto].
  - intros Hu. destruct (Hitem _ Hu) as (result & Hin & Hpicked).
    destruct (picked_spec result u Hpicked) as (Hcand & Hhttp & Hbest).
    split; [exact Hhttp |]. split; [reflexivity |].
    exists fields, items, result. repeat split; assumption.
  - intros Hu. destruct (Hitem _ Hu) as (result & Hin & _). exfalso.
    apply in_map_iff in Hin. destruct Hin as (kv & Habs & _). discriminate.
Qed.

(** X16. When the key is set and a 200 reply lists its results in an array,
    [_search_brave_images] returns exactly one URL for each listed object
    that offers at least one http candidate, and none for anything else. *)
Theorem search_brave_images_count (api_key : option string) (r : reply)
    (fields : list (string * json)) (listed : list json) :
  missing_key api_key = false ->
  r = Ok (200, Ok (JObj fields)) ->
  assoc "results" fields = Some (JArr listed) ->
  length (_search_brave_images url_path api_key r)
  = length (List.filter offers_http listed).
Proof.
  intros Hkey -> Hlisted. unfold _search_brave_images. rewrite Hkey. cbn.
  rewrite Hlisted. unfold py_or.
  destruct listed as [|item rest]; [reflexivity |]. cbn [truthy py_iter].
  cbn [mbind outcome_bind obind mret outcome_ret try_except].
  generalize (item :: rest). clear. intros items.
  induction items as [|item items IH]; [reflexivity |].
  cbn [flat_map List.filter]. rewrite length_app, urls_of_length, IH.
  destruct (offers_http item); reflexivity.
Qed.

End BravePicking.

Lemma search_brave_images_urls_witness :
  starts_with "http" "https://cdn.example/a.jpg" = true /\
  missing_key (Some "key") = false /\
  exists fields listed result,
    Brave.sample_reply = Ok (200, Ok (JObj fields)) /\
    assoc "results" fields = Some (JArr listed) /\
    In (JObj result) listed /\
    In "https://cdn.example/a.jpg"%string (Brave.candidates result) /\
    (forall v, In v (Brave.candidates result) -> starts_with "http" v = true ->
               Brave._looks_like_image_url (H := sample_runtime)
                 Brave.sample_url_path v = true ->
               Brave._looks_like_image_url (H := sample_runtime)
                 Brave.sample_url_path "https://cdn.example/a.jpg" = true).
Proof.
  apply (@search_brave_images_urls sample_runtime Brave.sample_url_path
           (Some "key") Brave.sample_reply).
  vm_compute. left. reflexivity.
Defined.

Lemma search_brave_images_count_witness :
  length (Brave._search_brave_images (H := sample_runtime) Brave.sample_url_path
            (Some "key") Brave.sample_reply) = 2%nat.
Proof.
  apply (@search_brave_images_count sample_runtime Brave.sample_url_path
           (Some "key") Brave.sample_reply
           [("results", JArr Brave.sample_results)] Brave.sample_results);
    reflexivity.
Defined.

(** *** Downloading a ComfyUI image *)

Section Download.
Import UrlHelpers ComfyDownload.

Variable w : world.
Variable output_directory : string.

(** What every run of the download keeps to, whichever way it ends. *)
Let orderly (r : run) : Prop :=
  (length (requested r) <= 1)%nat /\
  (forall path data, In (path, data) (writes r) ->
     exists params response,
       requested r = [params] /\ view w params = Ok response /\
       view_status response = 200 /\ content response = Ok data /\
       writes r = [(path, data)]) /\
  (forall path, ended r = Done path ->
     exists data, writes r = [(path, data)] /\ write_file w path data = Ok tt).

Lemma fails_orderly (requests : list (list (string * json))) (f : failure) :
  (length requests <= 1)%nat -> orderly (fails requests f).
Proof.
  intros Hlen. split; [exact Hlen |]. split.
  - intros path data [].
  - intros path Habs. discriminate Habs.
Qed.

Lemma fetch_orderly (image_info : json) : orderly (fetch w output_directory image_info).
Proof.
  unfold fetch.
  destruct (py_getitem "filename" image_info) as [filename|e];
    cbn [mbind outcome_bind obind]; [| apply fails_orderly; cbn; lia].
  destruct (py_get "subfolder" (JStr "") image_info) as [subfolder|e];
    cbn [mbind outcome_bind obind mret outcome_ret]; [| apply fails_orderly; cbn; lia].
  destruct (view w (view_params filename subfolder)) as [response|e] eqn:Eview;
    [| apply fails_orderly; cbn; lia].
  destruct (Z.eqb_spec (view_status response) 200) as [Hstatus|_];
    [| apply fails_orderly; cbn; lia].
  destruct (content response) as [image_data|e] eqn:Econtent;
    cbn [mbind outcome_bind obind]; [| apply fails_orderly; cbn; lia].
  destruct (extension filename) as [ext|e];
    cbn [mbind outcome_bind obind mret outcome_ret]; [| apply fails_orderly; cbn; lia].
  split; [cbn; lia |]. split.
  - intros path data [[= <- <-]|[]].
    exists (view_params filename subfolder), response. now repeat split.
  - cbn [ended writes]. intros path Hdone.
    destruct (write_file w _ image_data) as [[]|e] eqn:Ewrite; [| discriminate].
    injection Hdone as <-. exists image_data. now split.
Qed.

Lemma scan_orderly (nodes : list (string * json)) :
  orderly (scan w output_directory nodes).
Proof.
  induction nodes as [|[node_id node_output] rest IH]; cbn [scan].
  - apply fails_orderly. cbn; lia.
  - destruct (py_in "images" node_output) as [[|]|e];
      [| exact IH | apply fails_orderly; cbn; lia].
    destruct (py_getitem "images" node_output) as [images|e];
      cbn [mbind outcome_bind obind]; [| apply fails_orderly; cbn; lia].
    destruct (py_iter images) as [[|image_info others]|e];
      [exact IH | apply fetch_orderly | apply fails_orderly; cbn; lia].
Qed.

(** X17. Whatever the history document and the server do,
    [_download_comfyui_image] issues at most one GET request; it opens a file
    for writing only after that request was answered with status 200, and
    writes the bytes read from that response; and it returns a path only if
    that one file was written without error. *)
Theorem download_comfyui_image_effects (status_data : json) (prompt_id : string) :
  let r := _download_comfyui_image w status_data prompt_id output_directory in
  (length (requested r) <= 1)%nat /\
  (forall path data, In (path, data) (writes r) ->
     exists params response,
       requested r = [params] /\ view w params = Ok response /\
       view_status response = 200 /\ content response = Ok data /\
       writes r = [(path, data)]) /\
  (forall path, ended r = Done path ->
     exists data, writes r = [(path, data)] /\ write_file w path data = Ok tt).
Proof.
  cbv zeta. change (orderly (_download_comfyui_image w status_data prompt_id
                               output_directory)).
  unfold _download_comfyui_image.
  destruct (py_in prompt_id status_data) as [[|]|e];
    try (apply fails_orderly; cbn; lia).
  destruct (py_getitem prompt_id status_data) as [entry|e];
    cbn [mbind outcome_bind obind]; [| apply fails_orderly; cbn; lia].
  destruct (py_get "outputs" (JObj []) entry) as [outputs|e];
    [| apply fails_orderly; cbn; lia].
  destruct (truthy outputs); cbn [negb]; [| apply fails_orderly; cbn; lia].
  destruct outputs; try (apply fails_orderly; cbn; lia).
  apply scan_orderly.
Qed.

Lemma fetch_done (image_info : json) (path : string) :
  ended (fetch w output_directory image_info) = Done path ->
  exists info filename ext,
    image_info = JObj info /\
    assoc "filename" info = Some filename /\
    requested (fetch w output_directory image_info)
    = [view_params filename
         (match assoc "subfolder" info with Some v => v | None => JStr "" end)] /\
    extension filename = Ok ext /\
    path = os_path_join output_directory (uuid4 w ++ "." ++ ext)%string.
Proof.
  unfold fetch. destruct image_info as [| | | | |info]; try discriminate.
  cbn [py_getitem py_get]. destruct (assoc "filename" info) as [filename|] eqn:Ename;
    cbn [mbind outcome_bind obind mret outcome_ret]; [| discriminate].
  set (subfolder := match assoc "subfolder" info with Some v => v | None => JStr "" end).
  destruct (view w (view_params filename subfolder)) as [response|e]; [| discriminate].
  destruct (view_status response =? 200); [| discriminate].
  destruct (content response) as [image_data|e];
    cbn [mbind outcome_bind obind]; [| discriminate].
  destruct (extension filename) as [ext|e] eqn:Eext;
    cbn [mbind outcome_bind obind mret outcome_ret]; [| discriminate].
  cbn [ended requested].
  destruct (write_file w _ image_data) as [[]|e]; [| discriminate].
  intros [= <-]. exists info, filename, ext.
  split; [reflexivity |]. split; [exact Ename |]. split; [reflexivity |].
  split; [exact Eext | reflexivity].
Qed.

Lemma scan_done (nodes : list (string * json)) (path : string) :
  ended (scan w output_directory nodes) = Done path ->
  exists image_info,
    first_image nodes = Some image_info /\
    scan w output_directory nodes = fetch w output_directory image_info.
Proof.
  induction nodes as [|[node_id node_output] rest IH]; cbn [scan first_image];
    [discriminate |].
  destruct node_output as [| | |s|items|node]; cbn [py_in]; try discriminate.
  - destruct (contains "images" s); [discriminate | exact IH].
  - destruct (existsb (is_str "images") items); [discriminate | exact IH].
  - cbn [py_getitem]. destruct (assoc "images" node) as [images|]; [| exact IH].
    cbn [mbind outcome_bind obind].
    destruct images as [| | |s|[|image_info others]|[|kv dict]]; cbn [py_iter];
      try discriminate; try exact IH.
    + destruct s as [|c s]; cbn [chars]; [exact IH | discriminate].
    + intros _. exists image_info. now split.
Qed.

(** X18. When [_download_comfyui_image] returns a path, the history document
    holds for the job an entry whose outputs are a map of nodes; the one
    request it made asks for the file name of the first item of the first
    non-empty [images] list among those nodes (with that item's subfolder
    only when it is truthy); and the path is the output directory joined
    with a fresh UUID, a dot and the extension taken from that file name. *)
Theorem download_comfyui_image_done (status_data : json) (prompt_id path : string) :
  ended (_download_comfyui_image w status_data prompt_id output_directory) = Done path ->
  exists top entry nodes info filename ext,
    status_data = JObj top /\
    assoc prompt_id top = Some (JObj entry) /\
    assoc "outputs" entry = Some (JObj nodes) /\
    first_image nodes = Some (JObj info) /\
    assoc "filename" info = Some filename /\
    requested (_download_comfyui_image w status_data prompt_id output_directory)
    = [[("filename", filename); ("type", JStr "output")]
       ++ match assoc "subfolder" info with
          | Some subfolder => if truthy subfolder then [("subfolder", subfolder)] else []
          | None => []
          end] /\
    extension filename = Ok ext /\
    path = os_path_join output_directory (uuid4 w ++ "." ++ ext)%string.
Proof.
  unfold _download_comfyui_image.
  destruct status_data as [| | |s|items|top]; cbn [py_in]; try discriminate.
  - destruct (contains prompt_id s); discriminate.
  - destruct (existsb (is_str prompt_id) items); discriminate.
  - cbn [py_getitem]. destruct (assoc prompt_id top) as [entry|] eqn:Eentry;
      [| discriminate].
    cbn [mbind outcome_bind obind].
    destruct entry as [| | | | |entry]; cbn [py_get]; try discriminate.
    destruct (assoc "outputs" entry) as [outputs|] eqn:Eoutputs; [| discriminate].
    destruct (truthy outputs); cbn [negb]; [| discriminate].
    destruct outputs as [| | | | |nodes]; try discriminate.
    intros Hdone. destruct (scan_done nodes path Hdone) as (image_info & Hfirst & Hscan).
    rewrite Hscan in Hdone |- *.
    destruct (fetch_done image_info path Hdone)
      as (info & filename & ext & -> & Hname & Hreq & Hext & Hpath).
    exists top, entry, nodes, info, filename, ext.
    repeat (split; [first [reflexivity | assumption] |]).
    split; [| now split].
    rewrite Hreq. unfold view_params.
    destruct (assoc "subfolder" info); reflexivity.
Qed.

End Download.

Lemma download_comfyui_image_done_witness :
  exists top entry nodes info filename ext,
    ComfyDownload.sample_document = JObj top /\
    assoc "job-1" top = Some (JObj entry) /\
    assoc "outputs" entry = Some (JObj nodes) /\
    ComfyDownload.first_image nodes = Some (JObj info) /\
    assoc "filename" info = Some filename /\
    ComfyDownload.requested
      (ComfyDownload._download_comfyui_image ComfyDownload.sample_world
         ComfyDownload.sample_document "job-1" "/app/images")
    = [[("filename", filename); ("type", JStr "output")]
       ++ match assoc "subfolder" info with
          | Some subfolder => if truthy subfolder then [("subfolder", subfolder)] else []
          | None => []
          end] /\
    ComfyDownload.extension filename = Ok ext /\
    "/app/images/0f8fad5b-d9cb-469f-a165-70867728950e.png"%string
    = ComfyDownload.os_path_join "/app/images"
        (ComfyDownload.uuid4 ComfyDownload.sample_world ++ "." ++ ext)%string.
Proof.
  apply (download_comfyui_image_done ComfyDownload.sample_world "/app/images"
           ComfyDownload.sample_document "job-1").
  reflexivity.
Defined.

Section Extension.
Import ComfyDownload.

Lemma contains_char (c : ascii) (s : string) :
  contains (String c EmptyString) s = has_char c s.
Proof.
  induction s as [|a s IH]; [reflexivity |].
  cbn [contains starts_with has_char]. rewrite (Ascii.eqb_sym c a).
  destruct (Ascii.eqb a c); [reflexivity | exact IH].
Qed.

Lemma split_on_cons (c : ascii) (s : string) :
  exists piece pieces, split_on c s = piece :: pieces.
Proof.
  destruct s as [|a s]; cbn [split_on]; [eauto |].
  destruct (Ascii.eqb a c); [eauto |]. destruct (split_on c s); eauto.
Qed.

Lemma split_on_plain (c : ascii) (s : string) :
  has_char c s = false -> split_on c s = [s].
Proof.
  induction s as [|a s IH]; [reflexivity |]. cbn [has_char split_on].
  destruct (Ascii.eqb a c); [discriminate |]. cbn [orb]. intros Hs.
  now rewrite (IH Hs).
Qed.

Lemma split_on_single (c : ascii) (s piece : string) :
  split_on c s = [piece] -> has_char c s = false.
Proof.
  revert piece. induction s as [|a s IH]; intros piece Esplit; [reflexivity |].
  cbn [split_on has_char] in *.
  destruct (split_on_cons c s) as (p & ps & E). rewrite E in *.
  destruct (Ascii.eqb a c); [discriminate |].
  injection Esplit as _ ->. exact (IH p eq_refl).
Qed.

Lemma last_split_on (c : ascii) (s : string) :
  has_char c (List.last (split_on c s) EmptyString) = false /\
  (has_char c s = true ->
   exists stem, s = (stem ++ String c (List.last (split_on c s) EmptyString))%string).
Proof.
  induction s as [|a s [IHfree IHstem]]; [split; [reflexivity | discriminate] |].
  cbn [split_on has_char].
  destruct (split_on_cons c s) as (piece & pieces & Esplit).
  destruct (Ascii.eqb_spec a c) as [->|Hne]; cbn [orb].
  - rewrite Esplit in *.
    change (List.last (EmptyString :: piece :: pieces) EmptyString)
      with (List.last (piece :: pieces) EmptyString).
    split; [exact IHfree |]. intros _.
    destruct (has_char c s) eqn:Edot.
    + destruct (IHstem eq_refl) as [stem Hstem].
      exists (String c stem). rewrite append_cons. f_equal. exact Hstem.
    + rewrite (split_on_plain c s Edot) in Esplit. injection Esplit as <- <-.
      exists EmptyString. reflexivity.
  - rewrite Esplit in *. destruct pieces as [|next pieces].
    + cbn [List.last] in *. split.
      * cbn [has_char]. destruct (Ascii.eqb_spec a c) as [|_]; [contradiction |].
        exact IHfree.
      * intros Hdot. rewrite (split_on_single c s piece Esplit) in Hdot.
        discriminate.
    + change (List.last (String a piece :: next :: pieces) EmptyString)
        with (List.last (next :: pieces) EmptyString).
      change (List.last (piece :: next :: pieces) EmptyString)
        with (List.last (next :: pieces) EmptyString) in *.
      split; [exact IHfree |]. intros Hdot.
      destruct (IHstem Hdot) as [stem Hstem].
      exists (String a stem). rewrite append_cons. f_equal. exact Hstem.
Qed.

(** X19. For a file name that is a string, the extension the download uses
    never fails and never contains a dot: it is [png] when the name has no
    dot, and otherwise the text after the last dot, so that the name is some
    stem, a dot and the extension. *)
Theorem extension_of_filename (s : string) :
  exists ext,
    extension (JStr s) = Ok ext /\
    has_char "." ext = false /\
    (if has_char "." s
     then exists stem, s = (stem ++ "." ++ ext)%string
     else ext = "png"%string).
Proof.
  unfold extension. cbn [py_in mbind outcome_bind obind].
  rewrite (contains_char "." s).
  destruct (has_char "." s) eqn:Edot.
  - exists (List.last (split_on "." s) EmptyString).
    destruct (last_split_on "." s) as [Hfree Hstem].
    split; [reflexivity |]. split; [exact Hfree |]. exact (Hstem Edot).
  - exists "png"%string. now repeat split.
Qed.

End Extension.

(** *** From the poller to the download *)

Section PollThenDownload.
Import UrlHelpers ComfyDownload.

(** What a document the check accepts looks like. *)
Lemma check_history_done (prompt_id : string) (document done : json) :
  check_history prompt_id document = Ok (Some done) ->
  done = document /\
  exists top entry,
    document = JObj top /\
    assoc prompt_id top = Some (JObj entry) /\
    ((exists st, assoc "status" entry = Some (JObj st) /\ completed_flag st = true) \/
     (exists outputs, assoc "outputs" entry = Some outputs /\ truthy outputs = true)).
Proof.
  unfold check_history.
  destruct document as [| | |s|items|top]; cbn [py_in mbind outcome_bind obind];
    try discriminate.
  - destruct (contains prompt_id s); cbn [py_getitem mbind outcome_bind obind];
      discriminate.
  - destruct (existsb (is_str prompt_id) items);
      cbn [py_getitem mbind outcome_bind obind]; discriminate.
  - cbn [py_getitem]. destruct (assoc prompt_id top) as [entry|] eqn:Eentry;
      [| discriminate].
    cbn [mbind outcome_bind obind].
    assert (Hlate : forall fields,
              (has_outputs ← py_in "outputs" (JObj fields);
               if (has_outputs : bool)
               then outputs ← py_getitem "outputs" (JObj fields);
                    if truthy outputs then mret (Some (JObj top)) else mret None
               else mret None) = Ok (Some done) ->
              done = JObj top /\
              exists outputs, assoc "outputs" fields = Some outputs /\
                              truthy outputs = true).
    { intros fields. cbn [py_in py_getitem mbind outcome_bind obind].
      destruct (assoc "outputs" fields) as [outputs|]; [| discriminate].
      cbn [mbind outcome_bind obind].
      destruct (truthy outputs) eqn:Eout; [| discriminate].
      intros [= <-]. split; [reflexivity |]. now exists outputs. }
    destruct entry as [| | |s|items|entry]; cbn [py_in mbind outcome_bind obind];
      try discriminate.
    + destruct (contains "status" s); cbn [py_getitem mbind outcome_bind obind];
        [discriminate |].
      cbn [mret outcome_ret mbind outcome_bind obind py_in].
      destruct (contains "outputs" s); cbn [py_getitem mbind outcome_bind obind];
        discriminate.
    + destruct (existsb (is_str "status") items);
        cbn [py_getitem mbind outcome_bind obind]; [discriminate |].
      cbn [mret outcome_ret mbind outcome_bind obind py_in].
      destruct (existsb (is_str "outputs") items);
        cbn [py_getitem mbind outcome_bind obind]; discriminate.
    + cbn [py_getitem]. destruct (assoc "status" entry) as [st|] eqn:Est.
      * cbn [mbind outcome_bind obind].
        destruct st as [| | | | |st]; cbn [py_get mbind outcome_bind obind];
          try discriminate.
        destruct (truthy match assoc "completed" st with
                         | Some x => x
                         | None => JBool false
                         end) eqn:Eflag.
        -- cbn [mret outcome_ret mbind outcome_bind obind]. intros [= <-].
           split; [reflexivity |]. exists top, entry.
           split; [reflexivity |]. split; [exact Eentry |]. left. exists st.
           split; [exact Est |]. unfold completed_flag.
           destruct (assoc "completed" st); [exact Eflag | discriminate].
        -- cbn [py_in py_getitem mbind outcome_bind obind].
           destruct (assoc "error" st); cbn [mbind outcome_bind obind];
             [discriminate |].
           cbn [mret outcome_ret mbind outcome_bind obind].
           intros Hdone. destruct (Hlate entry Hdone) as [-> Hout].
           split; [reflexivity |]. exists top, entry.
           split; [reflexivity |]. split; [exact Eentry |]. now right.
      * cbn [mret outcome_ret mbind outcome_bind obind].
        intros Hdone. destruct (Hlate entry Hdone) as [-> Hout].
        split; [reflexivity |]. exists top, entry.
        split; [reflexivity |]. split; [exact Eentry |]. now right.
Qed.

(** The poller only ever returns a document its check accepted. *)
Lemma wait_loop_done (world : nat -> poll_step) (prompt_id : string)
    (timeout poll_interval start_time : Z) (fuel i : nat) (now : Z)
    (e : poll_end) (document : json) :
  wait_loop world prompt_id timeout poll_interval start_time fuel i now = Some e ->
  result e = Ok document ->
  check_history prompt_id document = Ok (Some document).
Proof.
  revert i now. induction fuel as [|fuel IH]; intros i now Hrun Hres; [discriminate |].
  cbn [wait_loop] in Hrun.
  destruct (now - start_time >? timeout).
  { injection Hrun as <-. discriminate Hres. }
  destruct (get_result (world i)) as [response|msg].
  2: { injection Hrun as <-. discriminate Hres. }
  destruct (negb (status response =? 200)); [now apply IH in Hrun |].
  destruct (body response) as [status_data|]; [| now apply IH in Hrun].
  destruct (check_history prompt_id status_data) as [[done|]|err] eqn:Echeck.
  - injection Hrun as <-. cbn [result] in Hres. injection Hres as ->.
    destruct (check_history_done _ _ _ Echeck) as [-> _]. exact Echeck.
  - now apply IH in Hrun.
  - injection Hrun as <-. discriminate Hres.
Qed.

Lemma fetch_failure (w : world) (output_directory : string) (image_info : json)
    (f : failure) :
  ended (fetch w output_directory image_info) = Failed f ->
  f <> PromptIdNotFound /\ f <> NoOutputs.
Proof.
  unfold fetch.
  destruct (py_getitem "filename" image_info) as [filename|e];
    cbn [mbind outcome_bind obind]; [| intros [= <-]; split; discriminate].
  destruct (py_get "subfolder" (JStr "") image_info) as [subfolder|e];
    cbn [mbind outcome_bind obind mret outcome_ret];
    [| intros [= <-]; split; discriminate].
  destruct (view w _) as [response|e]; [| intros [= <-]; split; discriminate].
  destruct (view_status response =? 200); [| intros [= <-]; split; discriminate].
  destruct (content response) as [image_data|e];
    cbn [mbind outcome_bind obind]; [| intros [= <-]; split; discriminate].
  destruct (extension filename) as [ext|e];
    cbn [mbind outcome_bind obind mret outcome_ret];
    [| intros [= <-]; split; discriminate].
  cbn [ended]. destruct (write_file w _ image_data); [discriminate |].
  intros [= <-]; split; discriminate.
Qed.

Lemma scan_failure (w : world) (output_directory : string)
    (nodes : list (string * json)) (f : failure) :
  ended (scan w output_directory nodes) = Failed f ->
  f <> PromptIdNotFound /\ f <> NoOutputs.
Proof.
  induction nodes as [|[node_id node_output] rest IH]; cbn [scan].
  - intros [= <-]; split; discriminate.
  - destruct (py_in "images" node_output) as [[|]|e];
      [| exact IH | intros [= <-]; split; discriminate].
    destruct (py_getitem "images" node_output) as [images|e];
      cbn [mbind outcome_bind obind]; [| intros [= <-]; split; discriminate].
    destruct (py_iter images) as [[|image_info others]|e];
      [exact IH | apply fetch_failure | intros [= <-]; split; discriminate].
Qed.

(** X20. A document returned by [_wait_for_comfyui_completion] is never
    rejected by [_download_comfyui_image] for lacking the job id; and when
    the download rejects it for having no outputs, the poller had accepted
    it on the strength of a truthy [status.completed] flag alone, and the
    download has issued no request. *)
Theorem poller_result_download (world : nat -> poll_step) (prompt_id : string)
    (timeout poll_interval start_time : Z) (fuel : nat) (e : poll_end)
    (document : json) (w : ComfyDownload.world) (output_directory : string) :
  _wait_for_comfyui_completion world prompt_id timeout poll_interval start_time fuel
    = Some e ->
  result e = Ok document ->
  let r := _download_comfyui_image w document prompt_id output_directory in
  ended r <> Failed PromptIdNotFound /\
  (ended r = Failed NoOutputs ->
   requested r = [] /\
   exists top entry st,
     document = JObj top /\
     assoc prompt_id top = Some (JObj entry) /\
     assoc "status" entry = Some (JObj st) /\
     completed_flag st = true /\
     match assoc "outputs" entry with
     | Some outputs => truthy outputs = false
     | None => True
     end).
Proof.
  intros Hrun Hres. unfold _wait_for_comfyui_completion in Hrun.
  pose proof (wait_loop_done _ _ _ _ _ _ _ _ _ _ Hrun Hres) as Hcheck.
  destruct (check_history_done _ _ _ Hcheck) as (_ & top & entry & -> & Hentry & Hwhy).
  cbv zeta. unfold _download_comfyui_image. cbn [py_in py_getitem].
  rewrite Hentry. cbn [mbind outcome_bind obind py_get].
  destruct (assoc "outputs" entry) as [outputs|] eqn:Eoutputs.
  - destruct (truthy outputs) eqn:Etruthy; cbn [negb].
    + assert (Hscan : forall f,
                ended match outputs with
                      | JObj nodes => scan w output_directory nodes
                      | _ => fails [] (Python PyAttributeError)
                      end = Failed f ->
                f <> PromptIdNotFound /\ f <> NoOutputs).
      { intros f. destruct outputs; try (intros [= <-]; split; discriminate).
        apply scan_failure. }
      split.
      * intros Habs. now destruct (Hscan _ Habs).
      * intros Habs. now destruct (Hscan _ Habs).
    + split; [discriminate |]. intros _. split; [reflexivity |].
      destruct Hwhy as [(st & Hst & Hflag) | (o & Ho & Hyes)].
      * exists top, entry, st.
        split; [reflexivity |]. split; [exact Hentry |]. split; [exact Hst |].
        split; [exact Hflag |]. rewrite Eoutputs. exact Etruthy.
      * congruence.
  - cbn [truthy negb]. split; [discriminate |]. intros _. split; [reflexivity |].
    destruct Hwhy as [(st & Hst & Hflag) | (o & Ho & Hyes)]; [| discriminate].
    exists top, entry, st.
    split; [reflexivity |]. split; [exact Hentry |]. split; [exact Hst |].
    split; [exact Hflag |]. now rewrite Eoutputs.
Qed.

End PollThenDownload.

Lemma poller_result_download_witness :
  let r := ComfyDownload._download_comfyui_image ComfyDownload.sample_world
             ComfyDownload.flag_only_document "job-1" "/app/images" in
  ComfyDownload.ended r <> ComfyDownload.Failed ComfyDownload.PromptIdNotFound /\
  (ComfyDownload.ended r = ComfyDownload.Failed ComfyDownload.NoOutputs ->
   ComfyDownload.requested r = [] /\
   exists top entry st,
     ComfyDownload.flag_only_document = JObj top /\
     assoc "job-1" top = Some (JObj entry) /\
     assoc "status" entry = Some (JObj st) /\
     completed_flag st = true /\
     match assoc "outputs" entry with
     | Some outputs => truthy outputs = false
     | None => True
     end).
Proof.
  apply (poller_result_download ComfyDownload.flag_only_world "job-1"
           default_timeout default_poll_interval 0 1
           {| result := Ok ComfyDownload.flag_only_document; ended_at := 5; polls := 1 |}
           ComfyDownload.flag_only_document ComfyDownload.sample_world "/app/images");
    reflexivity.
Defined.

Lemma download_comfyui_image_effects_witness :
  exists data,
    ComfyDownload.writes
      (ComfyDownload._download_comfyui_image ComfyDownload.sample_world
         ComfyDownload.sample_document "job-1" "/app/images")
    = [("/app/images/0f8fad5b-d9cb-469f-a165-70867728950e.png"%string, data)] /\
    ComfyDownload.write_file ComfyDownload.sample_world
      "/app/images/0f8fad5b-d9cb-469f-a165-70867728950e.png" data = Ok tt.
Proof.
  apply (proj2 (proj2 (download_comfyui_image_effects ComfyDownload.sample_world
                         "/app/images" ComfyDownload.sample_document "job-1"))).
  reflexivity.
Defined.

(** *** The single-image stock functions *)

Section SingleAndMany.
Import UrlHelpers StockSingle.

Lemma item_some (k : string) (v x : json) :
  item k v = Some x -> exists fields, v = JObj fields /\ assoc k fields = Some x.
Proof.
  unfold item, py_getitem. destruct v as [| | | | |fields]; try discriminate.
  destruct (assoc k fields) as [y|] eqn:Ey; [| discriminate].
  intros [= <-]. exists fields. now split.
Qed.

Lemma collect_urls_total (one : json -> outcome (list string)) (items : list json) :
  (forall item, exists here, one item = Ok here) ->
  exists found, collect_urls one items = Ok found.
Proof.
  intros Htotal. induction items as [|x items [found IH]]; [now exists [] |].
  destruct (Htotal x) as [here Hhere]. exists (here ++ found).
  cbn [collect_urls]. rewrite Hhere. cbn [mbind outcome_bind obind].
  rewrite IH. reflexivity.
Qed.

Lemma pexels_url_total (photo : json) : exists here, pexels_url photo = Ok here.
Proof.
  unfold pexels_url. destruct photo as [| | | | |fields]; try (now eexists).
  cbn. destruct (py_or _ (JObj [])); now eexists.
Qed.

Lemma pixabay_url_total (hit : json) : exists here, pixabay_url hit = Ok here.
Proof.
  unfold pixabay_url. destruct hit as [| | | | |fields]; now eexists.
Qed.

(** X21. The two Pexels paths agree on the first image: whenever
    [get_image_from_pexels] extracts a non-empty string from a reply, the
    helper [_search_pexels_images], given an API key and the same reply with
    status 200, returns that string first. *)
Theorem pexels_single_is_first_of_many (api_key : option string) (decoded : outcome json)
    (u : string) :
  get_image_from_pexels (Ok (200, decoded)) = Some (JStr u) ->
  u <> ""%string ->
  missing_key api_key = false ->
  exists others, _search_pexels_images api_key (Ok (200, decoded)) = u :: others.
Proof.
  intros Hone Hne Hkey. unfold get_image_from_pexels in Hone.
  destruct decoded as [data|e]; [| discriminate].
  destruct (item "photos" data) as [photos|] eqn:Ephotos; [| discriminate].
  cbn [mbind option_bind] in Hone.
  destruct (item0 photos) as [photo|] eqn:Ephoto; [| discriminate].
  cbn [mbind option_bind] in Hone.
  destruct (item "src" photo) as [src|] eqn:Esrc; [| discriminate].
  cbn [mbind option_bind] in Hone.
  apply item_some in Ephotos. destruct Ephotos as (fields & -> & Hphotos).
  apply item_some in Esrc. destruct Esrc as (pf & -> & Hsrc).
  apply item_some in Hone. destruct Hone as (sf & -> & Hlarge).
  destruct photos as [| | |s|[|first rest]|]; try discriminate.
  { destruct s; discriminate. }
  injection Ephoto as ->.
  assert (Hfirst : pexels_url (JObj pf) = Ok [u]).
  { unfold pexels_url. cbn [py_get mbind outcome_bind obind]. rewrite Hsrc.
    unfold py_or at 1. destruct sf as [|kv sf]; [discriminate |].
    cbn [truthy py_get mbind outcome_bind obind]. rewrite Hlarge.
    unfold py_or. cbn [truthy]. apply String.eqb_neq in Hne. rewrite Hne.
    cbn [negb mret outcome_ret keep_url]. now rewrite Hne. }
  destruct (collect_urls_total pexels_url rest pexels_url_total) as [others Hrest].
  exists others. unfold _search_pexels_images, stock_urls. rewrite Hkey.
  cbn [mbind outcome_bind obind Z.eqb Pos.eqb negb py_get]. rewrite Hphotos.
  unfold py_or. cbn [truthy py_iter mbind outcome_bind obind collect_urls].
  rewrite Hfirst. cbn [mbind outcome_bind obind]. rewrite Hrest. reflexivity.
Qed.

(** X22. The two Pixabay paths agree on the first image: whenever
    [get_image_from_pixabay] extracts a non-empty string from a reply, the
    helper [_search_pixabay_images], given an API key and the same reply
    with status 200, returns that string first. *)
Theorem pixabay_single_is_first_of_many (api_key : option string) (decoded : outcome json)
    (u : string) :
  get_image_from_pixabay (Ok (200, decoded)) = Some (JStr u) ->
  u <> ""%string ->
  missing_key api_key = false ->
  exists others, _search_pixabay_images api_key (Ok (200, decoded)) = u :: others.
Proof.
  intros Hone Hne Hkey. unfold get_image_from_pixabay in Hone.
  destruct decoded as [data|e]; [| discriminate].
  destruct (item "hits" data) as [hits|] eqn:Ehits; [| discriminate].
  cbn [mbind option_bind] in Hone.
  destruct (item0 hits) as [hit|] eqn:Ehit; [| discriminate].
  cbn [mbind option_bind] in Hone.
  apply item_some in Ehits. destruct Ehits as (fields & -> & Hhits).
  apply item_some in Hone. destruct Hone as (hf & -> & Hurl).
  destruct hits as [| | |s|[|first rest]|]; try discriminate.
  { destruct s; discriminate. }
  injection Ehit as ->.
  assert (Hfirst : pixabay_url (JObj hf) = Ok [u]).
  { unfold pixabay_url. cbn [py_get mbind outcome_bind obind]. rewrite Hurl.
    cbn [mret outcome_ret keep_url]. apply String.eqb_neq in Hne. now rewrite Hne. }
  destruct (collect_urls_total pixabay_url rest pixabay_url_total) as [others Hrest].
  exists others. unfold _search_pixabay_images, stock_urls. rewrite Hkey.
  cbn [mbind outcome_bind obind Z.eqb Pos.eqb negb py_get]. rewrite Hhits.
  unfold py_or. cbn [truthy py_iter mbind outcome_bind obind collect_urls].
  rewrite Hfirst. cbn [mbind outcome_bind obind]. rewrite Hrest. reflexivity.
Qed.

End SingleAndMany.

Lemma pexels_single_is_first_of_many_witness :
  exists others,
    UrlHelpers._search_pexels_images (Some "key") UrlHelpers.sample_photos_reply
    = "https://p/1-large.jpg"%string :: others.
Proof.
  apply (pexels_single_is_first_of_many (Some "key")
           (Ok (JObj [("photos",
              JArr [ JObj [("src", JObj [("large", JStr "https://p/1-large.jpg");
                                         ("original", JStr "https://p/1.jpg")])];
                     JStr "noise";
                     JObj [("src", JObj [("large", JStr "");
                                         ("original", JStr "https://p/2.jpg")])];
                     JObj [("src", JNull)];
                     JObj [("src", JObj [("large", JNum 3)])] ])]))
           "https://p/1-large.jpg").
  - reflexivity.
  - discriminate.
  - reflexivity.
Defined.

Lemma pixabay_single_is_first_of_many_witness :
  exists others,
    UrlHelpers._search_pixabay_images (Some "key") UrlHelpers.sample_hits_reply
    = "https://x/1.jpg"%string :: others.
Proof.
  apply (pixabay_single_is_first_of_many (Some "key")
           (Ok (JObj [("hits",
              JArr [JObj [("largeImageURL", JStr "https://x/1.jpg")];
                    JObj [("largeImageURL", JStr "")];
                    JStr "skipped"])]))
           "https://x/1.jpg").
  - reflexivity.
  - discriminate.
  - reflexivity.
Defined.

(** *** Endpoints *)

Section EndpointFacts.
Import ImagesEndpoints.

Variable str : exn -> string.

Lemma split_on_last_segment (c : ascii) (stem seg : string) :
  has_char c seg = false ->
  List.last (ComfyDownload.split_on c (stem ++ String c seg)%string) EmptyString = seg.
Proof.
  intros Hfree. induction stem as [|a stem IH].
  - rewrite append_nil. cbn [ComfyDownload.split_on]. rewrite Ascii.eqb_refl.
    rewrite (split_on_plain c seg Hfree). reflexivity.
  - rewrite append_cons. cbn [ComfyDownload.split_on].
    destruct (split_on_cons c (stem ++ String c seg)%string)
      as (piece & pieces & Esplit).
    rewrite Esplit in *.
    destruct (Ascii.eqb a c); [exact IH |].
    destruct pieces as [|next pieces]; [| exact IH].
    exfalso. apply split_on_single in Esplit.
    clear - Esplit. induction stem as [|b stem IHs].
    + rewrite append_nil in Esplit. cbn [has_char] in Esplit.
      now rewrite Ascii.eqb_refl in Esplit.
    + rewrite append_cons in Esplit. cbn [has_char] in Esplit.
      apply orb_false_elim in Esplit. now apply IHs.
Qed.

(** X23. [get_image_details] looks at the file name only: for a URL made of
    any prefix, a slash and a slash-free name, the query asks for the paths
    that end in that name; the first row is returned, no row gives the 404
    answer unchanged, and a failing query gives a 500 answer. *)
Theorem get_image_details_by_filename (scalars : string -> outcome (list ImageAsset))
    (stem seg : string) :
  has_char "/" seg = false ->
  get_image_details str scalars (stem ++ "/" ++ seg)%string
  = match scalars ("%" ++ seg)%string with
    | Ok (image :: _) => Returned image
    | Ok [] => Raised (HTTPException 404 "Image not found")
    | Raise e =>
        Raised (HTTPException 500
                  ("Failed to retrieve details: " ++ str (Failure e))%string)
    end.
Proof.
  intros Hfree. unfold get_image_details, filename_of.
  change (stem ++ "/" ++ seg)%string with (stem ++ String "/" seg)%string.
  rewrite (split_on_last_segment "/" stem seg Hfree).
  destruct (scalars ("%" ++ seg)%string) as [[|image rows]|e]; reflexivity.
Qed.

(** X24. [delete_uploaded_image_by_id] never answers 404: it succeeds or
    answers 500.  For a missing row the 404 raised inside is reported as a
    500 and nothing is touched; the row is deleted only after the file was
    removed without error; and success means the file was removed, the row
    deleted and the deletion committed, in that order. *)
Theorem delete_uploaded_image_by_id_answers (s : store) :
  let '(done, reply) := delete_uploaded_image_by_id str s in
  status_of reply <> Some 404 /\
  (reply = Returned tt \/ exists detail, reply = Raised (HTTPException 500 detail)) /\
  (get_row s = Ok None ->
   done = [GetRow] /\
   reply = Raised (HTTPException 500
                     ("Failed to delete image: "
                      ++ str (HTTPException 404 "Image not found"))%string)) /\
  (In DeleteRow done ->
   exists image, get_row s = Ok (Some image) /\
                 remove_file s (path image) = Ok tt /\
                 In (RemoveFile (path image)) done) /\
  (reply = Returned tt ->
   exists image, get_row s = Ok (Some image) /\
                 done = [GetRow; RemoveFile (path image); DeleteRow; Commit]).
Proof.
  unfold delete_uploaded_image_by_id, delete_body.
  destruct (get_row s) as [[image|]|e] eqn:Erow;
    [destruct (remove_file s (path image)) as [[]|e1] eqn:Eremove;
       [destruct (delete_row s) as [[]|e2];
          [destruct (commit s) as [[]|e3] |] |] | |];
    (split; [cbn; discriminate |]);
    (split; [first [left; reflexivity | right; eexists; reflexivity] |]);
    (split; [first [discriminate | intros _; split; reflexivity] |]);
    (split;
       [ cbn [In]; intros Hin;
         first [ eexists; split; [reflexivity |]; split; [eassumption |];
                 right; left; reflexivity
               | repeat (destruct Hin as [Hin|Hin]; [discriminate Hin |]);
                 destruct Hin ]
       | first [discriminate | intros _; eexists; split; reflexivity] ]).
Qed.

End EndpointFacts.

Lemma get_image_details_by_filename_witness :
  ImagesEndpoints.get_image_details ImagesEndpoints.sample_str
    ImagesEndpoints.sample_scalars "/static/images/a.png"
  = ImagesEndpoints.Returned ImagesEndpoints.sample_asset.
Proof.
  apply (get_image_details_by_filename ImagesEndpoints.sample_str
           ImagesEndpoints.sample_scalars "/static/images" "a.png").
  reflexivity.
Defined.

Lemma delete_uploaded_image_by_id_answers_witness :
  ImagesEndpoints.delete_uploaded_image_by_id ImagesEndpoints.sample_str
    ImagesEndpoints.empty_store
  = ([ImagesEndpoints.GetRow],
     ImagesEndpoints.Raised
       (ImagesEndpoints.HTTPException 500
          "Failed to delete image: 404: Image not found")).
Proof.
  pose proof (delete_uploaded_image_by_id_answers ImagesEndpoints.sample_str
                ImagesEndpoints.empty_store) as Hfacts.
  destruct (ImagesEndpoints.delete_uploaded_image_by_id ImagesEndpoints.sample_str
              ImagesEndpoints.empty_store) as [done reply].
  destruct Hfacts as (_ & _ & Hmissing & _).
  destruct (Hmissing eq_refl) as [-> ->]. reflexivity.
Defined.

(** *** Injecting twice *)

Section InjectTwice.

Context `{Runtime}.

Lemma assoc_set_twice (k : string) (v v' : json) (fields : list (string * json)) :
  assoc_set k v' (assoc_set k v fields) = assoc_set k v' fields.
Proof.
  induction fields as [|[k0 v0] rest IH]; cbn [assoc_set].
  - now rewrite String.eqb_refl.
  - destruct (String.eqb k k0) eqn:Ek; cbn [assoc_set]; rewrite Ek; [reflexivity |].
    now rewrite IH.
Qed.

(** Whether a node is passed over does not depend on the prompt. *)
Lemma inject_node_passed_over (node : json) (p p' : string) :
  inject_node node p = Ok None -> inject_node node p' = Ok None.
Proof.
  unfold inject_node.
  destruct (py_get "_meta" (JObj []) node) as [meta|e]; [| discriminate].
  cbn [mbind outcome_bind obind].
  destruct (py_get "title" (JStr "") meta) as [t|e]; [| discriminate].
  cbn [mbind outcome_bind obind].
  destruct (py_lower t) as [title|e]; [| discriminate].
  cbn [mbind outcome_bind obind].
  destruct (String.eqb title "input prompt"); [| reflexivity].
  destruct (py_in "inputs" node) as [[|]|e]; try discriminate; [| reflexivity].
  cbn [mbind outcome_bind obind].
  destruct (py_getitem "inputs" node) as [inputs|e]; [| discriminate].
  cbn [mbind outcome_bind obind].
  destruct (py_in "text" inputs) as [[|]|e]; try discriminate; [| reflexivity].
  cbn [mbind outcome_bind obind].
  destruct (py_setitem "text" (JStr p) inputs) as [inputs'|e]; [| discriminate].
  cbn [mbind outcome_bind obind].
  destruct (py_setitem "inputs" inputs' node); discriminate.
Qed.

(** Writing into a node that was written into. *)
Lemma inject_node_twice (node written : json) (p p' : string) :
  inject_node node p = Ok (Some written) ->
  inject_node written p' = inject_node node p'.
Proof.
  unfold inject_node.
  destruct node as [| | | | |fields]; try discriminate.
  cbn [py_get mbind outcome_bind obind].
  set (meta := match assoc "_meta" fields with Some x => x | None => JObj [] end).
  destruct (py_get "title" (JStr "") meta) as [t|e] eqn:Etitle; [| discriminate].
  cbn [mbind outcome_bind obind].
  destruct (py_lower t) as [title|e] eqn:Elower; [| discriminate].
  cbn [mbind outcome_bind obind].
  destruct (String.eqb title "input prompt") eqn:Eprompt; [| discriminate].
  cbn [py_in py_getitem mbind outcome_bind obind].
  destruct (assoc "inputs" fields) as [inputs|] eqn:Einputs; [| discriminate].
  cbn [mbind outcome_bind obind].
  destruct (py_in "text" inputs) as [[|]|e] eqn:Etext; try discriminate.
  cbn [mbind outcome_bind obind].
  destruct inputs as [| | | | |inputs]; try discriminate.
  cbn [py_setitem mbind outcome_bind obind mret outcome_ret].
  intros [= <-].
  cbn [py_get py_in py_getitem mbind outcome_bind obind].
  rewrite (assoc_set_other "inputs" "_meta") by discriminate.
  fold meta. rewrite Etitle. cbn [mbind outcome_bind obind].
  rewrite Elower. cbn [mbind outcome_bind obind]. rewrite Eprompt.
  rewrite assoc_set_same. cbn [py_in mbind outcome_bind obind].
  rewrite assoc_set_same. cbn [py_in] in Etext.
  destruct (assoc "text" inputs); [| discriminate].
  cbn [py_setitem mbind outcome_bind obind mret outcome_ret].
  now rewrite !assoc_set_twice.
Qed.

(** Whether a node is written into does not depend on the prompt. *)
Lemma inject_node_written (node written : json) (p p' : string) :
  inject_node node p = Ok (Some written) ->
  exists written', inject_node node p' = Ok (Some written').
Proof.
  unfold inject_node.
  destruct (py_get "_meta" (JObj []) node) as [meta|e]; [| discriminate].
  cbn [mbind outcome_bind obind].
  destruct (py_get "title" (JStr "") meta) as [t|e]; [| discriminate].
  cbn [mbind outcome_bind obind].
  destruct (py_lower t) as [title|e]; [| discriminate].
  cbn [mbind outcome_bind obind].
  destruct (String.eqb title "input prompt"); [| discriminate].
  destruct (py_in "inputs" node) as [[|]|e]; try discriminate.
  cbn [mbind outcome_bind obind].
  destruct (py_getitem "inputs" node) as [inputs|e]; [| discriminate].
  cbn [mbind outcome_bind obind].
  destruct (py_in "text" inputs) as [[|]|e]; try discriminate.
  cbn [mbind outcome_bind obind].
  destruct inputs as [| | | | |inputs]; try discriminate.
  destruct node as [| | | | |fields]; try discriminate.
  intros _. cbn [py_setitem mbind outcome_bind obind mret outcome_ret]. eauto.
Qed.

Lemma inject_nodes_twice (nodes written : list (string * json)) (p p' : string) :
  inject_nodes nodes p = Ok written ->
  inject_nodes written p' = inject_nodes nodes p'.
Proof.
  revert written. induction nodes as [|[node_id node] rest IH]; intros written;
    [discriminate |].
  cbn [inject_nodes].
  destruct (inject_node node p) as [[node1|]|e] eqn:Enode; try discriminate;
    cbn [mbind outcome_bind obind mret outcome_ret].
  - intros [= <-]. cbn [inject_nodes].
    rewrite (inject_node_twice node node1 p p' Enode).
    destruct (inject_node_written node node1 p p' Enode) as [node2 ->].
    reflexivity.
  - destruct (inject_nodes rest p) as [rest1|e] eqn:Erest; [| discriminate].
    cbn [mbind outcome_bind obind mret outcome_ret]. intros [= <-].
    cbn [inject_nodes].
    rewrite (inject_node_passed_over node p p' Enode).
    cbn [mbind outcome_bind obind mret outcome_ret].
    now rewrite (IH rest1 eq_refl).
Qed.

(** X25. The last injection wins: once a prompt was injected into a
    workflow, injecting another prompt into the result gives exactly what
    injecting that other prompt into the original workflow gives; injecting
    the same prompt again changes nothing. *)
Theorem inject_prompt_last_wins (workflow written : json) (p p' : string) :
  _inject_prompt_into_workflow workflow p = Ok written ->
  _inject_prompt_into_workflow written p' = _inject_prompt_into_workflow workflow p' /\
  _inject_prompt_into_workflow written p = Ok written.
Proof.
  unfold _inject_prompt_into_workflow.
  destruct workflow as [| | | | |nodes]; try discriminate.
  destruct (inject_nodes nodes p) as [nodes1|e] eqn:Enodes; [| discriminate].
  cbn [mbind outcome_bind obind mret outcome_ret]. intros [= <-].
  rewrite !(inject_nodes_twice nodes nodes1 p _ Enodes). rewrite Enodes.
  now split.
Qed.

End InjectTwice.

Lemma inject_prompt_last_wins_witness :
  @_inject_prompt_into_workflow sample_runtime
    (JObj [("3", sampler_node); ("6", prompt_node "a red fox");
           ("9", prompt_node "other")]) "a blue whale"
  = @_inject_prompt_into_workflow sample_runtime (JObj sample_workflow) "a blue whale" /\
  @_inject_prompt_into_workflow sample_runtime
    (JObj [("3", sampler_node); ("6", prompt_node "a red fox");
           ("9", prompt_node "other")]) "a red fox"
  = Ok (JObj [("3", sampler_node); ("6", prompt_node "a red fox");
              ("9", prompt_node "other")]).
Proof.
  apply (@inject_prompt_last_wins sample_runtime (JObj sample_workflow)).
  reflexivity.
Defined.

(** *** The poller's request budget *)

Section PollerBudget.

Variable world : nat -> poll_step.
Variable prompt_id : string.
Variables timeout poll_interval start_time : Z.

Hypothesis interval_positive : 0 < poll_interval.
Hypothesis time_moves_on :
  forall i, 0 <= sleep_overshoot (world i) /\ 0 <= get_duration (world i).

(** From any iteration the loop ends within the iterations the remaining
    time allows, having slept one interval before each request. *)
Lemma wait_loop_budget (n i : nat) (now : Z) :
  Z.of_nat i * poll_interval <= now - start_time ->
  (i = 0%nat \/ (Z.of_nat i - 1) * poll_interval <= timeout) ->
  timeout - (now - start_time) < Z.of_nat n * poll_interval ->
  exists e,
    wait_loop world prompt_id timeout poll_interval start_time (S n) i now = Some e /\
    Z.of_nat (polls e) * poll_interval <= ended_at e - start_time /\
    (polls e = 0%nat \/ (Z.of_nat (polls e) - 1) * poll_interval <= timeout).
Proof.
  revert i now. induction n as [|n IH]; intros i now Hslept Hbudget Hleft.
  - cbn [wait_loop].
    destruct (Z.gtb_spec (now - start_time) timeout) as [_|Hle]; [| lia].
    eexists. split; [reflexivity |]. cbn [polls ended_at]. now split.
  - remember (S n) as fuel eqn:Efuel. cbn [wait_loop].
    destruct (Z.gtb_spec (now - start_time) timeout) as [_|Hle].
    { eexists. split; [reflexivity |]. cbn [polls ended_at]. now split. }
    destruct (time_moves_on i) as [Hsleep Hget].
    set (now' := after_sleep now poll_interval (sleep_overshoot (world i))
                 + get_duration (world i)).
    assert (Hnow' : now + poll_interval <= now') by (subst now'; unfold after_sleep; lia).
    assert (Hnext : exists e,
              wait_loop world prompt_id timeout poll_interval start_time fuel (S i) now'
                = Some e /\
              Z.of_nat (polls e) * poll_interval <= ended_at e - start_time /\
              (polls e = 0%nat \/ (Z.of_nat (polls e) - 1) * poll_interval <= timeout)).
    { subst fuel. apply IH; [nia | right; nia | nia]. }
    assert (Hhere : forall r,
              Z.of_nat (polls {| result := r; ended_at := now'; polls := S i |})
                * poll_interval
              <= ended_at {| result := r; ended_at := now'; polls := S i |} - start_time /\
              (polls {| result := r; ended_at := now'; polls := S i |} = 0%nat \/
               (Z.of_nat (polls {| result := r; ended_at := now'; polls := S i |}) - 1)
                 * poll_interval <= timeout)).
    { intros r. cbn [polls ended_at]. split; [nia | right; nia]. }
    destruct (get_result (world i)) as [response|msg].
    2: { eexists. split; [reflexivity | apply Hhere]. }
    destruct (negb (status response =? 200)); [exact Hnext |].
    destruct (body response) as [status_data|]; [| exact Hnext].
    destruct (check_history prompt_id status_data) as [[done|]|err].
    + eexists. split; [reflexivity | apply Hhere].
    + exact Hnext.
    + eexists. split; [reflexivity | apply Hhere].
Qed.

(** X26. With a positive poll interval, and sleeps and requests that take no
    negative time, [_wait_for_comfyui_completion] ends whatever the server
    answers; by then it has issued at most one request per elapsed interval
    and never more than [timeout / poll_interval + 1] requests. *)
Theorem poller_request_budget :
  exists fuel e,
    (forall fuel', (fuel <= fuel')%nat ->
       _wait_for_comfyui_completion world prompt_id timeout poll_interval start_time
         fuel' = Some e) /\
    Z.of_nat (polls e) * poll_interval <= ended_at e - start_time /\
    Z.of_nat (polls e) <= Z.max 0 (timeout / poll_interval + 1).
Proof.
  set (n := Z.to_nat (Z.max 0 (timeout / poll_interval + 1))).
  destruct (wait_loop_budget n 0%nat start_time) as (e & Hrun & Hrate & Hbudget).
  { lia. }
  { now left. }
  { subst n. rewrite Z2Nat.id by lia.
    pose proof (Z.mul_succ_div_gt timeout poll_interval interval_positive). nia. }
  exists (S n), e. split; [| split; [exact Hrate |]].
  - intros fuel' Hle. unfold _wait_for_comfyui_completion.
    now apply (wait_loop_fuel _ _ _ _ _ (S n)).
  - destruct Hbudget as [-> | Hbudget]; [lia |].
    assert (Z.of_nat (polls e) - 1 <= timeout / poll_interval).
    { apply Z.div_le_lower_bound; [exact interval_positive | lia]. }
    lia.
Qed.

End PollerBudget.

Lemma poller_request_budget_witness :
  exists fuel e,
    (forall fuel', (fuel <= fuel')%nat ->
       _wait_for_comfyui_completion ComfyDownload.flag_only_world "job-1"
         default_timeout default_poll_interval 0 fuel' = Some e) /\
    Z.of_nat (polls e) * default_poll_interval <= ended_at e - 0 /\
    Z.of_nat (polls e) <= Z.max 0 (default_timeout / default_poll_interval + 1).
Proof.
  apply (poller_request_budget ComfyDownload.flag_only_world "job-1"
           default_timeout default_poll_interval 0).
  - reflexivity.
  - intros i. cbn. lia.
Defined.
